(** * Story curator: sentence tagging, span grouping, merging and highlighting

    A shallow embedding of the pure core of the repository:
    [src/utils/text_processor.py] ([TextProcessor]),
    [src/utils/highlighting_utils.py] ([HighlightingHelper]), the
    aggregation part of [src/flagging/content_flagger.py] ([ContentFlagger])
    and of [src/tagging/skill_tagger.py] ([SkillTagger]), and the counts of
    [src/report/html_generator.py] ([HTMLReportGenerator]).

    Conventions of the embedding.
    - A Python [str] is a list of characters; a character is a code point
      below 256 (type [ascii]).  In that range [\d] is [0-9], [str.isspace]
      holds of 9..13, 28..32, 133 and 160, and [.] is every character but the
      line feed (the patterns are compiled without [re.DOTALL]).
    - A Python [int] is a [Z].
    - A call that can raise returns an [outcome].
    - [nltk.sent_tokenize] is a library function: it is a parameter
      [sent_tokenize] of the definitions that call it.
    - The ids of a flag or of a skill tag come from a parsed response and are
      values of any kind ([PyVal]).  For an [int] the markers are the
      literal text [<tagN>] and the search is the one of [Regex]; for another
      value the pattern is written from [str] of the value and may hold
      operators of the pattern language, and [re.search] on it is a parameter
      [search_value] of the definitions that call it.
    - [float] of an [int] or of a [str] is a parameter ([float_of_int],
      [float_of_str]) of the validation of skill tags. *)

From Stdlib Require Import ZArith List Ascii String Bool Lia Permutation Sorted QArith.
From stdpp Require Import gmap.
Import ListNotations.

Local Open Scope Z_scope.
Local Open Scope list_scope.

(** ** Strings *)

Definition str : Type := list ascii.

Definition lit (s : string) : str := list_ascii_of_string s.

Definition code (c : ascii) : nat := nat_of_ascii c.

Definition char_eqb (a b : ascii) : bool := Ascii.eqb a b.
Arguments char_eqb : simpl never.

Definition is_empty {A : Type} (l : list A) : bool :=
  match l with
  | [] => true
  | _ :: _ => false
  end.

(** [c.isdigit()] as [\d] sees it, for a one-byte code point. *)
Definition is_digit (c : ascii) : bool :=
  (Nat.leb 48 (code c) && Nat.leb (code c) 57)%bool.

(** [c.isspace()] for a one-byte code point. *)
Definition is_space (c : ascii) : bool :=
  let n := code c in
  ((Nat.leb 9 n && Nat.leb n 13) || (Nat.leb 28 n && Nat.leb n 32)
   || Nat.eqb n 133 || Nat.eqb n 160)%bool.

Definition newline : ascii := ascii_of_nat 10.

(** [.] of a regular expression compiled without flags. *)
Definition is_dot (c : ascii) : bool := negb (char_eqb c newline).

Fixpoint take_while {A : Type} (p : A -> bool) (l : list A) : list A :=
  match l with
  | [] => []
  | x :: l' => if p x then x :: take_while p l' else []
  end.

Fixpoint drop_while {A : Type} (p : A -> bool) (l : list A) : list A :=
  match l with
  | [] => []
  | x :: l' => if p x then drop_while p l' else l
  end.

(** [s.startswith(p)] *)
Fixpoint starts_with (p s : str) : bool :=
  match p, s with
  | [], _ => true
  | _ :: _, [] => false
  | a :: p', b :: s' => (char_eqb a b && starts_with p' s')%bool
  end.

(** [p in s] *)
Fixpoint contains (s p : str) : bool :=
  (starts_with p s ||
   match s with
   | [] => false
   | _ :: s' => contains s' p
   end)%bool.

(** [a == b] and [a < b] on strings: by code points, lexicographically. *)
Fixpoint str_eqb (a b : str) : bool :=
  match a, b with
  | [], [] => true
  | x :: a', y :: b' => (char_eqb x y && str_eqb a' b')%bool
  | _, _ => false
  end.

Fixpoint str_ltb (a b : str) : bool :=
  match a, b with
  | _, [] => false
  | [], _ :: _ => true
  | x :: a', y :: b' =>
      if Nat.ltb (code x) (code y) then true
      else if Nat.ltb (code y) (code x) then false
      else str_ltb a' b'
  end.

(** [s.strip()] *)
Definition lstrip (s : str) : str := drop_while is_space s.
Definition rstrip (s : str) : str := rev (drop_while is_space (rev s)).
Definition strip (s : str) : str := rstrip (lstrip s).

(** [sep.join(parts)] *)
Fixpoint join (sep : str) (parts : list str) : str :=
  match parts with
  | [] => []
  | x :: rest =>
      match rest with
      | [] => x
      | _ :: _ => x ++ sep ++ join sep rest
      end
  end.

(** ** Decimal notation of integers: [str(n)] and [int(digits)] *)

Definition digit_char (d : Z) : ascii := ascii_of_nat (48 + Z.to_nat d).

Definition digit_val (c : ascii) : Z := Z.of_nat (code c) - 48.

Fixpoint decimal_digits (fuel : nat) (n : Z) (acc : str) : str :=
  match fuel with
  | O => acc
  | S fuel' =>
      let acc' := digit_char (n mod 10) :: acc in
      if n <? 10 then acc' else decimal_digits fuel' (n / 10) acc'
  end.

Definition str_of_nonneg (n : Z) : str :=
  decimal_digits (S (Z.to_nat (Z.log2 n))) n [].

(** [f"{n}"] for an [int]. *)
Definition str_of_int (n : Z) : str :=
  if n <? 0 then lit "-" ++ str_of_nonneg (- n) else str_of_nonneg n.

(** [int(ds)] for a run of digits [ds] matched by [\d+]. *)
Definition int_of_digits (ds : str) : Z :=
  fold_left (fun acc c => 10 * acc + digit_val c) ds 0.

(** ** Outcomes of calls that can raise *)

(** [ReError] is [re.error], raised for a pattern that does not compile. *)
Inductive exn : Type := TypeError | IndexError | ReError.

Inductive outcome (A : Type) : Type :=
| Ok (a : A)
| Raise (e : exn).
Arguments Ok {A} a.
Arguments Raise {A} e.

Definition bind {A B : Type} (m : outcome A) (k : A -> outcome B) : outcome B :=
  match m with
  | Ok a => k a
  | Raise e => Raise e
  end.

Notation "'let*' x ':=' m 'in' k" := (bind m (fun x => k))
  (at level 10, x name, m at level 100, k at level 200).

(** ** The regular expressions of [TextProcessor] *)

Module Regex.

(** The lazy group [(.*?)] followed by the literal [close]: the shortest run
    of non-line-feed characters after which [close] stands.  Returns the
    group and what follows the match. *)
Fixpoint lazy_until (close s : str) : option (str * str) :=
  if starts_with close s then Some ([], drop (length close) s)
  else
    match s with
    | [] => None
    | c :: s' =>
        if is_dot c then
          match lazy_until close s' with
          | Some (g, rest) => Some (c :: g, rest)
          | None => None
          end
        else None
    end.

(** [opening(.*?)closing] anchored at the head of [s]. *)
Definition match_here (opening closing s : str) : option (str * str) :=
  if starts_with opening s then lazy_until closing (drop (length opening) s)
  else None.

(** [re.search(opening(.*?)closing, s)]: the match at the leftmost position
    that has one; its group 1. *)
Fixpoint search (opening closing s : str) : option str :=
  match match_here opening closing s with
  | Some (g, _) => Some g
  | None =>
      match s with
      | [] => None
      | _ :: s' => search opening closing s'
      end
  end.

(** [<tag\d+>] anchored at the head of [s].  The greedy [\d+] takes every
    digit; giving some back leaves a digit where [>] is wanted. *)
Definition marker_here (s : str) : bool :=
  (starts_with (lit "<tag") s
   && (let r := drop 4 s in
       let ds := take_while is_digit r in
       negb (is_empty ds) && starts_with (lit ">") (drop (length ds) r)))%bool.

(** [re.search(r'<tag\d+>', s)] as a truth value. *)
Fixpoint search_marker (s : str) : bool :=
  (marker_here s ||
   match s with
   | [] => false
   | _ :: s' => search_marker s'
   end)%bool.

(** [<tag(\d+)>(.*?)</tag\1>] anchored at the head of [s]: group 1, group 2
    and what follows the match. *)
Definition pair_here (s : str) : option (str * str * str) :=
  if starts_with (lit "<tag") s then
    let r := drop 4 s in
    let ds := take_while is_digit r in
    if is_empty ds then None
    else
      let r' := drop (length ds) r in
      if starts_with (lit ">") r' then
        match lazy_until (lit "</tag" ++ ds ++ lit ">") (drop 1 r') with
        | Some (g, rest) => Some (ds, g, rest)
        | None => None
        end
      else None
  else None.

(** [re.finditer]: the matches from left to right, each search resuming
    where the previous match ended.  [fuel] bounds the number of steps. *)
Fixpoint finditer (fuel : nat) (s : str) : list (str * str) :=
  match fuel with
  | O => []
  | S fuel' =>
      match pair_here s with
      | Some (ds, g, rest) => (ds, g) :: finditer fuel' rest
      | None =>
          match s with
          | [] => []
          | _ :: s' => finditer fuel' s'
          end
      end
  end.

End Regex.

(** ** [TextProcessor] *)

Module TextProcessor.

Section Tokenizer.

(** [nltk.sent_tokenize] *)
Variable sent_tokenize : str -> list str.

Definition split_into_sentences (text : str) : list str :=
  if (is_empty text || is_empty (strip text))%bool then []
  else
    List.filter (fun s => negb (is_empty s)) (map strip (sent_tokenize text)).

Definition wrap_sentence (tag_prefix : str) (i : Z) (sentence : str) : str :=
  lit "<" ++ tag_prefix ++ str_of_int i ++ lit ">" ++ sentence
  ++ lit "</" ++ tag_prefix ++ str_of_int i ++ lit ">".

(** The loop [for i, sentence in enumerate(sentences, start=1)]. *)
Fixpoint tag_loop (tag_prefix : str) (i : Z) (sentences : list str)
    (tagged_sentences : list str) : list str :=
  match sentences with
  | [] => tagged_sentences
  | sentence :: rest =>
      tag_loop tag_prefix (i + 1) rest
        (tagged_sentences ++ [wrap_sentence tag_prefix i sentence])
  end.

Definition tag_sentences_with (tag_prefix : str) (text : str) : str :=
  join (lit " ") (tag_loop tag_prefix 1 (split_into_sentences text) []).

(** [tag_sentences(text)] with the default [tag_prefix="tag"]. *)
Definition tag_sentences (text : str) : str :=
  tag_sentences_with (lit "tag") text.

End Tokenizer.

Definition open_marker (tag_number : Z) : str :=
  lit "<tag" ++ str_of_int tag_number ++ lit ">".

Definition close_marker (tag_number : Z) : str :=
  lit "</tag" ++ str_of_int tag_number ++ lit ">".

Definition extract_sentence_by_tag (text : str) (tag_number : Z) : str :=
  match Regex.search (open_marker tag_number) (close_marker tag_number) text with
  | Some g => g
  | None => []
  end.

(** The scan of [get_sentence_mapping] over a text that holds markers. *)
Definition scan_mapping (text : str) : list (Z * str) :=
  map (fun m => (int_of_digits (fst m), snd m))
      (Regex.finditer (S (length text)) text).

Definition get_sentence_mapping (sent_tokenize : str -> list str) (text : str)
    : list (Z * str) :=
  let text :=
    if negb (Regex.search_marker text) then tag_sentences sent_tokenize text
    else text in
  scan_mapping text.

(** The loop of [group_consecutive_numbers] over [numbers[1:]]. *)
Fixpoint group_loop (rest : list Z) (groups : list (list Z))
    (current_group : list Z) : list (list Z) :=
  match rest with
  | [] => groups ++ [current_group]
  | n :: rest' =>
      if n =? List.last current_group 0 + 1
      then group_loop rest' groups (current_group ++ [n])
      else group_loop rest' (groups ++ [current_group]) [n]
  end.

Definition group_consecutive_numbers (numbers : list Z) : list (list Z) :=
  match numbers with
  | [] => []
  | n0 :: rest => group_loop rest [] [n0]
  end.

(** The loop of [extract_sentences_for_tags]. *)
Fixpoint extract_loop (tagged_content : str) (tag_numbers : list Z)
    (sentences : list str) : list str :=
  match tag_numbers with
  | [] => sentences
  | tag_num :: rest =>
      let sentence := extract_sentence_by_tag tagged_content tag_num in
      if negb (is_empty sentence)
      then extract_loop tagged_content rest (sentences ++ [sentence])
      else extract_loop tagged_content rest sentences
  end.

Definition extract_sentences_for_tags (tagged_content : str)
    (tag_numbers : list Z) : str :=
  join (lit " ") (extract_loop tagged_content tag_numbers []).

End TextProcessor.

(** ** Python values, as [json.loads] hands them to the core

    Floats and dicts are left out: as a whole [tag_numbers] value they take
    the same branch as [None] and strings. *)

#[warnings="-register-all"]
Inductive PyVal : Type :=
| PyNone
| PyBool (b : bool)
| PyInt (n : Z)
| PyStr (s : str)
| PyList (l : list PyVal).

(** The numeric value of an instance of [int] ([bool] is a subclass). *)
Definition int_value (v : PyVal) : option Z :=
  match v with
  | PyInt n => Some n
  | PyBool b => Some (if b then 1 else 0)
  | _ => None
  end.

(** [a == b] *)
Fixpoint py_eq (a b : PyVal) : bool :=
  match a, b with
  | PyNone, PyNone => true
  | PyStr s, PyStr t => str_eqb s t
  | PyList xs, PyList ys =>
      (fix eq_list (xs ys : list PyVal) : bool :=
         match xs, ys with
         | [], [] => true
         | x :: xs', y :: ys' => (py_eq x y && eq_list xs' ys')%bool
         | _, _ => false
         end) xs ys
  | _, _ =>
      match int_value a, int_value b with
      | Some m, Some n => m =? n
      | _, _ => false
      end
  end.

(** [a < b]: defined between numbers, between strings and between lists
    (at the first pair of unequal elements); a [TypeError] otherwise. *)
Fixpoint py_lt (a b : PyVal) : outcome bool :=
  match a, b with
  | PyStr s, PyStr t => Ok (str_ltb s t)
  | PyList xs, PyList ys =>
      (fix lt_list (xs ys : list PyVal) : outcome bool :=
         match xs, ys with
         | _, [] => Ok false
         | [], _ :: _ => Ok true
         | x :: xs', y :: ys' =>
             if py_eq x y then lt_list xs' ys' else py_lt x y
         end) xs ys
  | _, _ =>
      match int_value a, int_value b with
      | Some m, Some n => Ok (m <? n)
      | _, _ => Raise TypeError
      end
  end.

(** ** Python's sort

    [sorted] and [list.sort] are stable and compare with [<] only, and the
    first comparison that raises ends the sort.  The embedding is the stable
    insertion sort; when no comparison raises, the result of a stable sort
    does not depend on the algorithm. *)

Section PySort.

Context {A : Type} (lt : A -> A -> outcome bool).

Fixpoint sort_insert (x : A) (l : list A) : outcome (list A) :=
  match l with
  | [] => Ok [x]
  | y :: l' =>
      let* b := lt y x in
      if b then (let* r := sort_insert x l' in Ok (y :: r))
      else Ok (x :: y :: l')
  end.

Fixpoint py_sort (l : list A) : outcome (list A) :=
  match l with
  | [] => Ok []
  | x :: l' => let* s := py_sort l' in sort_insert x s
  end.

End PySort.

Definition sorted (l : list PyVal) : outcome (list PyVal) := py_sort py_lt l.

(** ** [TextProcessor.normalize_tag_numbers] *)

Definition normalize_tag_numbers (tag_numbers : PyVal) : outcome (list PyVal) :=
  match tag_numbers with
  | PyInt _ | PyBool _ => Ok [tag_numbers]
  | PyList l => sorted l
  | _ => Ok []
  end.

(** ** [TextProcessor] on ids of any value

    [group_consecutive_numbers], [extract_sentence_by_tag] and
    [extract_sentences_for_tags] are annotated [int] and [List[int]], and
    nothing checks the annotation: the flagger and the tagger hand them
    whatever [normalize_tag_numbers] returned.  These are the same functions
    on values of any kind. *)

Module Untyped.

(** [v + 1]: defined on an [int] or a [bool]; a [TypeError] on [None], a
    string or a list. *)
Definition add_one (v : PyVal) : outcome PyVal :=
  match int_value v with
  | Some n => Ok (PyInt (n + 1))
  | None => Raise TypeError
  end.

(** The loop of [group_consecutive_numbers] over [numbers[1:]]; the sum
    [current_group[-1] + 1] is evaluated before the comparison. *)
Fixpoint group_loop (rest : list PyVal) (groups : list (list PyVal))
    (current_group : list PyVal) : outcome (list (list PyVal)) :=
  match rest with
  | [] => Ok (groups ++ [current_group])
  | v :: rest' =>
      let* next := add_one (List.last current_group PyNone) in
      if py_eq v next
      then group_loop rest' groups (current_group ++ [v])
      else group_loop rest' (groups ++ [current_group]) [v]
  end.

Definition group_consecutive_numbers (numbers : list PyVal)
    : outcome (list (list PyVal)) :=
  match numbers with
  | [] => Ok []
  | v0 :: rest => group_loop rest [] [v0]
  end.

Section Engine.

(** The pattern [f'<tag{v}>(.*?)</tag{v}>'] of a value [v] that is not an
    [int] holds the text of [v] as part of the regular expression, whatever
    it is ([True], [None], the characters of a string, the brackets of a
    list).  [search_value v text] stands for [re.search] of that pattern in
    [text]: it raises when the pattern does not compile, and gives group 1 of
    the match otherwise, [None] when there is no match or the group took no
    part in it. *)
Variable search_value : PyVal -> str -> outcome (option str).

Definition extract_sentence_by_tag (text : str) (tag_number : PyVal)
    : outcome str :=
  match tag_number with
  | PyInt n => Ok (TextProcessor.extract_sentence_by_tag text n)
  | _ =>
      let* group1 := search_value tag_number text in
      Ok (default [] group1)
  end.

(** The loop of [extract_sentences_for_tags]. *)
Fixpoint extract_loop (tagged_content : str) (tag_numbers : list PyVal)
    (sentences : list str) : outcome (list str) :=
  match tag_numbers with
  | [] => Ok sentences
  | tag_num :: rest =>
      let* sentence := extract_sentence_by_tag tagged_content tag_num in
      if negb (is_empty sentence)
      then extract_loop tagged_content rest (sentences ++ [sentence])
      else extract_loop tagged_content rest sentences
  end.

Definition extract_sentences_for_tags (tagged_content : str)
    (tag_numbers : list PyVal) : outcome str :=
  let* sentences := extract_loop tagged_content tag_numbers [] in
  Ok (join (lit " ") sentences).

End Engine.

End Untyped.

(** ** The per-sentence index

    Both index builders run the loop
    [for tag_num in tag_numbers: if tag_num not in d: d[tag_num] = [];
    d[tag_num].append(entry)]. *)
Fixpoint file_under {A : Type} (entry : A) (tag_numbers : list Z)
    (d : gmap Z (list A)) : gmap Z (list A) :=
  match tag_numbers with
  | [] => d
  | tag_num :: rest =>
      file_under entry rest (<[tag_num := default [] (d !! tag_num) ++ [entry]]> d)
  end.

(** The same loop over ids of any value.  A list cannot be a key:
    [tag_num not in d] raises [TypeError] on it.  A [bool] is the key of its
    number ([True == 1], with the same hash).  [None] and strings are keys
    that are equal to no number; the renderers look the index up at the ids
    of the sentence mapping, which are [int]s, so what is filed under such a
    key is never read, and the index does not hold it. *)
Fixpoint file_under_values {A : Type} (entry : A) (tag_numbers : list PyVal)
    (d : gmap Z (list A)) : outcome (gmap Z (list A)) :=
  match tag_numbers with
  | [] => Ok d
  | PyList _ :: _ => Raise TypeError
  | tag_num :: rest =>
      match int_value tag_num with
      | Some n =>
          file_under_values entry rest (<[n := default [] (d !! n) ++ [entry]]> d)
      | None => file_under_values entry rest d
      end
  end.

(** Can [v] be the key of a dictionary? *)
Definition hashable (v : PyVal) : bool :=
  match v with
  | PyList _ => false
  | _ => true
  end.

(** The numbers among the ids of a run: the keys under which
    [file_under_values] files. *)
Fixpoint sentence_ids (tag_numbers : list PyVal) : list Z :=
  match tag_numbers with
  | [] => []
  | v :: rest =>
      match int_value v with
      | Some n => n :: sentence_ids rest
      | None => sentence_ids rest
      end
  end.

(** ** [HighlightingHelper] *)

Module HighlightingHelper.

Definition dict_get (table : list (str * str)) (key default : str) : str :=
  match List.find (fun kv => str_eqb (fst kv) key) table with
  | Some kv => snd kv
  | None => default
  end.

Definition SEVERITY_COLORS : list (str * str) :=
  [ (lit "Critical", lit "#d32f2f"); (lit "High", lit "#ff6b6b");
    (lit "Medium", lit "#ffa726"); (lit "Low", lit "#fff59d") ].

Definition SEVERITY_CSS_CLASSES : list (str * str) :=
  [ (lit "Critical", lit "flag-critical"); (lit "High", lit "flag-high");
    (lit "Medium", lit "flag-medium"); (lit "Low", lit "flag-low") ].

Definition CATEGORY_HIGHLIGHT_COLORS : list (str * str) :=
  [ (lit "Decoding", lit "#3498db"); (lit "Comprehension", lit "#27ae60");
    (lit "Vocabulary", lit "#e74c3c"); (lit "Knowledge", lit "#f39c12");
    (lit "Fluency", lit "#9b59b6"); (lit "Unknown", lit "#95a5a6") ].

Definition CATEGORY_CSS_CLASSES : list (str * str) :=
  [ (lit "Decoding", lit "skill-decoding");
    (lit "Comprehension", lit "skill-comprehension");
    (lit "Vocabulary", lit "skill-vocabulary");
    (lit "Knowledge", lit "skill-knowledge");
    (lit "Fluency", lit "skill-fluency"); (lit "Unknown", lit "skill-unknown") ].

Definition CATEGORY_MAP : list (str * str) :=
  [ (lit "DEC", lit "Decoding"); (lit "COMP", lit "Comprehension");
    (lit "VOCAB", lit "Vocabulary"); (lit "KNOW", lit "Knowledge");
    (lit "FLUENCY", lit "Fluency") ].

(** [s.split(sep)] for a one-character separator. *)
Fixpoint split_on (sep : ascii) (s : str) : list str :=
  match s with
  | [] => [[]]
  | c :: s' =>
      if char_eqb c sep then [] :: split_on sep s'
      else
        match split_on sep s' with
        | [] => [[c]]
        | part :: parts => (c :: part) :: parts
        end
  end.

Definition extract_category_from_skill_id (skill_id : str) : str :=
  match split_on "-"%char skill_id with
  | _ :: cat_code :: _ => dict_get CATEGORY_MAP cat_code (lit "Unknown")
  | _ => lit "Unknown"
  end.

(** The entry that [flag_story] files under each sentence it covers. *)
Record FlagInfo : Type := {
  severity : str;
  css_class : str;
  color : str;
  info_issue_type : str;
  info_text_evidence : str;
  info_rationale : str;
  info_confidence : Q
}.

Definition dquote : str := [ascii_of_nat 34].

(** The [<span ...>] that both renderers emit. *)
Definition span (css_class color title text : str) : str :=
  lit "<span class=" ++ dquote ++ css_class ++ dquote ++ lit " "
  ++ lit "style=" ++ dquote ++ lit "background-color: " ++ color
  ++ lit "; padding: 2px 4px; border-radius: 3px;" ++ dquote ++ lit " "
  ++ lit "title=" ++ dquote ++ title ++ dquote ++ lit ">" ++ text ++ lit "</span>".

Definition flag_description (f : FlagInfo) : str :=
  severity f ++ lit ": " ++ info_issue_type f.

(** The loop of [generate_flag_html_simple] over [sentence_mapping]. *)
Fixpoint flag_html_loop (sentence_mapping : list (Z * str))
    (sentence_flags : gmap Z (list FlagInfo)) (html_parts : list str)
    : outcome (list str) :=
  match sentence_mapping with
  | [] => Ok html_parts
  | (tag_num, text) :: rest =>
      match sentence_flags !! tag_num with
      | Some flags_list =>
          let* style :=
            if Nat.ltb 1 (length flags_list) then
              Ok (lit "#9e9e9e", lit "flag-multiple",
                  lit "Multiple issues - "
                  ++ join (lit "; ") (map flag_description flags_list))
            else
              match flags_list with
              | [] => Raise IndexError
              | flag_info :: _ =>
                  Ok (color flag_info, css_class flag_info,
                      severity flag_info ++ lit ": " ++ info_issue_type flag_info)
              end in
          let '(color, css_class, title) := style in
          flag_html_loop rest sentence_flags
            (html_parts ++ [span css_class color title text])
      | None => flag_html_loop rest sentence_flags (html_parts ++ [text])
      end
  end.

Definition generate_flag_html_simple (sentence_mapping : list (Z * str))
    (sentence_flags : gmap Z (list FlagInfo)) : outcome str :=
  let* html_parts := flag_html_loop sentence_mapping sentence_flags [] in
  Ok (join (lit " ") html_parts).

(** A skill tag as [generate_skill_html_simple] reads it: every field
    through [.get] with a default. *)
Record SkillTag : Type := {
  skill_id : option str;
  skill_name : option str;
  skill_confidence : option Q;
  skill_tag_numbers : option (list Z)
}.

Record SkillInfo : Type := {
  category : str;
  sk_confidence : Q;
  sk_skill_name : str;
  sk_skill_id : str
}.

(** The loop [for skill_tag in skill_tags]. *)
Fixpoint tag_skills_loop (skill_tags : list SkillTag)
    (tag_skills : gmap Z (list SkillInfo)) : gmap Z (list SkillInfo) :=
  match skill_tags with
  | [] => tag_skills
  | skill_tag :: rest =>
      let skill_id := default [] (skill_id skill_tag) in
      let skill_name := default [] (skill_name skill_tag) in
      let confidence := default 0%Q (skill_confidence skill_tag) in
      let tag_numbers := default [] (skill_tag_numbers skill_tag) in
      let category := extract_category_from_skill_id skill_id in
      tag_skills_loop rest
        (file_under
           {| category := category; sk_confidence := confidence;
              sk_skill_name := skill_name; sk_skill_id := skill_id |}
           tag_numbers tag_skills)
  end.

Definition skill_description (s : SkillInfo) : str :=
  category s ++ lit ": " ++ sk_skill_name s.

Section SkillHtml.

(** [f"{confidence:.2f}"], the float formatting of the language. *)
Variable format_2f : Q -> str.

Definition skill_title (skill : SkillInfo) : str :=
  category skill ++ lit ": " ++ sk_skill_name skill
  ++ lit " (confidence: " ++ format_2f (sk_confidence skill) ++ lit ")".

Fixpoint skill_html_loop (sentence_mapping : list (Z * str))
    (tag_skills : gmap Z (list SkillInfo)) (html_parts : list str)
    : outcome (list str) :=
  match sentence_mapping with
  | [] => Ok html_parts
  | (tag_num, text) :: rest =>
      match tag_skills !! tag_num with
      | Some skills_list =>
          let* style :=
            if Nat.ltb 1 (length skills_list) then
              Ok (lit "#9e9e9e", lit "skill-multiple",
                  lit "Multiple skills - "
                  ++ join (lit "; ") (map skill_description skills_list))
            else
              match skills_list with
              | [] => Raise IndexError
              | skill :: _ =>
                  Ok (dict_get CATEGORY_HIGHLIGHT_COLORS (category skill) (lit "#95a5a6"),
                      dict_get CATEGORY_CSS_CLASSES (category skill) (lit "skill-unknown"),
                      skill_title skill)
              end in
          let '(color, css_class, title) := style in
          skill_html_loop rest tag_skills
            (html_parts ++ [span css_class color title text])
      | None => skill_html_loop rest tag_skills (html_parts ++ [text])
      end
  end.

Definition generate_skill_html_simple (sentence_mapping : list (Z * str))
    (skill_tags : list SkillTag) : outcome str :=
  let tag_skills := tag_skills_loop skill_tags ∅ in
  let* html_parts := skill_html_loop sentence_mapping tag_skills [] in
  Ok (join (lit " ") html_parts).

End SkillHtml.

(** [compare_severity]: is [sev1] a higher severity than [sev2]? *)
Definition severity_order : list (str * Z) :=
  [ (lit "Critical", 4); (lit "High", 3); (lit "Medium", 2); (lit "Low", 1) ].

Definition rank_get (table : list (str * Z)) (key : str) (default : Z) : Z :=
  match List.find (fun kv => str_eqb (fst kv) key) table with
  | Some kv => snd kv
  | None => default
  end.

Definition compare_severity (sev1 sev2 : str) : bool :=
  rank_get severity_order sev1 0 >? rank_get severity_order sev2 0.

End HighlightingHelper.

(** ** [ContentFlagger] *)

Module ContentFlagger.

(** A flag as the classifier returns it, each field present or missing. *)
Record RawFlag : Type := {
  raw_issue_type : option str;
  raw_severity_level : option str;
  raw_confidence : option Q;
  raw_rationale : option str;
  raw_tag_numbers : option PyVal
}.

(** A flag as [_group_consecutive_flags] emits it; its [tag_numbers] are a
    group of whatever values the flag held. *)
Record GroupedFlag : Type := {
  issue_type : str;
  severity_level : str;
  confidence : Q;
  text_evidence : str;
  rationale : str;
  tag_numbers : list PyVal
}.

(** The loop [for future in as_completed(...)]: [completed] holds what each
    category check returned or raised, in the order the checks finished. *)
Fixpoint collect_loop (completed : list (outcome (list RawFlag)))
    (all_flags_raw : list RawFlag) : list RawFlag :=
  match completed with
  | [] => all_flags_raw
  | Ok flags :: rest => collect_loop rest (all_flags_raw ++ flags)
  | Raise _ :: rest => collect_loop rest all_flags_raw
  end.

(** The sort key [f.get("tag_numbers", [float('inf')])[0]]; a grouped flag
    always has the field. *)
Definition first_tag (f : GroupedFlag) : outcome PyVal :=
  match tag_numbers f with
  | v :: _ => Ok v
  | [] => Raise IndexError
  end.

(** [list.sort(key=...)] computes every key before it compares any. *)
Fixpoint decorate (l : list GroupedFlag) : outcome (list (PyVal * GroupedFlag)) :=
  match l with
  | [] => Ok []
  | f :: l' =>
      let* k := first_tag f in
      let* r := decorate l' in
      Ok ((k, f) :: r)
  end.

(** The keys are compared with [<]. *)
Definition key_lt (a b : PyVal * GroupedFlag) : outcome bool :=
  py_lt (fst a) (fst b).

Definition sort_by_first_tag (l : list GroupedFlag) : outcome (list GroupedFlag) :=
  let* keyed := decorate l in
  let* sorted_keyed := py_sort key_lt keyed in
  Ok (map snd sorted_keyed).

Definition flag_entry (flag : GroupedFlag) : HighlightingHelper.FlagInfo :=
  {| HighlightingHelper.severity := severity_level flag;
     HighlightingHelper.css_class :=
       HighlightingHelper.dict_get HighlightingHelper.SEVERITY_CSS_CLASSES
         (severity_level flag) (lit "flag-low");
     HighlightingHelper.color :=
       HighlightingHelper.dict_get HighlightingHelper.SEVERITY_COLORS
         (severity_level flag) (lit "#fff59d");
     HighlightingHelper.info_issue_type := issue_type flag;
     HighlightingHelper.info_text_evidence := text_evidence flag;
     HighlightingHelper.info_rationale := rationale flag;
     HighlightingHelper.info_confidence := confidence flag |}.

(** The loop [for flag in grouped_flags] that builds [flags] and
    [sentence_flags]. *)
Fixpoint index_loop (grouped_flags : list GroupedFlag)
    (sentence_flags : gmap Z (list HighlightingHelper.FlagInfo))
    (flags : list HighlightingHelper.FlagInfo)
    : outcome (gmap Z (list HighlightingHelper.FlagInfo)
               * list HighlightingHelper.FlagInfo) :=
  match grouped_flags with
  | [] => Ok (sentence_flags, flags)
  | flag :: rest =>
      let entry := flag_entry flag in
      let* sentence_flags :=
        file_under_values entry (tag_numbers flag) sentence_flags in
      index_loop rest sentence_flags (flags ++ [entry])
  end.

Record StoryResult : Type := {
  flag_count : nat;
  has_critical : bool;
  highlighted_text : str;
  flags : list HighlightingHelper.FlagInfo
}.

Section Engine.

(** [re.search] for the pattern of an id that is not an [int]; see
    [Untyped.extract_sentence_by_tag]. *)
Variable search_value : PyVal -> str -> outcome (option str).

(** The loop [for group in groups] for one flag. *)
Fixpoint groups_loop (flag : RawFlag) (tagged_content : str)
    (groups : list (list PyVal)) (grouped_flags : list GroupedFlag)
    : outcome (list GroupedFlag) :=
  match groups with
  | [] => Ok grouped_flags
  | group :: rest =>
      let* paragraph :=
        Untyped.extract_sentences_for_tags search_value tagged_content group in
      if negb (is_empty paragraph) then
        groups_loop flag tagged_content rest
          (grouped_flags ++
           [ {| issue_type := default (lit "Unknown") (raw_issue_type flag);
                severity_level := default (lit "Low") (raw_severity_level flag);
                confidence := default (1 # 2)%Q (raw_confidence flag);
                text_evidence := paragraph;
                rationale := default [] (raw_rationale flag);
                tag_numbers := group |} ])
      else groups_loop flag tagged_content rest grouped_flags
  end.

(** The loop [for flag in flags_raw]. *)
Fixpoint flags_loop (flags_raw : list RawFlag) (tagged_content : str)
    (grouped_flags : list GroupedFlag) : outcome (list GroupedFlag) :=
  match flags_raw with
  | [] => Ok grouped_flags
  | flag :: rest =>
      let* tag_numbers :=
        normalize_tag_numbers (default (PyList []) (raw_tag_numbers flag)) in
      if is_empty tag_numbers then flags_loop rest tagged_content grouped_flags
      else
        let* groups := Untyped.group_consecutive_numbers tag_numbers in
        let* grouped_flags :=
          groups_loop flag tagged_content groups grouped_flags in
        flags_loop rest tagged_content grouped_flags
  end.

Definition _group_consecutive_flags (flags_raw : list RawFlag)
    (tagged_content : str) : outcome (list GroupedFlag) :=
  flags_loop flags_raw tagged_content [].

(** [flag_story] from the collection of the category results to the sort:
    the merged, ordered list of grouped flags. *)
Definition merged_flags (tagged_content : str)
    (completed : list (outcome (list RawFlag))) : outcome (list GroupedFlag) :=
  let all_flags_raw := collect_loop completed [] in
  let* grouped_flags := _group_consecutive_flags all_flags_raw tagged_content in
  sort_by_first_tag grouped_flags.

(** [flag_story], given the tagged content of the story and the completed
    category checks. *)
Definition flag_story (sent_tokenize : str -> list str) (tagged_content : str)
    (completed : list (outcome (list RawFlag))) : outcome StoryResult :=
  let sentence_mapping :=
    TextProcessor.get_sentence_mapping sent_tokenize tagged_content in
  let* grouped_flags := merged_flags tagged_content completed in
  let* index := index_loop grouped_flags ∅ [] in
  let '(sentence_flags, flags) := index in
  let* highlighted_text :=
    HighlightingHelper.generate_flag_html_simple sentence_mapping sentence_flags in
  Ok {| flag_count := length flags;
        has_critical :=
          existsb (fun f => str_eqb (HighlightingHelper.severity f) (lit "Critical"))
            flags;
        highlighted_text := highlighted_text;
        flags := flags |}.

End Engine.

End ContentFlagger.

(** ** Runs of consecutive integers *)

(** Each element of a run is its predecessor plus one. *)
Inductive consecutive : list Z -> Prop :=
| consecutive_one (a : Z) : consecutive [a]
| consecutive_cons (a : Z) (run : list Z) :
    consecutive run -> List.hd 0 run = a + 1 -> consecutive (a :: run).

(** No run could have been extended by the first element of the next. *)
Inductive maximal : list (list Z) -> Prop :=
| maximal_nil : maximal []
| maximal_one (r : list Z) : maximal [r]
| maximal_cons (r1 r2 : list Z) (rs : list (list Z)) :
    List.hd 0 r2 <> List.last r1 0 + 1 -> maximal (r2 :: rs) -> maximal (r1 :: r2 :: rs).

(** The loop without its accumulator of closed groups. *)
Fixpoint absorb (current_group rest : list Z) : list (list Z) :=
  match rest with
  | [] => [current_group]
  | n :: rest' =>
      if n =? List.last current_group 0 + 1
      then absorb (current_group ++ [n]) rest'
      else current_group :: absorb [n] rest'
  end.


(** ** Notions used in the statements *)

Section SortSpec.

Context {A : Type} (lt : A -> A -> outcome bool) (key : A -> Z).

Definition key_le (a b : A) : Prop := key a <= key b.

Definition has_key (k : Z) (a : A) : bool := key a =? k.

(** On [l], [lt] is the comparison of the keys and never raises. *)
Definition keyed_on (l : list A) : Prop :=
  forall a b, In a l -> In b l -> lt a b = Ok (key a <? key b).

End SortSpec.

Definition int_key (v : PyVal) : Z := default 0 (int_value v).

Definition resolves (tagged_content : str) (tag_num : Z) : bool :=
  negb (is_empty (TextProcessor.extract_sentence_by_tag tagged_content tag_num)).

(** The sentences of the ids of [run] that resolve, in run order. *)
Definition found_sentences (tagged_content : str) (run : list Z) : list str :=
  map (TextProcessor.extract_sentence_by_tag tagged_content)
      (List.filter (resolves tagged_content) run).

(** The first id of the run of a grouped flag, and its number when it is
    an [int] or a [bool]. *)
Definition first_value (f : ContentFlagger.GroupedFlag) : PyVal :=
  List.hd PyNone (ContentFlagger.tag_numbers f).

Definition first_id (f : ContentFlagger.GroupedFlag) : Z :=
  int_key (first_value f).

(** A grouped flag whose first id is a number. *)
Definition numbered (f : ContentFlagger.GroupedFlag) : Prop :=
  exists (v : PyVal) (rest : list PyVal) (n : Z),
    ContentFlagger.tag_numbers f = v :: rest /\ int_value v = Some n.

(** Another stand-in, for the examples with ids that are not numbers.  It
    is used on the string [a], whose pattern is its text, and on the list
    [[1]], whose pattern [<tag[1]>(.*?)</tag[1]>] takes the brackets for a
    character class and so matches between the markers of 1. *)
Definition example_search (v : PyVal) (text : str) : outcome (option str) :=
  match v with
  | PyStr s =>
      Ok (Regex.search (lit "<tag" ++ s ++ lit ">") (lit "</tag" ++ s ++ lit ">")
            text)
  | PyList [PyInt n] =>
      Ok (Regex.search (TextProcessor.open_marker n) (TextProcessor.close_marker n)
            text)
  | _ => Ok None
  end.

(** A text with a marker that is not numbered. *)
Definition letter_doc : str := lit "<taga>x</taga> <tag1>y</tag1>".

(** A grouped flag whose ids are all [int]s. *)
Definition int_run (f : ContentFlagger.GroupedFlag) : Prop :=
  exists run : list Z, ContentFlagger.tag_numbers f = map PyInt run.

(** What one raw flag contributes to the grouped flags. *)
Definition flag_entries (search_value : PyVal -> str -> outcome (option str))
    (tagged_content : str) (flag : ContentFlagger.RawFlag)
    : outcome (list ContentFlagger.GroupedFlag) :=
  ContentFlagger.flags_loop search_value [flag] tagged_content [].

(** A stand-in for [re.search] on the pattern of a value that is not an
    [int], for the examples: no match. *)
Definition no_match (v : PyVal) (text : str) : outcome (option str) := Ok None.

(** The spans of a response as the prompt asks for it: no [tag_numbers], an
    [int], a list of [int]s, or a value that is neither a number nor a list
    (which [normalize_tag_numbers] reads as no id). *)
Definition typed_span (v : PyVal) : Prop :=
  match v with
  | PyList l => exists ns : list Z, l = map PyInt ns
  | PyBool _ => False
  | _ => True
  end.

Definition typed_flag (flag : ContentFlagger.RawFlag) : Prop :=
  match ContentFlagger.raw_tag_numbers flag with
  | Some v => typed_span v
  | None => True
  end.

(** A stand-in for [sent_tokenize] in the examples: a sentence ends at a
    [.], [!] or [?] that white space follows. *)
Definition is_terminator (c : ascii) : bool :=
  (char_eqb c "."%char || char_eqb c "!"%char || char_eqb c "?"%char)%bool.

Fixpoint period_loop (s current : str) : list str :=
  match s with
  | [] => [current]
  | c :: s' =>
      if (is_terminator c
          && match s' with
             | next :: _ => is_space next
             | [] => false
             end)%bool
      then (current ++ [c]) :: period_loop s' []
      else period_loop s' (current ++ [c])
  end.

Definition period_tokenize (text : str) : list str := period_loop text [].

(** The id [v] resolves: its extraction returns a sentence. *)
Definition resolves_value (search_value : PyVal -> str -> outcome (option str))
    (tagged_content : str) (v : PyVal) : Prop :=
  exists sentence,
    Untyped.extract_sentence_by_tag search_value tagged_content v = Ok sentence
    /\ sentence <> [].

(** A run as [Untyped.group_consecutive_numbers] cuts it: one value of any
    kind, or numbers that each are the one before plus one. *)
Inductive run_of_values : list PyVal -> Prop :=
| run_one (v : PyVal) : run_of_values [v]
| run_cons (a b : PyVal) (run : list PyVal) (n : Z) :
    run_of_values (b :: run) ->
    int_value a = Some n -> int_value b = Some (n + 1) ->
    run_of_values (a :: b :: run).

(** What [_group_consecutive_flags] promises of an entry it emits. *)
Definition entry_ok (search_value : PyVal -> str -> outcome (option str))
    (tagged_content : str) (e : ContentFlagger.GroupedFlag) : Prop :=
  run_of_values (ContentFlagger.tag_numbers e)
  /\ Untyped.extract_sentences_for_tags search_value tagged_content
       (ContentFlagger.tag_numbers e)
     = Ok (ContentFlagger.text_evidence e)
  /\ ContentFlagger.text_evidence e <> []
  /\ Exists (resolves_value search_value tagged_content)
       (ContentFlagger.tag_numbers e).

(** What a completed category check hands over: its flags, or nothing when
    it raised. *)
Definition results_of (r : outcome (list ContentFlagger.RawFlag))
    : list ContentFlagger.RawFlag :=
  match r with
  | Ok flags => flags
  | Raise _ => []
  end.

(** The merge-ordering example: one document, three categories with one flag
    each, on sentences 5, 1 and 3. *)
Definition one_flag (issue severity : string) (tag_numbers : PyVal)
    : ContentFlagger.RawFlag :=
  {| ContentFlagger.raw_issue_type := Some (lit issue);
     ContentFlagger.raw_severity_level := Some (lit severity);
     ContentFlagger.raw_confidence := Some (9 # 10)%Q;
     ContentFlagger.raw_rationale := Some (lit "Test");
     ContentFlagger.raw_tag_numbers := Some tag_numbers |}.

Definition three_doc : str :=
  lit "<tag1>S1.</tag1> <tag5>S5.</tag5> <tag3>S3.</tag3>".

Definition three_categories : list (outcome (list ContentFlagger.RawFlag)) :=
  [ Ok [one_flag "Violence" "High" (PyList [PyInt 5])];
    Ok [one_flag "Safety" "Critical" (PyList [PyInt 1])];
    Ok [one_flag "Age" "Medium" (PyList [PyInt 3])] ].

Definition keyed_flag (f : ContentFlagger.GroupedFlag)
    : PyVal * ContentFlagger.GroupedFlag :=
  (first_value f, f).


(** ** What the renderers are to emit *)

(** One copy of [entry] for each time [id] stands in [tag_numbers]. *)
Definition copies {A : Type} (entry : A) (id : Z) (tag_numbers : list Z) : list A :=
  map (fun _ => entry) (List.filter (Z.eqb id) tag_numbers).

(** A list added at the end of the list under a key, if it adds anything. *)
Definition extend {A : Type} (o : option (list A)) (l : list A) : option (list A) :=
  match l with
  | [] => o
  | _ :: _ => Some (default [] o ++ l)
  end.


Definition skill_info (skill_tag : HighlightingHelper.SkillTag)
    : HighlightingHelper.SkillInfo :=
  {| HighlightingHelper.category :=
       HighlightingHelper.extract_category_from_skill_id
         (default [] (HighlightingHelper.skill_id skill_tag));
     HighlightingHelper.sk_confidence :=
       default 0%Q (HighlightingHelper.skill_confidence skill_tag);
     HighlightingHelper.sk_skill_name :=
       default [] (HighlightingHelper.skill_name skill_tag);
     HighlightingHelper.sk_skill_id :=
       default [] (HighlightingHelper.skill_id skill_tag) |}.

(** The skills that cover sentence [id], in order. *)
Definition covering_skills (id : Z) (skill_tags : list HighlightingHelper.SkillTag)
    : list HighlightingHelper.SkillInfo :=
  flat_map (fun skill_tag =>
    copies (skill_info skill_tag) id
      (default [] (HighlightingHelper.skill_tag_numbers skill_tag)))
    skill_tags.


(** The fragment of one sentence in the skill rendering. *)
Inductive skill_fragment (format_2f : Q -> str)
    (tag_skills : gmap Z (list HighlightingHelper.SkillInfo))
    : Z * str -> str -> Prop :=
| skill_plain (id : Z) (text : str) :
    tag_skills !! id = None ->
    skill_fragment format_2f tag_skills (id, text) text
| skill_single (id : Z) (text : str) (s : HighlightingHelper.SkillInfo) :
    tag_skills !! id = Some [s] ->
    skill_fragment format_2f tag_skills (id, text)
      (HighlightingHelper.span
         (HighlightingHelper.dict_get HighlightingHelper.CATEGORY_CSS_CLASSES
            (HighlightingHelper.category s) (lit "skill-unknown"))
         (HighlightingHelper.dict_get HighlightingHelper.CATEGORY_HIGHLIGHT_COLORS
            (HighlightingHelper.category s) (lit "#95a5a6"))
         (HighlightingHelper.category s ++ lit ": "
          ++ HighlightingHelper.sk_skill_name s ++ lit " (confidence: "
          ++ format_2f (HighlightingHelper.sk_confidence s) ++ lit ")") text)
| skill_multiple (id : Z) (text : str) (s1 s2 : HighlightingHelper.SkillInfo)
    (ss : list HighlightingHelper.SkillInfo) :
    tag_skills !! id = Some (s1 :: s2 :: ss) ->
    skill_fragment format_2f tag_skills (id, text)
      (HighlightingHelper.span (lit "skill-multiple") (lit "#9e9e9e")
         (lit "Multiple skills - "
          ++ join (lit "; ")
               (map (fun s => HighlightingHelper.category s ++ lit ": "
                              ++ HighlightingHelper.sk_skill_name s)
                    (s1 :: s2 :: ss))) text).




(** ** Notions for the tagged text *)

(** No [<] in [s]. *)
Definition angle_free (s : str) : bool :=
  forallb (fun c => negb (char_eqb c "<"%char)) s.

(** [enumerate(l, start=i)] *)
Fixpoint enumerate {A : Type} (i : Z) (l : list A) : list (Z * A) :=
  match l with
  | [] => []
  | x :: l' => (i, x) :: enumerate (i + 1) l'
  end.

(** The sentences wrapped in their markers, numbered from [i]. *)
Definition tag_list (i : Z) (sentences : list str) : list str :=
  map (fun p => TextProcessor.wrap_sentence (lit "tag") (fst p) (snd p))
      (enumerate i sentences).

(** A numbered sentence that the scan of the markers recovers: it has no line
    feed and does not hold its own closing marker. *)
Definition mappable (p : Z * str) : bool :=
  (forallb is_dot (snd p)
   && negb (contains (snd p) (TextProcessor.close_marker (fst p))))%bool.

(** A text that is empty or begins with [<]. *)
Definition at_angle (y : str) : Prop :=
  y = [] \/ exists y', y = "<"%char :: y'.

(** No [>] in [s]. *)
Definition gt_free (s : str) : bool :=
  forallb (fun c => negb (char_eqb c ">"%char)) s.

(** The text that tagging writes for sentences numbered from [i]. *)
Definition tagged_from (i : Z) (sentences : list str) : str :=
  join (lit " ") (tag_list i sentences).

(** What follows a wrapped sentence: nothing, or a space and the next ones. *)
Definition tagged_tail (i : Z) (rest : list str) : str :=
  match rest with
  | [] => []
  | _ :: _ => lit " " ++ tagged_from i rest
  end.

(** The texts of the examples. *)
Definition two_lines : str := lit "Hello" ++ [newline] ++ lit "world. Foo.".

Definition first_of_two_lines : str := lit "Hello" ++ [newline] ++ lit "world.".

(** The flag of the rendering example and the document of the grouping
    example. *)
Definition medium_flag : HighlightingHelper.FlagInfo :=
  {| HighlightingHelper.severity := lit "Medium";
     HighlightingHelper.css_class := lit "flag-medium";
     HighlightingHelper.color := lit "#ffa726";
     HighlightingHelper.info_issue_type := lit "Test";
     HighlightingHelper.info_text_evidence := lit "Test sentence.";
     HighlightingHelper.info_rationale := lit "Test";
     HighlightingHelper.info_confidence := (8 # 10)%Q |}.


Definition ten_doc : str :=
  tagged_from 1
    [ lit "S1."; lit "S2."; lit "S3."; lit "S4."; lit "S5.";
      lit "S6."; lit "S7."; lit "S8."; lit "S9."; lit "S10." ].

Definition sparse_flag : ContentFlagger.RawFlag :=
  one_flag "Violence" "Medium"
    (PyList [PyInt 1; PyInt 2; PyInt 3; PyInt 5; PyInt 6; PyInt 10; PyInt 42]).

(** * Notions for the further properties *)

(** The integers [a], [a + 1], ..., [a + n - 1]. *)
Definition interval (a : Z) (n : nat) : list Z :=
  map (fun k => a + Z.of_nat k) (seq 0 n).

(** Each run stands in relation [R] to the next one: [R] of the last id of
    the one and the first id of the other. *)
Inductive adjacent_runs (R : Z -> Z -> Prop) : list (list Z) -> Prop :=
| adjacent_nil : adjacent_runs R []
| adjacent_one (r : list Z) : adjacent_runs R [r]
| adjacent_cons (r1 r2 : list Z) (rs : list (list Z)) :
    R (List.last r1 0) (List.hd 0 r2) ->
    adjacent_runs R (r2 :: rs) -> adjacent_runs R (r1 :: r2 :: rs).

(** A string that begins, and one that ends, with something else than white
    space. *)
Definition starts_clean (s : str) : bool :=
  match s with
  | [] => false
  | c :: _ => negb (is_space c)
  end.

Definition ends_clean (s : str) : bool := starts_clean (rev s).

(** A sentence without a line feed and without the beginning of a marker. *)
Definition plain_sentence (s : str) : bool :=
  (forallb is_dot s && negb (contains s (lit "<tag"))
   && negb (contains s (lit "</tag")))%bool.

(** [a] and [b] joined by a space, when neither is empty. *)
Definition glue (a b : str) : str :=
  match a, b with
  | [], _ => b
  | _, [] => a
  | _, _ => a ++ lit " " ++ b
  end.

(** The values that stand in the [tag_numbers] of a raw flag. *)
Definition raw_ids (flag : ContentFlagger.RawFlag) : list PyVal :=
  match default (PyList []) (ContentFlagger.raw_tag_numbers flag) with
  | PyInt n => [PyInt n]
  | PyBool b => [PyBool b]
  | PyList l => l
  | _ => []
  end.

(** An entry that carries the fields of [flag], with the defaults of the
    code for the missing ones, ids of [flag] only, and as evidence the
    sentences of its ids, which is not empty. *)
Definition entry_of_flag (search_value : PyVal -> str -> outcome (option str))
    (tagged_content : str) (flag : ContentFlagger.RawFlag)
    (e : ContentFlagger.GroupedFlag) : Prop :=
  ContentFlagger.issue_type e
  = default (lit "Unknown") (ContentFlagger.raw_issue_type flag)
  /\ ContentFlagger.severity_level e
     = default (lit "Low") (ContentFlagger.raw_severity_level flag)
  /\ ContentFlagger.confidence e
     = default (1 # 2)%Q (ContentFlagger.raw_confidence flag)
  /\ ContentFlagger.rationale e
     = default [] (ContentFlagger.raw_rationale flag)
  /\ (forall id, In id (ContentFlagger.tag_numbers e) -> In id (raw_ids flag))
  /\ Untyped.extract_sentences_for_tags search_value tagged_content
       (ContentFlagger.tag_numbers e)
     = Ok (ContentFlagger.text_evidence e)
  /\ ContentFlagger.text_evidence e <> [].

(** A fragment that holds the text of its sentence as it is, alone or as
    the content of a [span]. *)
Definition holds_text (p : Z * str) (fragment : str) : Prop :=
  fragment = snd p \/ exists pre, fragment = pre ++ snd p ++ lit "</span>".

(** No [-] in [s]. *)
Definition dash_free (s : str) : bool :=
  forallb (fun c => negb (char_eqb c "-"%char)) s.

(** The four severities of the rubric. *)
Definition known_severity (s : str) : Prop :=
  s = lit "Critical" \/ s = lit "High" \/ s = lit "Medium" \/ s = lit "Low".

(** * [SkillTagger] *)

(** ** Floats

    A float of the language is finite, infinite or not a number; the finite
    ones are embedded as rationals. *)
Inductive Float : Type :=
| Finite (q : Q)
| Infinite (negative : bool)
| NaN.

(** [a < b]: false as soon as one side is not a number. *)
Definition float_lt (a b : Float) : bool :=
  match a, b with
  | NaN, _ | _, NaN => false
  | Finite x, Finite y => negb (Qle_bool y x)
  | Finite _, Infinite negative => negb negative
  | Infinite negative, Finite _ => negative
  | Infinite n1, Infinite n2 => (n1 && negb n2)%bool
  end.

(** [min(a, b)] and [max(a, b)]: the first argument, unless the second is
    smaller, or larger, than it. *)
Definition py_min (a b : Float) : Float := if float_lt b a then b else a.
Definition py_max (a b : Float) : Float := if float_lt a b then b else a.

(** The rational of a finite float. *)
Definition finite_value (x : Float) : Q :=
  match x with
  | Finite q => q
  | _ => 0%Q
  end.

Module SkillTagger.

(** A skill tag of the response of the classifier, as [json.loads] gives it:
    the id and the confidence are values of any kind. *)
Inductive Confidence : Type :=
| IsFloat (x : Float)
| NotFloat (v : PyVal).

Record ResponseTag : Type := {
  resp_skill_id : option PyVal;
  resp_skill_name : option str;
  resp_confidence : option Confidence;
  resp_rationale : option str;
  resp_tag_numbers : option PyVal
}.

(** A skill tag as [_identify_skills] returns it, each field present or
    missing: the id is a string of the taxonomy and the confidence a
    float. *)
Record RawSkillTag : Type := {
  raw_skill_id : option str;
  raw_skill_name : option str;
  raw_confidence : option Q;
  raw_rationale : option str;
  raw_tag_numbers : option PyVal
}.

(** A tag as [_group_consecutive_tags] emits it. *)
Record GroupedTag : Type := {
  sentence_evidence : str;
  skill_id : str;
  skill_name : str;
  rationale : str;
  confidence : Q;
  tag_numbers : list PyVal
}.

(** The sort key [t.get("tag_numbers", [float('inf')])[0]]. *)
Definition first_tag (t : GroupedTag) : outcome PyVal :=
  match tag_numbers t with
  | v :: _ => Ok v
  | [] => Raise IndexError
  end.

Fixpoint decorate (l : list GroupedTag) : outcome (list (PyVal * GroupedTag)) :=
  match l with
  | [] => Ok []
  | t :: l' =>
      let* k := first_tag t in
      let* r := decorate l' in
      Ok ((k, t) :: r)
  end.

Definition key_lt (a b : PyVal * GroupedTag) : outcome bool :=
  py_lt (fst a) (fst b).

Definition sort_by_first_tag (l : list GroupedTag) : outcome (list GroupedTag) :=
  let* keyed := decorate l in
  let* sorted_keyed := py_sort key_lt keyed in
  Ok (map snd sorted_keyed).

(** A grouped tag as [generate_skill_html_simple] reads it.  The renderer
    files the tag under each of its ids with the loop of
    [file_under_values] and reads nothing else of the ids: it raises
    [TypeError] at an id that is a list, and files under their numbers the
    ids that are [int]s or [bool]s.  Its embedding takes the ids as [int]s;
    [tag_story] hands it the numbers among the ids. *)
Definition highlight_input (t : GroupedTag) : outcome HighlightingHelper.SkillTag :=
  if forallb hashable (tag_numbers t) then
    Ok {| HighlightingHelper.skill_id := Some (skill_id t);
          HighlightingHelper.skill_name := Some (skill_name t);
          HighlightingHelper.skill_confidence := Some (confidence t);
          HighlightingHelper.skill_tag_numbers :=
            Some (sentence_ids (tag_numbers t)) |}
  else Raise TypeError.

Fixpoint highlight_inputs (tags : list GroupedTag)
    : outcome (list HighlightingHelper.SkillTag) :=
  match tags with
  | [] => Ok []
  | t :: rest =>
      let* skill_tag := highlight_input t in
      let* skill_tags := highlight_inputs rest in
      Ok (skill_tag :: skill_tags)
  end.

(** A tag of the result: a grouped tag without its ids. *)
Record FinalTag : Type := {
  final_sentence_evidence : str;
  final_skill_id : str;
  final_skill_name : str;
  final_rationale : str;
  final_confidence : Q
}.

Definition final_tag (t : GroupedTag) : FinalTag :=
  {| final_sentence_evidence := sentence_evidence t;
     final_skill_id := skill_id t;
     final_skill_name := skill_name t;
     final_rationale := rationale t;
     final_confidence := confidence t |}.

Record TagResult : Type := {
  tags : list FinalTag;
  highlighted_text : str
}.

Section Engine.

(** [re.search] for the pattern of an id that is not an [int]; see
    [Untyped.extract_sentence_by_tag]. *)
Variable search_value : PyVal -> str -> outcome (option str).

(** The loop [for group in groups] for one skill tag. *)
Fixpoint groups_loop (skill_tag : RawSkillTag) (tagged_content : str)
    (groups : list (list PyVal)) (tags : list GroupedTag)
    : outcome (list GroupedTag) :=
  match groups with
  | [] => Ok tags
  | group :: rest =>
      let* paragraph :=
        Untyped.extract_sentences_for_tags search_value tagged_content group in
      if negb (is_empty paragraph) then
        groups_loop skill_tag tagged_content rest
          (tags ++
           [ {| sentence_evidence := paragraph;
                skill_id := default [] (raw_skill_id skill_tag);
                skill_name := default [] (raw_skill_name skill_tag);
                rationale := default [] (raw_rationale skill_tag);
                confidence := default 0%Q (raw_confidence skill_tag);
                tag_numbers := group |} ])
      else groups_loop skill_tag tagged_content rest tags
  end.

(** The loop [for skill_tag in skill_tags_raw]. *)
Fixpoint tags_loop (skill_tags_raw : list RawSkillTag) (tagged_content : str)
    (tags : list GroupedTag) : outcome (list GroupedTag) :=
  match skill_tags_raw with
  | [] => Ok tags
  | skill_tag :: rest =>
      let* tag_numbers :=
        normalize_tag_numbers (default (PyList []) (raw_tag_numbers skill_tag)) in
      if is_empty tag_numbers then tags_loop rest tagged_content tags
      else
        let* groups := Untyped.group_consecutive_numbers tag_numbers in
        let* tags := groups_loop skill_tag tagged_content groups tags in
        tags_loop rest tagged_content tags
  end.

Definition _group_consecutive_tags (skill_tags_raw : list RawSkillTag)
    (tagged_content : str) : outcome (list GroupedTag) :=
  tags_loop skill_tags_raw tagged_content [].

(** [tag_story], given the tagged content of the story and the skill tags
    that [_identify_skills] returned. *)
Definition tag_story (format_2f : Q -> str) (sent_tokenize : str -> list str)
    (tagged_content : str) (skill_tags_raw : list RawSkillTag)
    : outcome TagResult :=
  let sentence_mapping :=
    TextProcessor.get_sentence_mapping sent_tokenize tagged_content in
  let* tags := _group_consecutive_tags skill_tags_raw tagged_content in
  let* tags := sort_by_first_tag tags in
  let* skill_tags := highlight_inputs tags in
  let* highlighted_text :=
    HighlightingHelper.generate_skill_html_simple format_2f sentence_mapping
      skill_tags in
  Ok {| tags := map final_tag tags; highlighted_text := highlighted_text |}.

End Engine.

Section Validation.

(** [float(n)] for an [int]: the nearest float, and [None] when [n] is too
    large for a float ([OverflowError]). *)
Variable float_of_int : Z -> option Float.

(** [float(s)] for a string: the float that [s] writes, and [None] when it
    writes none ([ValueError]). *)
Variable float_of_str : str -> option Float.

(** [float(confidence)]; [None] when the call raises. *)
Definition py_float (confidence : Confidence) : option Float :=
  match confidence with
  | IsFloat x => Some x
  | NotFloat (PyInt n) => float_of_int n
  | NotFloat (PyBool b) => Some (Finite (if b then 1 else 0)%Q)
  | NotFloat (PyStr s) => float_of_str s
  | NotFloat PyNone | NotFloat (PyList _) => None
  end.

(** The loop of [_identify_skills] over the skill tags of the response: it
    keeps the tags whose id is in the taxonomy, their confidence brought
    into [0.0, 1.0].  The answer is [None] when the loop raises: at
    [skill_id in valid_skill_ids] for an id that is a list, which cannot be
    hashed, or at [float(confidence)]. *)
Fixpoint validate_loop (valid_skill_ids : list str) (skill_tags : list ResponseTag)
    (validated_tags : list RawSkillTag) : option (list RawSkillTag) :=
  match skill_tags with
  | [] => Some validated_tags
  | tag :: rest =>
      match resp_skill_id tag with
      | Some (PyList _) => None
      | Some (PyStr skill_id) =>
          if existsb (str_eqb skill_id) valid_skill_ids then
            let confidence :=
              default (IsFloat (Finite 0)) (resp_confidence tag) in
            match py_float confidence with
            | None => None
            | Some x =>
                validate_loop valid_skill_ids rest
                  (validated_tags ++
                   [ {| raw_skill_id := Some skill_id;
                        raw_skill_name := resp_skill_name tag;
                        raw_confidence :=
                          Some (finite_value
                                  (py_max (Finite 0) (py_min (Finite 1) x)));
                        raw_rationale := resp_rationale tag;
                        raw_tag_numbers := resp_tag_numbers tag |} ])
            end
          else validate_loop valid_skill_ids rest validated_tags
      | _ => validate_loop valid_skill_ids rest validated_tags
      end
  end.

(** The validation inside its [try]: [except Exception] returns no tag. *)
Definition validated_tags (valid_skill_ids : list str)
    (skill_tags : list ResponseTag) : list RawSkillTag :=
  default [] (validate_loop valid_skill_ids skill_tags []).

End Validation.

End SkillTagger.

(** ** Notions for the skill tagger *)

Definition outcome_map {A B : Type} (f : A -> B) (o : outcome A) : outcome B :=
  match o with
  | Ok a => Ok (f a)
  | Raise e => Raise e
  end.

(** A skill tag read as a flag, and a grouped flag read as a grouped tag:
    the skill id for the issue type and the skill name for the severity. *)
Definition flag_of_tag (t : SkillTagger.RawSkillTag) : ContentFlagger.RawFlag :=
  {| ContentFlagger.raw_issue_type := Some (default [] (SkillTagger.raw_skill_id t));
     ContentFlagger.raw_severity_level := Some (default [] (SkillTagger.raw_skill_name t));
     ContentFlagger.raw_confidence := Some (default 0%Q (SkillTagger.raw_confidence t));
     ContentFlagger.raw_rationale := Some (default [] (SkillTagger.raw_rationale t));
     ContentFlagger.raw_tag_numbers := SkillTagger.raw_tag_numbers t |}.

Definition tag_of_grouped (g : ContentFlagger.GroupedFlag) : SkillTagger.GroupedTag :=
  {| SkillTagger.sentence_evidence := ContentFlagger.text_evidence g;
     SkillTagger.skill_id := ContentFlagger.issue_type g;
     SkillTagger.skill_name := ContentFlagger.severity_level g;
     SkillTagger.rationale := ContentFlagger.rationale g;
     SkillTagger.confidence := ContentFlagger.confidence g;
     SkillTagger.tag_numbers := ContentFlagger.tag_numbers g |}.

Definition first_tag_id (t : SkillTagger.GroupedTag) : Z :=
  int_key (List.hd PyNone (SkillTagger.tag_numbers t)).

Definition typed_skill_tag (t : SkillTagger.RawSkillTag) : Prop :=
  match SkillTagger.raw_tag_numbers t with
  | Some v => typed_span v
  | None => True
  end.

(** ** Notions for the validation of skill tags *)

(** Is the id of a tag of the response a string of the taxonomy? *)
Definition in_taxonomy (valid_skill_ids : list str) (t : SkillTagger.ResponseTag)
    : bool :=
  match SkillTagger.resp_skill_id t with
  | Some (PyStr skill_id) => existsb (str_eqb skill_id) valid_skill_ids
  | _ => false
  end.

(** A tag on which the loop raises: its id is a list, or it is in the
    taxonomy and its confidence has no float. *)
Definition raising_tag (float_of_int : Z -> option Float)
    (float_of_str : str -> option Float) (valid_skill_ids : list str)
    (t : SkillTagger.ResponseTag) : bool :=
  match SkillTagger.resp_skill_id t with
  | Some (PyList _) => true
  | _ =>
      (in_taxonomy valid_skill_ids t
       && match SkillTagger.py_float float_of_int float_of_str
                  (default (SkillTagger.IsFloat (Finite 0))
                     (SkillTagger.resp_confidence t)) with
          | Some _ => false
          | None => true
          end)%bool
  end.

(** The fields of a skill tag other than its confidence. *)
Definition other_fields (t : SkillTagger.RawSkillTag)
    : option str * option str * option str * option PyVal :=
  (SkillTagger.raw_skill_id t, SkillTagger.raw_skill_name t,
   SkillTagger.raw_rationale t, SkillTagger.raw_tag_numbers t).

Definition response_fields (t : SkillTagger.ResponseTag)
    : option PyVal * option str * option str * option PyVal :=
  (SkillTagger.resp_skill_id t, SkillTagger.resp_skill_name t,
   SkillTagger.resp_rationale t, SkillTagger.resp_tag_numbers t).

(** The confidence [q] that the validation stores for a tag whose
    confidence is the float [x]: [x] itself inside [0.0, 1.0], the nearer
    bound outside, and 1.0 when [x] is not a number. *)
Definition clamped (x : Float) (q : Q) : Prop :=
  match x with
  | Finite c =>
      ((0 <= c <= 1)%Q -> (q == c)%Q)
      /\ ((c < 0)%Q -> q = 0%Q)
      /\ ((1 < c)%Q -> q = 1%Q)
  | Infinite negative => q = if negative then 0%Q else 1%Q
  | NaN => q = 1%Q
  end.

(** What the loop does with one tag of the response. *)
Definition validate_one (float_of_int : Z -> option Float)
    (float_of_str : str -> option Float) (valid_skill_ids : list str)
    (t : SkillTagger.ResponseTag) : option (list SkillTagger.RawSkillTag) :=
  SkillTagger.validate_loop float_of_int float_of_str valid_skill_ids [t] [].

(** Stand-ins for [float] in the examples: an [int] below 2^1024 in size has
    the float of its value, and no string writes a float. *)
Definition small_int_float (n : Z) : option Float :=
  if Z.abs n <? 2 ^ 1024 then Some (Finite (inject_Z n)) else None.

Definition no_str_float (s : str) : option Float := None.

(** A validated tag as a tag of a response. *)
Definition as_response (t : SkillTagger.RawSkillTag) : SkillTagger.ResponseTag :=
  {| SkillTagger.resp_skill_id := option_map PyStr (SkillTagger.raw_skill_id t);
     SkillTagger.resp_skill_name := SkillTagger.raw_skill_name t;
     SkillTagger.resp_confidence :=
       option_map (fun q => SkillTagger.IsFloat (Finite q))
         (SkillTagger.raw_confidence t);
     SkillTagger.resp_rationale := SkillTagger.raw_rationale t;
     SkillTagger.resp_tag_numbers := SkillTagger.raw_tag_numbers t |}.

(** * Dictionaries with string keys *)

(** A dictionary of the language keeps its keys in the order of their first
    insertion. *)
Module PyDict.

Section Dict.

Context {V : Type}.

Definition dict : Type := list (str * V).

(** [d[key] = v] *)
Fixpoint dict_set (key : str) (v : V) (d : dict) : dict :=
  match d with
  | [] => [(key, v)]
  | (k, v') :: rest =>
      if str_eqb k key then (key, v) :: rest
      else (k, v') :: dict_set key v rest
  end.

(** [d[key]]; [None] stands for the [KeyError], or for the default of
    [d.get(key, default)]. *)
Definition dict_lookup (key : str) (d : dict) : option V :=
  option_map snd (List.find (fun kv => str_eqb (fst kv) key) d).

(** [d.update(other)] *)
Definition dict_update (d other : dict) : dict :=
  fold_left (fun r kv => dict_set (fst kv) (snd kv) r) other d.

Definition keys (d : dict) : list str := map fst d.

End Dict.

Arguments dict V : clear implicits.

End PyDict.

(** * [flag_all_stories] and [tag_all_stories] *)

(** Both run one future for each story id, store what each future gives
    under its story id as the futures complete, and read the results back
    in the order of the story ids. *)
Module AllStories.

Section Results.

(** [R]: a result; [X]: what a future returns; [report story_id o]: what
    the loop stores for a future that returned or raised [o]. *)
Context {R X : Type} (report : str -> outcome X -> R).

(** The loop [for future in as_completed(future_to_story)]: the futures
    with their story ids, in the order in which they complete. *)
Fixpoint completion_loop (completed : list (str * outcome X))
    (results : PyDict.dict R) : PyDict.dict R :=
  match completed with
  | [] => results
  | (story_id, future) :: rest =>
      completion_loop rest (PyDict.dict_set story_id (report story_id future) results)
  end.

(** [[results[story_id] for story_id in story_ids]] *)
Fixpoint read_back (story_ids : list str) (results : PyDict.dict R)
    : option (list R) :=
  match story_ids with
  | [] => Some []
  | story_id :: rest =>
      match PyDict.dict_lookup story_id results with
      | None => None
      | Some r =>
          match read_back rest results with
          | None => None
          | Some l => Some (r :: l)
          end
      end
  end.

Definition all_stories (story_ids : list str) (completed : list (str * outcome X))
    : option (list R) :=
  read_back story_ids (completion_loop completed []).

End Results.

(** What [flag_all_stories] stores for a story: the result of
    [flag_story], or the record of the error. *)
Inductive FlagReport : Type :=
| Flagged (story_id : str) (result : ContentFlagger.StoryResult)
| FlagError (story_id error : str) (flag_count : nat) (has_critical : bool).

(** What [tag_all_stories] stores for a story. *)
Inductive TagReport : Type :=
| Tagged (story_id : str) (result : SkillTagger.TagResult)
| TagError (story_id error : str) (skill_tags : list SkillTagger.FinalTag).

Section Describe.

(** [str(e)] *)
Variable str_of_exn : exn -> str.

Definition flag_report (story_id : str)
    (future : outcome ContentFlagger.StoryResult) : FlagReport :=
  match future with
  | Ok result => Flagged story_id result
  | Raise e => FlagError story_id (str_of_exn e) 0 false
  end.

Definition tag_report (story_id : str)
    (future : outcome SkillTagger.TagResult) : TagReport :=
  match future with
  | Ok result => Tagged story_id result
  | Raise e => TagError story_id (str_of_exn e) []
  end.

Definition flag_all_stories (story_ids : list str)
    (completed : list (str * outcome ContentFlagger.StoryResult))
    : option (list FlagReport) :=
  all_stories flag_report story_ids completed.

Definition tag_all_stories (story_ids : list str)
    (completed : list (str * outcome SkillTagger.TagResult))
    : option (list TagReport) :=
  all_stories tag_report story_ids completed.

End Describe.

End AllStories.

(** * [HTMLReportGenerator] *)

Module HTMLReportGenerator.

Definition CATEGORY_MAP : list (str * str) :=
  [ (lit "DEC", lit "Decoding");
    (lit "COMP", lit "Comprehension");
    (lit "VOCAB", lit "Vocabulary");
    (lit "KNOW", lit "Knowledge");
    (lit "FLUENCY", lit "Fluency") ].

Definition _extract_category_from_skill_id (skill_id : str) : str :=
  match HighlightingHelper.split_on "-"%char skill_id with
  | _ :: cat_code :: _ =>
      HighlightingHelper.dict_get CATEGORY_MAP cat_code (lit "Unknown")
  | _ => lit "Unknown"
  end.

(** [Counter(categories)]: each element counted under its own key, the keys
    in the order of their first occurrence. *)
Definition Counter (elements : list str) : PyDict.dict nat :=
  fold_left
    (fun counts elem =>
       PyDict.dict_set elem (S (default 0%nat (PyDict.dict_lookup elem counts))) counts)
    elements [].

(** [{cat: 0 for cat in self.CATEGORY_MAP.values()}] *)
Definition zero_counts : PyDict.dict nat :=
  fold_left (fun result cat => PyDict.dict_set cat 0%nat result)
    (map snd CATEGORY_MAP) [].

(** [_calculate_category_counts]; a tag is given by its entry ['skill_id'],
    [None] when it has none. *)
Definition _calculate_category_counts (tags : list (option str))
    : PyDict.dict nat :=
  let categories :=
    map (fun tag => _extract_category_from_skill_id (default [] tag)) tags in
  let counts := Counter categories in
  let result := zero_counts in
  PyDict.dict_update result counts.

End HTMLReportGenerator.

(** ** Notions for the category counts *)

(** The number of occurrences of [k] in [l]. *)
Definition occurrences (k : str) (l : list str) : nat :=
  length (List.filter (str_eqb k) l).

(** The categories of the tags of a story, as the report computes them. *)
Definition report_categories (tags : list (option str)) : list str :=
  map (fun tag => HTMLReportGenerator._extract_category_from_skill_id (default [] tag))
    tags.
(** * Proofs *)

(** ** The tests of the repository, run on the embedding *)

Module Tests.

Example test_basic_tagging :
  TextProcessor.tag_sentences period_tokenize (lit "Hello world. How are you?")
  = lit "<tag1>Hello world.</tag1> <tag2>How are you?</tag2>".
Proof. vm_compute. reflexivity. Qed.

Example test_basic_sentence_split :
  TextProcessor.split_into_sentences period_tokenize
    (lit "Hello world. How are you? I am fine.")
  = [lit "Hello world."; lit "How are you?"; lit "I am fine."].
Proof. vm_compute. reflexivity. Qed.

Example test_extract_by_tag :
  let tagged :=
    TextProcessor.tag_sentences period_tokenize
      (lit "First sentence. Second sentence. Third sentence.") in
  TextProcessor.extract_sentence_by_tag tagged 1 = lit "First sentence."
  /\ TextProcessor.extract_sentence_by_tag tagged 2 = lit "Second sentence."
  /\ TextProcessor.extract_sentence_by_tag tagged 3 = lit "Third sentence.".
Proof. repeat split; vm_compute; reflexivity. Qed.

Example test_extract_sentences_for_tags :
  let tagged :=
    TextProcessor.tag_sentences period_tokenize (lit "First. Second. Third.") in
  TextProcessor.extract_sentences_for_tags tagged [1; 3] = lit "First. Third."
  /\ TextProcessor.extract_sentences_for_tags tagged [1; 2; 3]
     = lit "First. Second. Third.".
Proof. split; vm_compute; reflexivity. Qed.

Example test_group_consecutive_flags :
  exists grouped,
    ContentFlagger._group_consecutive_flags no_match
      [one_flag "Violence" "Medium"
         (PyList [PyInt 1; PyInt 2; PyInt 3; PyInt 5; PyInt 6; PyInt 10])]
      ten_doc = Ok grouped
    /\ map ContentFlagger.tag_numbers grouped
       = [[PyInt 1; PyInt 2; PyInt 3]; [PyInt 5; PyInt 6]; [PyInt 10]]
    /\ map ContentFlagger.text_evidence grouped
       = [lit "S1. S2. S3."; lit "S5. S6."; lit "S10."].
Proof. eexists. split; [vm_compute; reflexivity | split; reflexivity]. Qed.

Example test_flags_sorted_by_appearance :
  exists result,
    ContentFlagger.flag_story no_match period_tokenize three_doc
      ([Ok []] ++ three_categories ++ [Ok []; Raise TypeError]) = Ok result
    /\ map HighlightingHelper.info_issue_type (ContentFlagger.flags result)
       = [lit "Safety"; lit "Age"; lit "Violence"]
    /\ ContentFlagger.flag_count result = 3%nat
    /\ ContentFlagger.has_critical result = true.
Proof. eexists. split; [vm_compute; reflexivity | repeat split]. Qed.

Example test_generate_flag_html_multiple_flags :
  exists html,
    HighlightingHelper.generate_flag_html_simple [(1, lit "Test.")]
      {[ 1 := [medium_flag; medium_flag] ]} = Ok html
    /\ contains html (lit "#9e9e9e") = true
    /\ contains html (lit "flag-multiple") = true
    /\ contains html (lit "Medium: Test; Medium: Test") = true.
Proof. eexists. split; [vm_compute; reflexivity | repeat split]. Qed.

Example test_extract_category :
  map HighlightingHelper.extract_category_from_skill_id
    [lit "SKILL-DEC-001"; lit "SKILL-COMP-005"; lit "SKILL-VOCAB-003";
     lit "SKILL-KNOW-002"; lit "SKILL-FLUENCY-001"; lit "INVALID"; lit ""]
  = [lit "Decoding"; lit "Comprehension"; lit "Vocabulary"; lit "Knowledge";
     lit "Fluency"; lit "Unknown"; lit "Unknown"].
Proof. vm_compute. reflexivity. Qed.

Example test_generate_skill_html :
  exists html,
    HighlightingHelper.generate_skill_html_simple (fun _ => lit "0.90")
      [(1, lit "Test.")]
      [ {| HighlightingHelper.skill_id := Some (lit "SKILL-COMP-001");
           HighlightingHelper.skill_name := Some (lit "Main Idea");
           HighlightingHelper.skill_confidence := Some (9 # 10)%Q;
           HighlightingHelper.skill_tag_numbers := Some [1] |} ] = Ok html
    /\ contains html (lit "#27ae60") = true
    /\ contains html (lit "skill-comprehension") = true
    /\ contains html (lit "Comprehension: Main Idea (confidence: 0.90)") = true.
Proof. eexists. split; [vm_compute; reflexivity | repeat split]. Qed.

End Tests.

(** ** Runs of consecutive integers *)

Lemma group_loop_absorb rest : forall groups current_group,
  TextProcessor.group_loop rest groups current_group
  = groups ++ absorb current_group rest.
Proof.
  induction rest as [|n rest IH]; intros groups cur; simpl.
  - reflexivity.
  - destruct (n =? List.last cur 0 + 1).
    + apply IH.
    + rewrite IH, <- app_assoc. reflexivity.
Qed.

Lemma absorb_concat rest : forall cur, concat (absorb cur rest) = cur ++ rest.
Proof.
  induction rest as [|n rest IH]; intros cur; simpl.
  - rewrite app_nil_r. reflexivity.
  - destruct (n =? List.last cur 0 + 1); simpl; rewrite IH.
    + rewrite <- app_assoc. reflexivity.
    + reflexivity.
Qed.

Lemma absorb_nonempty rest : forall cur,
  cur <> [] -> Forall (fun g => g <> []) (absorb cur rest).
Proof.
  induction rest as [|n rest IH]; intros cur Hcur; simpl.
  - constructor; [exact Hcur | constructor].
  - destruct (n =? List.last cur 0 + 1).
    + apply IH. destruct cur; discriminate.
    + constructor; [exact Hcur | apply IH; discriminate].
Qed.

Lemma hd_app_nonempty (cur ext : list Z) :
  cur <> [] -> List.hd 0 (cur ++ ext) = List.hd 0 cur.
Proof. destruct cur; [congruence | reflexivity]. Qed.

Lemma consecutive_snoc (cur : list Z) (n : Z) :
  consecutive cur -> n = List.last cur 0 + 1 -> consecutive (cur ++ [n]).
Proof.
  induction 1 as [a | a run Hrun IH Hhd]; intros Hn.
  - simpl in *. constructor; [constructor | simpl; lia].
  - assert (Hne : run <> []) by (inversion Hrun; discriminate).
    change ((a :: run) ++ [n]) with (a :: (run ++ [n])).
    constructor.
    + apply IH. destruct run; [congruence | exact Hn].
    + rewrite hd_app_nonempty; assumption.
Qed.

Lemma consecutive_nonempty (run : list Z) : consecutive run -> run <> [].
Proof. inversion 1; discriminate. Qed.

Lemma absorb_consecutive rest : forall cur,
  consecutive cur -> Forall consecutive (absorb cur rest).
Proof.
  induction rest as [|n rest IH]; intros cur Hcur; simpl.
  - constructor; [exact Hcur | constructor].
  - destruct (Z.eqb_spec n (List.last cur 0 + 1)) as [Heq | Hne].
    + apply IH. apply consecutive_snoc; assumption.
    + constructor; [exact Hcur | apply IH; constructor].
Qed.

(** The first group that [absorb] returns extends [cur]. *)
Lemma absorb_head rest : forall cur,
  exists ext more, absorb cur rest = (cur ++ ext) :: more.
Proof.
  induction rest as [|n rest IH]; intros cur; simpl.
  - exists [], []. rewrite app_nil_r. reflexivity.
  - destruct (n =? List.last cur 0 + 1).
    + destruct (IH (cur ++ [n])) as (ext & more & ->).
      exists (n :: ext), more. rewrite <- app_assoc. reflexivity.
    + exists [], (absorb [n] rest). rewrite app_nil_r. reflexivity.
Qed.

Lemma absorb_maximal rest : forall cur, maximal (absorb cur rest).
Proof.
  induction rest as [|n rest IH]; intros cur; simpl.
  - constructor.
  - destruct (Z.eqb_spec n (List.last cur 0 + 1)) as [Heq | Hne].
    + apply IH.
    + destruct (absorb_head rest [n]) as (ext & more & Habs).
      specialize (IH [n]). rewrite Habs in *.
      constructor; [exact Hne | exact IH].
Qed.

(** C10: for every list of integers, sorted or not and with or without
    repeated values, the groups of [group_consecutive_numbers], concatenated
    in order, are the input list itself (no id is dropped, repeated or moved),
    and no group is empty. *)
Theorem group_concat_nonempty (numbers : list Z) :
  concat (TextProcessor.group_consecutive_numbers numbers) = numbers
  /\ Forall (fun g => g <> []) (TextProcessor.group_consecutive_numbers numbers).
Proof.
  destruct numbers as [|n0 rest]; simpl.
  - split; [reflexivity | constructor].
  - rewrite group_loop_absorb. simpl. split.
    + apply absorb_concat.
    + apply absorb_nonempty. discriminate.
Qed.

(** C3: grouping cuts the list, from left to right, into maximal runs of
    consecutive integers: the groups concatenate to the input, inside a group
    every id is the previous one plus one, and the first id of a group is never
    the last id of the group before it plus one (so a run is extended exactly
    while the next id is the previous plus one); the empty list gives the empty
    list, and the four instances of the grouping law hold.  Sortedness of the
    input is not needed for any of this. *)
Theorem group_maximal_runs :
  (forall numbers : list Z,
      concat (TextProcessor.group_consecutive_numbers numbers) = numbers
      /\ Forall consecutive (TextProcessor.group_consecutive_numbers numbers)
      /\ maximal (TextProcessor.group_consecutive_numbers numbers))
  /\ TextProcessor.group_consecutive_numbers [] = []
  /\ TextProcessor.group_consecutive_numbers [1;2;3;5;6;10] = [[1;2;3];[5;6];[10]]
  /\ TextProcessor.group_consecutive_numbers [1;2;3;4;5] = [[1;2;3;4;5]]
  /\ TextProcessor.group_consecutive_numbers [1;3;5;7] = [[1];[3];[5];[7]].
Proof.
  split; [| repeat split; reflexivity].
  intros [|n0 rest]; simpl.
  - repeat split; constructor.
  - rewrite group_loop_absorb. simpl. repeat split.
    + apply absorb_concat.
    + apply absorb_consecutive. constructor.
    + apply absorb_maximal.
Qed.

(** ** Python's sort on values that compare by an integer key *)

Section SortFacts.

Context {A : Type} (lt : A -> A -> outcome bool) (key : A -> Z).

Local Abbreviation key_le := (key_le key).
Local Abbreviation has_key := (has_key key).
Local Abbreviation keyed_on := (keyed_on lt key).

Lemma keyed_on_perm (l l' : list A) :
  Permutation l l' -> keyed_on l -> keyed_on l'.
Proof.
  intros Hp Hk a b Ha Hb.
  apply Hk; eapply Permutation_in; try eassumption; apply Permutation_sym, Hp.
Qed.

Lemma keyed_on_tail (x : A) (l : list A) : keyed_on (x :: l) -> keyed_on l.
Proof. intros Hk a b Ha Hb. apply Hk; right; assumption. Qed.

Lemma sort_insert_keyed (x : A) (s : list A) :
  keyed_on (x :: s) ->
  exists r, sort_insert lt x s = Ok r
    /\ Permutation (x :: s) r
    /\ (StronglySorted key_le s -> StronglySorted key_le r)
    /\ (forall k, List.filter (has_key k) r = List.filter (has_key k) (x :: s)).
Proof.
  induction s as [|y s IH]; intros Hk.
  - exists [x]. simpl. repeat split; auto.
    intros _. constructor; constructor.
  - simpl. rewrite (Hk y x) by (simpl; auto). simpl.
    destruct (Z.ltb_spec (key y) (key x)) as [Hlt | Hge].
    + destruct IH as (r & Hr & Hperm & Hsorted & Hstable).
      { intros a b Ha Hb. apply Hk; simpl in *; tauto. }
      rewrite Hr. simpl. exists (y :: r). repeat split.
      * rewrite perm_swap. apply perm_skip, Hperm.
      * intros Hs. inversion Hs as [|? ? Hs' Hall]; subst.
        constructor; [apply Hsorted, Hs' |].
        eapply Permutation_Forall; [exact Hperm |].
        constructor; [unfold key_le; lia | exact Hall].
      * intros k. simpl. rewrite Hstable. simpl. unfold has_key.
        destruct (Z.eqb_spec (key y) k), (Z.eqb_spec (key x) k);
          try reflexivity; lia.
    + exists (x :: y :: s). repeat split; auto.
      intros Hs. constructor; [exact Hs |].
      inversion Hs as [|? ? Hs' Hall]; subst.
      constructor; [unfold key_le; lia |].
      eapply Forall_impl; [exact Hall |].
      unfold key_le. intros a Ha. lia.
Qed.

Lemma py_sort_keyed (l : list A) :
  keyed_on l ->
  exists s, py_sort lt l = Ok s
    /\ Permutation l s
    /\ StronglySorted key_le s
    /\ (forall k, List.filter (has_key k) s = List.filter (has_key k) l).
Proof.
  induction l as [|x l IH]; intros Hk.
  - exists []. simpl. repeat split; auto. constructor.
  - destruct (IH (keyed_on_tail _ _ Hk)) as (s & Hs & Hperm & Hsorted & Hstable).
    simpl. rewrite Hs. simpl.
    destruct (sort_insert_keyed x s) as (r & Hr & Hperm' & Hsorted' & Hstable').
    { eapply keyed_on_perm; [| exact Hk]. apply perm_skip, Hperm. }
    exists r. repeat split; auto.
    + rewrite <- Hperm'. apply perm_skip, Hperm.
    + intros k. rewrite Hstable'. simpl. rewrite Hstable. reflexivity.
Qed.

Lemma same_key_same_element (l : list A) (a b : A) :
  List.NoDup (map key l) -> In a l -> In b l -> key a = key b -> a = b.
Proof.
  induction l as [|x l IH]; intros Hnd Ha Hb Hab; [contradiction |].
  simpl in Hnd. inversion Hnd as [|? ? Hnotin Hnd']; subst.
  destruct Ha as [-> | Ha], Hb as [-> | Hb]; auto.
  - exfalso. apply Hnotin. rewrite Hab. apply in_map, Hb.
  - exfalso. apply Hnotin. rewrite <- Hab. apply in_map, Ha.
Qed.

(** A list with pairwise distinct keys has one sorted arrangement. *)
Lemma sorted_arrangement_unique (s1 : list A) : forall s2,
  StronglySorted key_le s1 -> StronglySorted key_le s2 ->
  Permutation s1 s2 -> List.NoDup (map key s1) -> s1 = s2.
Proof.
  induction s1 as [|a1 s1 IH]; intros s2 H1 H2 Hperm Hnd.
  - apply Permutation_nil in Hperm. congruence.
  - destruct s2 as [|a2 s2].
    { apply Permutation_sym, Permutation_nil in Hperm. discriminate. }
    inversion H1 as [|? ? H1' Hall1]; subst.
    inversion H2 as [|? ? H2' Hall2]; subst.
    assert (Hin2 : In a2 (a1 :: s1)).
    { eapply Permutation_in; [apply Permutation_sym, Hperm | left; reflexivity]. }
    assert (Hin1 : In a1 (a2 :: s2)).
    { eapply Permutation_in; [exact Hperm | left; reflexivity]. }
    assert (Heq : a1 = a2).
    { apply (same_key_same_element (a1 :: s1)); auto; [left; reflexivity |].
      rewrite List.Forall_forall in Hall1, Hall2.
      assert (key a1 <= key a2).
      { destruct Hin2 as [-> | Hin2]; [lia | apply Hall1, Hin2]. }
      assert (key a2 <= key a1).
      { destruct Hin1 as [-> | Hin1]; [lia | apply Hall2, Hin1]. }
      lia. }
    subst a2. f_equal. apply IH; auto.
    + eapply Permutation_cons_inv, Hperm.
    + simpl in Hnd. inversion Hnd; assumption.
Qed.

End SortFacts.

(** ** Normalization of tag numbers *)

Lemma py_lt_ints (l : list Z) : keyed_on py_lt int_key (map PyInt l).
Proof.
  intros a b Ha Hb.
  apply in_map_iff in Ha as (m & <- & _).
  apply in_map_iff in Hb as (n & <- & _).
  reflexivity.
Qed.

Lemma sorted_ints (l : list Z) :
  exists s, sorted (map PyInt l) = Ok (map PyInt s)
    /\ Permutation l s /\ StronglySorted Z.le s.
Proof.
  destruct (py_sort_keyed py_lt int_key (map PyInt l) (py_lt_ints l))
    as (s' & Hs & Hperm & Hsorted & _).
  apply Permutation_sym, Permutation_map_inv in Hperm as (s & -> & Hperm).
  exists s. repeat split; [exact Hs | exact Hperm |].
  clear -Hsorted. induction s as [|n s IH]; [constructor |].
  simpl in Hsorted. inversion Hsorted as [|? ? Hs' Hall]; subst.
  constructor; [apply IH, Hs' |].
  rewrite Forall_map in Hall. exact Hall.
Qed.

(** C6, as amended: [normalize_tag_numbers] returns a sorted list of integers,
    without raising, on the inputs its test of the type covers: a single
    integer [n] gives [[n]] (a [bool] is an [int] to [isinstance]), a list of
    integers gives that list sorted ascending, and a value that is neither an
    integer nor a list (a missing value, a string) gives the empty list.  In
    particular normalize(5) = [5], normalize([3,1,2]) = [1,2,3],
    normalize([]) = [] and normalize("invalid") = [].  Nothing is said of a
    list that holds something else than integers. *)
Theorem normalize_typed_values :
  (forall n : Z, normalize_tag_numbers (PyInt n) = Ok [PyInt n])
  /\ (forall b : bool, normalize_tag_numbers (PyBool b) = Ok [PyBool b])
  /\ (forall l : list Z, exists s : list Z,
         normalize_tag_numbers (PyList (map PyInt l)) = Ok (map PyInt s)
         /\ Permutation l s /\ StronglySorted Z.le s)
  /\ normalize_tag_numbers PyNone = Ok []
  /\ (forall s : str, normalize_tag_numbers (PyStr s) = Ok [])
  /\ normalize_tag_numbers (PyInt 5) = Ok [PyInt 5]
  /\ normalize_tag_numbers (PyList [PyInt 3; PyInt 1; PyInt 2])
     = Ok [PyInt 1; PyInt 2; PyInt 3]
  /\ normalize_tag_numbers (PyList []) = Ok []
  /\ normalize_tag_numbers (PyStr (lit "invalid")) = Ok [].
Proof.
  repeat split; try reflexivity.
  intros l. apply sorted_ints.
Qed.

(** C6 fails as stated: on the list [[1, "a"]] the call raises [TypeError]
    (the sort compares an [int] with a [str]), and on the list [["a"]] it
    returns [["a"]], which is neither empty nor a list of integers. *)
Lemma normalize_list_of_non_integers :
  normalize_tag_numbers (PyList [PyInt 1; PyStr (lit "a")]) = Raise TypeError
  /\ normalize_tag_numbers (PyList [PyStr (lit "a")]) = Ok [PyStr (lit "a")].
Proof. split; reflexivity. Qed.

(** ** Evidence of a run *)

Lemma extract_loop_found (tagged_content : str) (run : list Z) :
  forall sentences,
    TextProcessor.extract_loop tagged_content run sentences
    = sentences ++ found_sentences tagged_content run.
Proof.
  unfold found_sentences.
  induction run as [|tag_num run IH]; intros sentences; simpl.
  - rewrite app_nil_r. reflexivity.
  - unfold resolves at 1.
    destruct (negb (is_empty (TextProcessor.extract_sentence_by_tag tagged_content tag_num))).
    + rewrite IH, <- app_assoc. reflexivity.
    + apply IH.
Qed.

Lemma extract_sentences_found (tagged_content : str) (run : list Z) :
  TextProcessor.extract_sentences_for_tags tagged_content run
  = join (lit " ") (found_sentences tagged_content run).
Proof.
  unfold TextProcessor.extract_sentences_for_tags.
  rewrite extract_loop_found. reflexivity.
Qed.

Lemma join_nonempty (sep : str) (parts : list str) :
  parts <> [] -> Forall (fun p => p <> []) parts -> join sep parts <> [].
Proof.
  destruct parts as [|x rest]; [congruence |].
  intros _ Hall. inversion Hall as [|? ? Hx _]; subst. simpl.
  destruct rest; [exact Hx |].
  destruct x; [congruence | discriminate].
Qed.

Lemma found_sentences_nonempty (tagged_content : str) (run : list Z) :
  Forall (fun p => p <> []) (found_sentences tagged_content run).
Proof.
  unfold found_sentences. rewrite Forall_map.
  apply List.Forall_forall. intros id Hin.
  apply filter_In in Hin as [_ Hres]. unfold resolves in Hres.
  destruct (TextProcessor.extract_sentence_by_tag tagged_content id);
    [discriminate | discriminate].
Qed.

(** The evidence of a run is empty exactly when none of its ids resolves. *)
Lemma evidence_empty_iff (tagged_content : str) (run : list Z) :
  TextProcessor.extract_sentences_for_tags tagged_content run = []
  <-> Forall (fun id => TextProcessor.extract_sentence_by_tag tagged_content id = []) run.
Proof.
  rewrite extract_sentences_found. split.
  - intros Hempty. apply List.Forall_forall. intros id Hin.
    destruct (TextProcessor.extract_sentence_by_tag tagged_content id) eqn:He;
      [reflexivity | exfalso].
    revert Hempty. apply join_nonempty; [| apply found_sentences_nonempty].
    unfold found_sentences. intros Hnil. apply map_eq_nil in Hnil.
    assert (Hf : In id (List.filter (resolves tagged_content) run)).
    { apply filter_In. split; [exact Hin |]. unfold resolves. rewrite He. reflexivity. }
    rewrite Hnil in Hf. exact Hf.
  - intros Hall. unfold found_sentences.
    replace (List.filter (resolves tagged_content) run) with (@nil Z); [reflexivity |].
    symmetry. induction Hall as [|id run Hid _ IH]; [reflexivity |].
    simpl. unfold resolves at 1. rewrite Hid. simpl. exact IH.
Qed.

(** ** [TextProcessor] on ids of any value *)

Lemma last_map_int (cur : list Z) :
  cur <> [] -> List.last (map PyInt cur) PyNone = PyInt (List.last cur 0).
Proof.
  induction cur as [|a cur IH]; intros H; [congruence |].
  destruct cur as [|b cur]; [reflexivity |].
  change (List.last (map PyInt (a :: b :: cur)) PyNone)
    with (List.last (map PyInt (b :: cur)) PyNone).
  rewrite IH by discriminate. reflexivity.
Qed.

(** On [int]s the untyped functions are the typed ones. *)
Lemma untyped_group_loop_ints (rest : list Z) : forall groups cur,
  cur <> [] ->
  Untyped.group_loop (map PyInt rest) (map (map PyInt) groups) (map PyInt cur)
  = Ok (map (map PyInt) (TextProcessor.group_loop rest groups cur)).
Proof.
  induction rest as [|n rest IH]; intros groups cur Hcur; cbn [map].
  - cbn [Untyped.group_loop TextProcessor.group_loop].
    rewrite map_app. reflexivity.
  - cbn [Untyped.group_loop TextProcessor.group_loop].
    rewrite last_map_int by exact Hcur.
    cbn [Untyped.add_one int_value bind py_eq].
    destruct (n =? List.last cur 0 + 1).
    + rewrite <- (IH groups (cur ++ [n])) by (destruct cur; discriminate).
      rewrite map_app. reflexivity.
    + rewrite <- (IH (groups ++ [cur]) [n]) by discriminate.
      rewrite map_app. reflexivity.
Qed.

Lemma untyped_group_ints (numbers : list Z) :
  Untyped.group_consecutive_numbers (map PyInt numbers)
  = Ok (map (map PyInt) (TextProcessor.group_consecutive_numbers numbers)).
Proof.
  destruct numbers as [|n0 rest]; [reflexivity |].
  exact (untyped_group_loop_ints rest [] [n0] ltac:(discriminate)).
Qed.

Lemma untyped_extract_loop_ints search_value (text : str) (run : list Z) :
  forall sentences,
    Untyped.extract_loop search_value text (map PyInt run) sentences
    = Ok (TextProcessor.extract_loop text run sentences).
Proof.
  induction run as [|id run IH]; intros sentences; [reflexivity |].
  cbn [map Untyped.extract_loop TextProcessor.extract_loop
       Untyped.extract_sentence_by_tag bind].
  destruct (negb (is_empty (TextProcessor.extract_sentence_by_tag text id)));
    apply IH.
Qed.

Lemma untyped_extract_ints search_value (text : str) (run : list Z) :
  Untyped.extract_sentences_for_tags search_value text (map PyInt run)
  = Ok (TextProcessor.extract_sentences_for_tags text run).
Proof.
  unfold Untyped.extract_sentences_for_tags.
  rewrite untyped_extract_loop_ints. reflexivity.
Qed.

(** A value equal to an [int] is a number of that value. *)
Lemma py_eq_int (v : PyVal) (m : Z) :
  py_eq v (PyInt m) = true -> int_value v = Some m.
Proof.
  destruct v as [| b | n | s | l]; cbn; try discriminate.
  - intros H. apply Z.eqb_eq in H. congruence.
  - intros H. apply Z.eqb_eq in H. congruence.
Qed.

Lemma run_of_values_snoc (cur : list PyVal) (v : PyVal) (n : Z) :
  run_of_values cur ->
  int_value (List.last cur PyNone) = Some n ->
  int_value v = Some (n + 1) ->
  run_of_values (cur ++ [v]).
Proof.
  induction 1 as [a | a b run m Hrun IH Ha Hb]; intros Hlast Hv.
  - cbn in Hlast. cbn [app]. econstructor; [constructor | exact Hlast | exact Hv].
  - change ((a :: b :: run) ++ [v]) with (a :: (b :: run) ++ [v]).
    cbn [app]. econstructor; [| exact Ha | exact Hb].
    apply IH; [| exact Hv]. exact Hlast.
Qed.

Lemma run_of_values_nonempty (run : list PyVal) : run_of_values run -> run <> [].
Proof. inversion 1; discriminate. Qed.

(** The groups of any list of values: cut from the list in order, and each
    one value or consecutive numbers. *)
Lemma untyped_group_loop_spec (rest : list PyVal) : forall groups cur out,
  run_of_values cur ->
  Untyped.group_loop rest groups cur = Ok out ->
  exists tail,
    out = groups ++ tail
    /\ concat tail = cur ++ rest
    /\ Forall run_of_values tail.
Proof.
  induction rest as [|v rest IH]; intros groups cur out Hcur; cbn [Untyped.group_loop].
  - intros [= <-]. exists [cur]. cbn. rewrite !app_nil_r.
    repeat split. constructor; [exact Hcur | constructor].
  - unfold Untyped.add_one.
    destruct (int_value (List.last cur PyNone)) as [n |] eqn:Hlast;
      cbn [bind]; [| discriminate].
    destruct (py_eq v (PyInt (n + 1))) eqn:Heq.
    + intros Hout.
      destruct (IH groups (cur ++ [v]) out) as (tail & -> & Hc & Hr);
        [| exact Hout |].
      { eapply run_of_values_snoc; [exact Hcur | exact Hlast |].
        apply py_eq_int, Heq. }
      exists tail. rewrite Hc, <- app_assoc. repeat split. exact Hr.
    + intros Hout.
      destruct (IH (groups ++ [cur]) [v] out) as (tail & -> & Hc & Hr);
        [constructor | exact Hout |].
      exists (cur :: tail). rewrite <- app_assoc. cbn [concat app].
      rewrite Hc. repeat split. constructor; assumption.
Qed.

Lemma untyped_group_spec (numbers : list PyVal) (groups : list (list PyVal)) :
  Untyped.group_consecutive_numbers numbers = Ok groups ->
  concat groups = numbers /\ Forall run_of_values groups.
Proof.
  destruct numbers as [|v0 rest]; cbn [Untyped.group_consecutive_numbers].
  - intros [= <-]. split; constructor.
  - intros H. destruct (untyped_group_loop_spec rest [] [v0] groups) as (t & -> & Hc & Hr);
      [constructor | exact H |].
    split; [exact Hc | exact Hr].
Qed.

(** The evidence of a run of any values: the sentences of its ids in run
    order, the empty ones left out, joined by a space. *)
Lemma untyped_extract_loop_spec search_value (text : str) (run : list PyVal) :
  forall sentences out,
    Untyped.extract_loop search_value text run sentences = Ok out ->
    exists texts,
      Forall2 (fun v s => Untyped.extract_sentence_by_tag search_value text v = Ok s)
        run texts
      /\ out = sentences ++ List.filter (fun s => negb (is_empty s)) texts.
Proof.
  induction run as [|v run IH]; intros sentences out; cbn [Untyped.extract_loop].
  - intros [= <-]. exists []. split; [constructor | now rewrite app_nil_r].
  - destruct (Untyped.extract_sentence_by_tag search_value text v) as [s | e] eqn:Hs;
      cbn [bind]; [| discriminate].
    destruct (negb (is_empty s)) eqn:Hne; intros Hout.
    + destruct (IH _ _ Hout) as (texts & Hall & ->).
      exists (s :: texts). split; [constructor; assumption |].
      cbn [List.filter]. rewrite Hne, <- app_assoc. reflexivity.
    + destruct (IH _ _ Hout) as (texts & Hall & ->).
      exists (s :: texts). split; [constructor; assumption |].
      cbn [List.filter]. rewrite Hne. reflexivity.
Qed.

Lemma untyped_evidence_spec search_value (text : str) (run : list PyVal)
    (paragraph : str) :
  Untyped.extract_sentences_for_tags search_value text run = Ok paragraph ->
  exists texts,
    Forall2 (fun v s => Untyped.extract_sentence_by_tag search_value text v = Ok s)
      run texts
    /\ paragraph = join (lit " ") (List.filter (fun s => negb (is_empty s)) texts).
Proof.
  unfold Untyped.extract_sentences_for_tags.
  destruct (Untyped.extract_loop search_value text run []) as [out | e] eqn:Hl;
    cbn [bind]; [| discriminate].
  intros [= <-]. destruct (untyped_extract_loop_spec _ _ _ _ _ Hl) as (texts & Hall & ->).
  exists texts. split; [exact Hall | reflexivity].
Qed.

(** An evidence that is not empty has an id that resolves. *)
Lemma untyped_evidence_resolves search_value (text : str) (run : list PyVal)
    (paragraph : str) :
  Untyped.extract_sentences_for_tags search_value text run = Ok paragraph ->
  paragraph <> [] ->
  Exists (resolves_value search_value text) run.
Proof.
  intros Hp Hne. destruct (untyped_evidence_spec _ _ _ _ Hp) as (texts & Hall & ->).
  clear Hp. induction Hall as [|v s run texts Hv _ IH].
  - exfalso. apply Hne. reflexivity.
  - destruct s as [|c s].
    + apply Exists_cons_tl. apply IH. exact Hne.
    + apply Exists_cons_hd. exists (c :: s). split; [exact Hv | discriminate].
Qed.

(** ** The grouped flags *)

Lemma group_consecutive_numbers_consecutive (numbers : list Z) :
  Forall consecutive (TextProcessor.group_consecutive_numbers numbers).
Proof.
  destruct numbers as [|n0 rest]; simpl; [constructor |].
  rewrite group_loop_absorb. simpl. apply absorb_consecutive. constructor.
Qed.

Lemma groups_loop_app search_value flag tagged_content groups :
  forall grouped_flags,
    ContentFlagger.groups_loop search_value flag tagged_content groups grouped_flags
    = outcome_map (app grouped_flags)
        (ContentFlagger.groups_loop search_value flag tagged_content groups []).
Proof.
  induction groups as [|group groups IH]; intros acc; cbn [ContentFlagger.groups_loop].
  - cbn. rewrite app_nil_r. reflexivity.
  - destruct (Untyped.extract_sentences_for_tags _ _ _) as [paragraph | e];
      cbn [bind]; [| reflexivity].
    destruct (negb (is_empty paragraph)); [| apply IH].
    rewrite (IH (acc ++ _)), (IH ([] ++ _)).
    destruct (ContentFlagger.groups_loop _ _ _ _ []); cbn; [| reflexivity].
    rewrite <- app_assoc. reflexivity.
Qed.

(** What the loop over the groups of one flag appends: entries with the
    fields of the flag, each on one of the groups. *)
Lemma groups_loop_entries search_value flag tagged_content groups : forall es,
  Forall run_of_values groups ->
  ContentFlagger.groups_loop search_value flag tagged_content groups [] = Ok es ->
  Forall (fun e =>
            entry_ok search_value tagged_content e
            /\ In (ContentFlagger.tag_numbers e) groups
            /\ ContentFlagger.issue_type e
               = default (lit "Unknown") (ContentFlagger.raw_issue_type flag)
            /\ ContentFlagger.severity_level e
               = default (lit "Low") (ContentFlagger.raw_severity_level flag)
            /\ ContentFlagger.confidence e
               = default (1 # 2)%Q (ContentFlagger.raw_confidence flag)
            /\ ContentFlagger.rationale e
               = default [] (ContentFlagger.raw_rationale flag)) es.
Proof.
  induction groups as [|group groups IH]; intros es Hruns;
    cbn [ContentFlagger.groups_loop].
  - intros [= <-]. constructor.
  - inversion Hruns as [|? ? Hrun Hruns']; subst.
    destruct (Untyped.extract_sentences_for_tags search_value tagged_content group)
      as [paragraph | e] eqn:Hp; cbn [bind]; [| discriminate].
    destruct (negb (is_empty paragraph)) eqn:Hne.
    + rewrite groups_loop_app.
      destruct (ContentFlagger.groups_loop search_value flag tagged_content groups [])
        as [r | e] eqn:Hr; cbn [outcome_map]; [| discriminate].
      intros [= <-]. cbn [app].
      assert (Hpne : paragraph <> []) by (destruct paragraph; discriminate).
      constructor.
      * cbn. split; [| split; [now left | repeat split]].
        unfold entry_ok. cbn. repeat split; try assumption.
        eapply untyped_evidence_resolves; eassumption.
      * eapply Forall_impl; [exact (IH r Hruns' eq_refl) |].
        intros e (H1 & H2 & H3). split; [exact H1 |]. split; [now right | exact H3].
    + intros Hes. eapply Forall_impl; [exact (IH es Hruns' Hes) |].
      intros e (H1 & H2 & H3). split; [exact H1 |]. split; [now right | exact H3].
Qed.

Lemma flags_loop_app search_value tagged_content flags_raw : forall grouped_flags,
  ContentFlagger.flags_loop search_value flags_raw tagged_content grouped_flags
  = outcome_map (app grouped_flags)
      (ContentFlagger.flags_loop search_value flags_raw tagged_content []).
Proof.
  induction flags_raw as [|flag rest IH]; intros acc; cbn [ContentFlagger.flags_loop].
  - cbn. rewrite app_nil_r. reflexivity.
  - destruct (normalize_tag_numbers _) as [tag_numbers | e]; cbn [bind]; [| reflexivity].
    destruct (is_empty tag_numbers); [apply IH |].
    destruct (Untyped.group_consecutive_numbers tag_numbers) as [groups | e];
      cbn [bind]; [| reflexivity].
    rewrite (groups_loop_app _ _ _ _ acc).
    destruct (ContentFlagger.groups_loop search_value flag tagged_content groups [])
      as [es | e]; cbn [outcome_map bind]; [| reflexivity].
    rewrite (IH (acc ++ es)), (IH es).
    destruct (ContentFlagger.flags_loop search_value rest tagged_content []);
      cbn; [| reflexivity].
    rewrite app_assoc. reflexivity.
Qed.

Lemma flags_loop_cons search_value tagged_content flag rest :
  ContentFlagger.flags_loop search_value (flag :: rest) tagged_content []
  = let* es := flag_entries search_value tagged_content flag in
    let* r := ContentFlagger.flags_loop search_value rest tagged_content [] in
    Ok (es ++ r).
Proof.
  unfold flag_entries. cbn [ContentFlagger.flags_loop].
  destruct (normalize_tag_numbers _) as [tag_numbers | e]; cbn [bind]; [| reflexivity].
  destruct (is_empty tag_numbers); cbn [bind].
  - destruct (ContentFlagger.flags_loop search_value rest tagged_content []); reflexivity.
  - destruct (Untyped.group_consecutive_numbers tag_numbers) as [groups | e];
      cbn [bind]; [| reflexivity].
    destruct (ContentFlagger.groups_loop search_value flag tagged_content groups [])
      as [es | e]; cbn [bind]; [| reflexivity].
    rewrite flags_loop_app.
    destruct (ContentFlagger.flags_loop search_value rest tagged_content []);
      reflexivity.
Qed.

Lemma py_sort_insert_perm {A : Type} (lt : A -> A -> outcome bool) (x : A)
    (l : list A) : forall r,
  sort_insert lt x l = Ok r -> Permutation (x :: l) r.
Proof.
  induction l as [|y l IH]; intros r; cbn [sort_insert].
  - intros [= <-]. reflexivity.
  - destruct (lt y x) as [[|] | e]; cbn [bind]; try discriminate.
    + destruct (sort_insert lt x l) as [r' | e]; cbn [bind]; [| discriminate].
      intros [= <-]. rewrite perm_swap. apply perm_skip, IH. reflexivity.
    + intros [= <-]. reflexivity.
Qed.

(** A sort that returns has rearranged its list. *)
Lemma py_sort_perm {A : Type} (lt : A -> A -> outcome bool) (l : list A) :
  forall s, py_sort lt l = Ok s -> Permutation l s.
Proof.
  induction l as [|x l IH]; intros s; cbn [py_sort].
  - intros [= <-]. constructor.
  - destruct (py_sort lt l) as [s' | e]; cbn [bind]; [| discriminate].
    intros H. apply py_sort_insert_perm in H. rewrite <- H.
    apply perm_skip, IH. reflexivity.
Qed.

(** The ids that [normalize_tag_numbers] returns are the ids of the flag. *)
Lemma normalize_ids (flag : ContentFlagger.RawFlag) (tag_numbers : list PyVal) :
  normalize_tag_numbers
    (default (PyList []) (ContentFlagger.raw_tag_numbers flag)) = Ok tag_numbers ->
  Permutation (raw_ids flag) tag_numbers.
Proof.
  unfold raw_ids.
  destruct (default (PyList []) (ContentFlagger.raw_tag_numbers flag))
    as [| b | n | s | l]; cbn [normalize_tag_numbers].
  - intros [= <-]. constructor.
  - intros [= <-]. reflexivity.
  - intros [= <-]. reflexivity.
  - intros [= <-]. constructor.
  - apply py_sort_perm.
Qed.

(** The entries of one flag. *)
Lemma flag_entries_spec search_value tagged_content flag es :
  flag_entries search_value tagged_content flag = Ok es ->
  Forall (fun e => entry_ok search_value tagged_content e
                   /\ entry_of_flag search_value tagged_content flag e) es.
Proof.
  unfold flag_entries. cbn [ContentFlagger.flags_loop].
  destruct (normalize_tag_numbers _) as [tag_numbers | e] eqn:Hn;
    cbn [bind]; [| discriminate].
  destruct (is_empty tag_numbers).
  - intros [= <-]. constructor.
  - destruct (Untyped.group_consecutive_numbers tag_numbers) as [groups | e] eqn:Hg;
      cbn [bind]; [| discriminate].
    destruct (ContentFlagger.groups_loop search_value flag tagged_content groups [])
      as [es' | e] eqn:Hes; cbn [bind]; [| discriminate].
    intros [= <-]. apply untyped_group_spec in Hg as [Hconcat Hruns].
    eapply Forall_impl; [eapply groups_loop_entries; eassumption |].
    intros e (Hok & Hin & H1 & H2 & H3 & H4).
    split; [exact Hok |].
    unfold entry_of_flag. repeat split; try assumption.
    + intros id Hid.
      eapply Permutation_in; [symmetry; eapply normalize_ids, Hn |].
      rewrite <- Hconcat. apply in_concat. eauto.
    + apply Hok.
    + apply Hok.
Qed.

Lemma flag_entries_ok search_value tagged_content flag es :
  flag_entries search_value tagged_content flag = Ok es ->
  Forall (entry_ok search_value tagged_content) es.
Proof.
  intros H. eapply Forall_impl; [eapply flag_entries_spec, H |].
  intros e [Hok _]. exact Hok.
Qed.

Lemma flags_loop_ok search_value tagged_content flags_raw : forall grouped,
  ContentFlagger.flags_loop search_value flags_raw tagged_content [] = Ok grouped ->
  Forall (entry_ok search_value tagged_content) grouped.
Proof.
  induction flags_raw as [|flag rest IH]; intros grouped.
  - intros [= <-]. constructor.
  - rewrite flags_loop_cons.
    destruct (flag_entries search_value tagged_content flag) as [es | e] eqn:Hes;
      cbn [bind]; [| discriminate].
    destruct (ContentFlagger.flags_loop search_value rest tagged_content [])
      as [r | e]; cbn [bind]; [| discriminate].
    intros [= <-]. apply Forall_app.
    split; [eapply flag_entries_ok, Hes | apply IH; reflexivity].
Qed.

Lemma groups_loop_ints search_value flag tagged_content (groups : list (list Z)) :
  exists es,
    ContentFlagger.groups_loop search_value flag tagged_content
      (map (map PyInt) groups) [] = Ok es
    /\ Forall int_run es.
Proof.
  induction groups as [|group groups (es & IH & Hall)];
    cbn [map ContentFlagger.groups_loop].
  - exists []. split; [reflexivity | constructor].
  - rewrite untyped_extract_ints. cbn [bind].
    destruct (negb (is_empty (TextProcessor.extract_sentences_for_tags
                                tagged_content group))).
    + rewrite groups_loop_app, IH. cbn [outcome_map].
      eexists. split; [reflexivity |].
      constructor; [exists group; reflexivity | exact Hall].
    + exists es. split; [exact IH | exact Hall].
Qed.

Lemma flag_entries_typed search_value tagged_content flag :
  typed_flag flag ->
  exists es, flag_entries search_value tagged_content flag = Ok es
             /\ Forall int_run es.
Proof.
  unfold typed_flag, flag_entries. cbn [ContentFlagger.flags_loop].
  destruct (ContentFlagger.raw_tag_numbers flag) as [[| b | n | s | l] |];
    cbn [default normalize_tag_numbers bind is_empty id];
    try contradiction;
    try (intros _; exists []; split; [reflexivity | constructor]).
  - intros _.
    change [PyInt n] with (map PyInt [n]).
    rewrite untyped_group_ints. cbn [bind].
    destruct (groups_loop_ints search_value flag tagged_content
                (TextProcessor.group_consecutive_numbers [n])) as (es & -> & Hall).
    exists es. split; [reflexivity | exact Hall].
  - intros [ns ->].
    destruct (sorted_ints ns) as (s & -> & _ & _). cbn [bind].
    destruct (is_empty (map PyInt s)); [exists []; split; [reflexivity | constructor] |].
    rewrite untyped_group_ints. cbn [bind].
    destruct (groups_loop_ints search_value flag tagged_content
                (TextProcessor.group_consecutive_numbers s)) as (es & -> & Hall).
    exists es. split; [reflexivity | exact Hall].
Qed.

Lemma flags_loop_typed search_value tagged_content flags_raw :
  Forall typed_flag flags_raw ->
  exists grouped,
    ContentFlagger.flags_loop search_value flags_raw tagged_content [] = Ok grouped
    /\ Forall int_run grouped.
Proof.
  induction 1 as [|flag rest Hflag _ (r & IH & Hall)].
  - exists []. split; [reflexivity | constructor].
  - rewrite flags_loop_cons.
    destruct (flag_entries_typed search_value tagged_content flag Hflag)
      as (es & -> & Hes).
    rewrite IH. cbn [bind]. eexists. split; [reflexivity |].
    apply Forall_app. split; assumption.
Qed.

(** C7: the evidence of a run is the texts of its ids, taken in run order,
    those that resolve joined by one space and those that do not skipped; and
    every entry the aggregator emits is the evidence of its own run, is not
    empty, and has an id that resolves, so that a run none of whose ids
    resolves leaves no entry.  This holds of every entry of every run of the
    aggregator that returns, whatever values the flags hold as ids; on ids
    that are integers the evidence is that of [extract_sentences_for_tags]
    as annotated, and the aggregator returns for every list of flags whose
    [tag_numbers] are integers or lists of integers. *)
Theorem evidence_never_empty :
  (forall (tagged_content : str) (run : list Z),
      TextProcessor.extract_sentences_for_tags tagged_content run
      = join (lit " ")
          (map (TextProcessor.extract_sentence_by_tag tagged_content)
             (List.filter
                (fun id => negb (is_empty
                   (TextProcessor.extract_sentence_by_tag tagged_content id)))
                run)))
  /\ (forall (tagged_content : str) (run : list Z),
         TextProcessor.extract_sentences_for_tags tagged_content run = []
         <-> Forall (fun id =>
               TextProcessor.extract_sentence_by_tag tagged_content id = []) run)
  /\ (forall (search_value : PyVal -> str -> outcome (option str))
             (tagged_content : str) (run : list Z),
         Untyped.extract_sentences_for_tags search_value tagged_content
           (map PyInt run)
         = Ok (TextProcessor.extract_sentences_for_tags tagged_content run))
  /\ (forall (search_value : PyVal -> str -> outcome (option str))
             (tagged_content : str) (run : list PyVal) (paragraph : str),
         Untyped.extract_sentences_for_tags search_value tagged_content run
         = Ok paragraph ->
         exists texts,
           Forall2 (fun id text =>
                      Untyped.extract_sentence_by_tag search_value tagged_content id
                      = Ok text) run texts
           /\ paragraph
              = join (lit " ")
                  (List.filter (fun text => negb (is_empty text)) texts))
  /\ (forall (search_value : PyVal -> str -> outcome (option str))
             (flags_raw : list ContentFlagger.RawFlag) (tagged_content : str),
         Forall typed_flag flags_raw ->
         exists grouped,
           ContentFlagger._group_consecutive_flags search_value flags_raw
             tagged_content = Ok grouped)
  /\ (forall (search_value : PyVal -> str -> outcome (option str))
             (flags_raw : list ContentFlagger.RawFlag) (tagged_content : str)
             (grouped : list ContentFlagger.GroupedFlag),
         ContentFlagger._group_consecutive_flags search_value flags_raw
           tagged_content = Ok grouped ->
         Forall (fun e =>
           Untyped.extract_sentences_for_tags search_value tagged_content
             (ContentFlagger.tag_numbers e)
           = Ok (ContentFlagger.text_evidence e)
           /\ ContentFlagger.text_evidence e <> []
           /\ Exists (fun id =>
                exists text,
                  Untyped.extract_sentence_by_tag search_value tagged_content id
                  = Ok text
                  /\ text <> [])
                (ContentFlagger.tag_numbers e)) grouped).
Proof.
  split; [| split; [| split; [| split; [| split]]]].
  - intros. apply extract_sentences_found.
  - intros. apply evidence_empty_iff.
  - intros. apply untyped_extract_ints.
  - intros. apply untyped_evidence_spec. assumption.
  - intros search_value flags_raw tagged_content Htyped.
    destruct (flags_loop_typed search_value tagged_content flags_raw Htyped)
      as (grouped & Hg & _).
    exists grouped. exact Hg.
  - intros search_value flags_raw tagged_content grouped Hg.
    apply flags_loop_ok in Hg.
    eapply Forall_impl; [exact Hg |].
    intros e (_ & H1 & H2 & H3). auto.
Qed.

(** ** The merged, ordered flags *)

Lemma collect_loop_flat completed : forall all_flags_raw,
  ContentFlagger.collect_loop completed all_flags_raw
  = all_flags_raw ++ flat_map results_of completed.
Proof.
  induction completed as [|[flags | e] rest IH]; intros acc; simpl.
  - rewrite app_nil_r. reflexivity.
  - rewrite IH, <- app_assoc. reflexivity.
  - apply IH.
Qed.

Lemma collect_loop_perm completed completed' :
  Permutation completed completed' ->
  Permutation (ContentFlagger.collect_loop completed [])
              (ContentFlagger.collect_loop completed' []).
Proof.
  intros Hp. rewrite !collect_loop_flat. simpl.
  induction Hp as [| x l l' _ IH | x y l | l l' l'' _ IH1 _ IH2]; simpl.
  - constructor.
  - apply Permutation_app_head, IH.
  - rewrite !app_assoc. apply Permutation_app_tail, Permutation_app_comm.
  - etransitivity; eassumption.
Qed.

Lemma flags_loop_perm search_value tagged_content flags1 flags2 :
  Permutation flags1 flags2 ->
  forall g1,
    ContentFlagger.flags_loop search_value flags1 tagged_content [] = Ok g1 ->
    exists g2,
      ContentFlagger.flags_loop search_value flags2 tagged_content [] = Ok g2
      /\ Permutation g1 g2.
Proof.
  induction 1 as [| x l l' _ IH | x y l | l l' l'' _ IH1 _ IH2]; intros g1.
  - intros [= <-]. exists []. split; [reflexivity | constructor].
  - rewrite !flags_loop_cons.
    destruct (flag_entries search_value tagged_content x) as [es | e];
      cbn [bind]; [| discriminate].
    destruct (ContentFlagger.flags_loop search_value l tagged_content []) as [r | e];
      cbn [bind]; [| discriminate].
    intros [= <-]. destruct (IH r eq_refl) as (r' & -> & Hp). cbn [bind].
    exists (es ++ r'). split; [reflexivity | apply Permutation_app_head, Hp].
  - rewrite !flags_loop_cons.
    destruct (flag_entries search_value tagged_content x) as [ex | e]; cbn [bind].
    + destruct (flag_entries search_value tagged_content y) as [ey | e];
        cbn [bind]; [| discriminate].
      destruct (ContentFlagger.flags_loop search_value l tagged_content [])
        as [r | e]; cbn [bind]; [| discriminate].
      intros [= <-]. exists (ex ++ ey ++ r). split; [reflexivity |].
      rewrite !app_assoc. apply Permutation_app_tail, Permutation_app_comm.
    + destruct (flag_entries search_value tagged_content y) as [ey | e'];
        cbn [bind]; [| discriminate].
      destruct (ContentFlagger.flags_loop search_value l tagged_content []);
        discriminate.
  - intros Hg1. destruct (IH1 g1 Hg1) as (g2 & Hg2 & Hp12).
    destruct (IH2 g2 Hg2) as (g3 & Hg3 & Hp23).
    exists g3. split; [exact Hg3 | etransitivity; eassumption].
Qed.

Lemma decorate_keyed (l : list ContentFlagger.GroupedFlag) :
  Forall (fun e => ContentFlagger.tag_numbers e <> []) l ->
  ContentFlagger.decorate l = Ok (map keyed_flag l).
Proof.
  induction 1 as [|f l Hf _ IH]; simpl; [reflexivity |].
  unfold ContentFlagger.first_tag, keyed_flag at 1, first_value.
  destruct (ContentFlagger.tag_numbers f); [congruence |].
  simpl. rewrite IH. reflexivity.
Qed.

(** The sort computes a key for every entry: it returns only if every entry
    has an id. *)
Lemma decorate_inv (l : list ContentFlagger.GroupedFlag) : forall keyed,
  ContentFlagger.decorate l = Ok keyed ->
  keyed = map keyed_flag l
  /\ Forall (fun e => ContentFlagger.tag_numbers e <> []) l.
Proof.
  induction l as [|f l IH]; intros keyed; cbn [ContentFlagger.decorate].
  - intros [= <-]. split; constructor.
  - unfold ContentFlagger.first_tag.
    destruct (ContentFlagger.tag_numbers f) as [|v rest] eqn:Hf;
      cbn [bind]; [discriminate |].
    destruct (ContentFlagger.decorate l) as [r | e]; cbn [bind]; [| discriminate].
    intros [= <-]. destruct (IH r eq_refl) as [-> Hall].
    split.
    + cbn [map]. f_equal. unfold keyed_flag, first_value. rewrite Hf. reflexivity.
    + constructor; [congruence | exact Hall].
Qed.

Lemma py_lt_numbers (a b : PyVal) (m n : Z) :
  int_value a = Some m -> int_value b = Some n -> py_lt a b = Ok (m <? n).
Proof.
  destruct a as [| x | x | x | x], b as [| y | y | y | y]; cbn;
    try discriminate; intros [= <-] [= <-]; reflexivity.
Qed.

Lemma numbered_first (f : ContentFlagger.GroupedFlag) :
  numbered f -> int_value (first_value f) = Some (first_id f).
Proof.
  intros (v & rest & n & Hf & Hv). unfold first_id, first_value, int_key.
  rewrite Hf. cbn [List.hd]. rewrite Hv. reflexivity.
Qed.

Lemma numbered_nonempty (f : ContentFlagger.GroupedFlag) :
  numbered f -> ContentFlagger.tag_numbers f <> [].
Proof. intros (v & rest & n & Hf & _). congruence. Qed.

Lemma keyed_numbered (l : list ContentFlagger.GroupedFlag) :
  Forall numbered l ->
  keyed_on ContentFlagger.key_lt (fun p => int_key (fst p)) (map keyed_flag l).
Proof.
  intros Hall a b Ha Hb.
  apply in_map_iff in Ha as (fa & <- & Ha). apply in_map_iff in Hb as (fb & <- & Hb).
  rewrite List.Forall_forall in Hall.
  unfold ContentFlagger.key_lt, keyed_flag. cbn [fst].
  apply py_lt_numbers.
  - rewrite (numbered_first fa (Hall fa Ha)). reflexivity.
  - rewrite (numbered_first fb (Hall fb Hb)). reflexivity.
Qed.

Lemma filter_keyed (k : Z) (l : list ContentFlagger.GroupedFlag) :
  List.filter (has_key (fun p => int_key (fst p)) k) (map keyed_flag l)
  = map keyed_flag (List.filter (has_key first_id k) l).
Proof.
  induction l as [|f l IH]; simpl; [reflexivity |].
  rewrite IH. unfold has_key, keyed_flag, first_id. simpl.
  destruct (int_key (first_value f) =? k); reflexivity.
Qed.

Lemma map_snd_keyed (l : list ContentFlagger.GroupedFlag) :
  map snd (map keyed_flag l) = l.
Proof. rewrite map_map. simpl. apply map_id. Qed.

Lemma sorted_keyed (l : list ContentFlagger.GroupedFlag) :
  StronglySorted (key_le (fun p => int_key (fst p))) (map keyed_flag l) ->
  StronglySorted (key_le first_id) l.
Proof.
  induction l as [|f l IH]; simpl; intros Hs; [constructor |].
  inversion Hs as [|? ? Hs' Hall]; subst.
  constructor; [apply IH, Hs' |].
  rewrite Forall_map in Hall. exact Hall.
Qed.

(** The sort of entries whose first ids are numbers returns, and orders
    them by these numbers, stably. *)
Lemma sort_by_first_tag_spec (l : list ContentFlagger.GroupedFlag) :
  Forall numbered l ->
  exists m, ContentFlagger.sort_by_first_tag l = Ok m
    /\ Permutation l m
    /\ StronglySorted (key_le first_id) m
    /\ (forall k, List.filter (has_key first_id k) m
                  = List.filter (has_key first_id k) l).
Proof.
  intros Hl. unfold ContentFlagger.sort_by_first_tag.
  rewrite (decorate_keyed l).
  2:{ eapply Forall_impl; [exact Hl |]. apply numbered_nonempty. }
  cbn [bind].
  destruct (py_sort_keyed ContentFlagger.key_lt (fun p => int_key (fst p))
              (map keyed_flag l) (keyed_numbered l Hl))
    as (s & Hs & Hperm & Hsorted & Hstable).
  rewrite Hs. cbn [bind].
  apply Permutation_sym, Permutation_map_inv in Hperm as (m & -> & Hperm).
  rewrite map_snd_keyed. exists m. repeat split.
  - exact Hperm.
  - apply sorted_keyed, Hsorted.
  - intros k. specialize (Hstable k). rewrite !filter_keyed in Hstable.
    apply (f_equal (map snd)) in Hstable. rewrite !map_snd_keyed in Hstable.
    exact Hstable.
Qed.

(** A sort that returns has rearranged entries that all have an id. *)
Lemma sort_by_first_tag_inv (l m : list ContentFlagger.GroupedFlag) :
  ContentFlagger.sort_by_first_tag l = Ok m ->
  Permutation l m /\ Forall (fun e => ContentFlagger.tag_numbers e <> []) m.
Proof.
  unfold ContentFlagger.sort_by_first_tag.
  destruct (ContentFlagger.decorate l) as [keyed | e] eqn:Hd; cbn [bind]; [| discriminate].
  destruct (decorate_inv l keyed Hd) as [-> Hne].
  destruct (py_sort ContentFlagger.key_lt (map keyed_flag l)) as [s | e] eqn:Hs;
    cbn [bind]; [| discriminate].
  intros [= <-]. apply py_sort_perm in Hs.
  assert (Hp : Permutation l (map snd s)).
  { rewrite <- (map_snd_keyed l) at 1. apply Permutation_map, Hs. }
  split; [exact Hp | eapply Permutation_Forall; eassumption].
Qed.

Lemma int_run_numbered (e : ContentFlagger.GroupedFlag) :
  int_run e -> ContentFlagger.tag_numbers e <> [] -> numbered e.
Proof.
  intros [run Hrun] Hne. destruct run as [|n run]; [cbn in Hrun; congruence |].
  exists (PyInt n), (map PyInt run), n. split; [exact Hrun | reflexivity].
Qed.

Lemma entry_ok_tags search_value tagged_content
    (l : list ContentFlagger.GroupedFlag) :
  Forall (entry_ok search_value tagged_content) l ->
  Forall (fun e => ContentFlagger.tag_numbers e <> []) l.
Proof.
  intros H. eapply Forall_impl; [exact H |].
  intros e (Hc & _). apply run_of_values_nonempty, Hc.
Qed.

Lemma merged_flags_inv search_value tagged_content completed merged :
  ContentFlagger.merged_flags search_value tagged_content completed = Ok merged ->
  exists grouped,
    ContentFlagger._group_consecutive_flags search_value
      (ContentFlagger.collect_loop completed []) tagged_content = Ok grouped
    /\ ContentFlagger.sort_by_first_tag grouped = Ok merged.
Proof.
  unfold ContentFlagger.merged_flags.
  destruct (ContentFlagger._group_consecutive_flags _ _ _) as [g | e]; cbn [bind];
    [| discriminate].
  intros H. exists g. split; [reflexivity | exact H].
Qed.

Lemma merged_flags_spec search_value tagged_content completed merged :
  ContentFlagger.merged_flags search_value tagged_content completed = Ok merged ->
  exists grouped,
    ContentFlagger._group_consecutive_flags search_value
      (ContentFlagger.collect_loop completed []) tagged_content = Ok grouped
    /\ Permutation grouped merged
    /\ Forall (fun e => ContentFlagger.tag_numbers e <> []) merged
    /\ (Forall numbered merged ->
        StronglySorted (key_le first_id) merged
        /\ forall k, List.filter (has_key first_id k) merged
                     = List.filter (has_key first_id k) grouped).
Proof.
  intros Hm. destruct (merged_flags_inv _ _ _ _ Hm) as (grouped & Hg & Hs).
  destruct (sort_by_first_tag_inv _ _ Hs) as [Hp Hne].
  exists grouped. repeat split; try assumption.
  - destruct (sort_by_first_tag_spec grouped) as (m & Hm' & _ & Hsorted & _).
    { eapply Permutation_Forall; [symmetry; exact Hp | exact H]. }
    congruence.
  - destruct (sort_by_first_tag_spec grouped) as (m & Hm' & _ & _ & Hstable).
    { eapply Permutation_Forall; [symmetry; exact Hp | exact H]. }
    assert (m = merged) by congruence. subst m. exact Hstable.
Qed.

Lemma merged_flags_numbered search_value tagged_content completed grouped :
  ContentFlagger._group_consecutive_flags search_value
    (ContentFlagger.collect_loop completed []) tagged_content = Ok grouped ->
  Forall numbered grouped ->
  exists merged,
    ContentFlagger.merged_flags search_value tagged_content completed = Ok merged
    /\ Permutation grouped merged.
Proof.
  intros Hg Hn. unfold ContentFlagger.merged_flags. rewrite Hg. cbn [bind].
  destruct (sort_by_first_tag_spec grouped Hn) as (m & Hm & Hp & _).
  exists m. split; assumption.
Qed.

Lemma merged_flags_typed search_value tagged_content completed :
  Forall typed_flag (flat_map results_of completed) ->
  exists merged,
    ContentFlagger.merged_flags search_value tagged_content completed = Ok merged
    /\ Forall numbered merged.
Proof.
  intros Htyped.
  destruct (flags_loop_typed search_value tagged_content
              (ContentFlagger.collect_loop completed []))
    as (grouped & Hg & Hints).
  { rewrite collect_loop_flat. exact Htyped. }
  assert (Hn : Forall numbered grouped).
  { pose proof (entry_ok_tags _ _ _ (flags_loop_ok _ _ _ _ Hg)) as Hne.
    rewrite List.Forall_forall in *. intros e He.
    apply int_run_numbered; auto. }
  destruct (merged_flags_numbered _ _ _ _ Hg Hn) as (m & Hm & Hp).
  exists m. split; [exact Hm | eapply Permutation_Forall; eassumption].
Qed.

(** With pairwise distinct first ids the merged list does not depend on the
    order in which the category checks completed. *)
Lemma merged_flags_order_free search_value tagged_content completed completed'
    merged :
  Permutation completed completed' ->
  ContentFlagger.merged_flags search_value tagged_content completed = Ok merged ->
  Forall numbered merged ->
  List.NoDup (map first_id merged) ->
  ContentFlagger.merged_flags search_value tagged_content completed' = Ok merged.
Proof.
  intros Hp Hm Hn Hnd.
  destruct (merged_flags_spec _ _ _ _ Hm) as (g & Hg & Hpg & _ & Hs).
  destruct (Hs Hn) as [Hsorted _].
  destruct (flags_loop_perm search_value tagged_content _ _
              (collect_loop_perm _ _ Hp) g Hg) as (g' & Hg' & Hpg').
  assert (Hn' : Forall numbered g').
  { eapply Permutation_Forall; [| exact Hn].
    rewrite <- Hpg'. symmetry. exact Hpg. }
  destruct (merged_flags_numbered _ _ _ _ Hg' Hn') as (m' & Hm' & Hpg2).
  destruct (merged_flags_spec _ _ _ _ Hm') as (g2 & Hg2 & _ & _ & Hs').
  rewrite Hm'. f_equal. symmetry.
  apply (sorted_arrangement_unique first_id); auto.
  - apply Hs'. eapply Permutation_Forall; [exact Hpg2 | exact Hn'].
  - rewrite <- Hpg, Hpg'. exact Hpg2.
Qed.

(** C1: whatever the order in which the category checks complete, the merged
    list, whenever the merge returns one, holds the grouped entries ordered
    by the first id of each entry's run, ascending; the sort is stable, so
    the entries that share a first id stand in the order they had before the
    sort.  The merge returns whenever the grouping returns entries whose
    first ids are numbers, as it does for flags whose [tag_numbers] are
    integers or lists of integers; and for three categories whose runs start
    at 5, 1 and 3 the merged list is 1, 3, 5 for every order of
    completion. *)
Theorem merged_flags_ordered :
  (forall (search_value : PyVal -> str -> outcome (option str))
          tagged_content completed merged,
      ContentFlagger.merged_flags search_value tagged_content completed
      = Ok merged ->
      exists grouped,
        ContentFlagger._group_consecutive_flags search_value
          (ContentFlagger.collect_loop completed []) tagged_content = Ok grouped
        /\ Permutation grouped merged
        /\ Forall (fun e => ContentFlagger.tag_numbers e <> []) merged
        /\ (Forall numbered merged ->
            StronglySorted (fun a b => first_id a <= first_id b) merged
            /\ forall k : Z,
                 List.filter (fun e => first_id e =? k) merged
                 = List.filter (fun e => first_id e =? k) grouped))
  /\ (forall (search_value : PyVal -> str -> outcome (option str))
             tagged_content completed grouped,
         ContentFlagger._group_consecutive_flags search_value
           (ContentFlagger.collect_loop completed []) tagged_content = Ok grouped ->
         Forall numbered grouped ->
         exists merged,
           ContentFlagger.merged_flags search_value tagged_content completed
           = Ok merged)
  /\ (forall (search_value : PyVal -> str -> outcome (option str))
             tagged_content completed,
         Forall typed_flag (flat_map results_of completed) ->
         exists merged,
           ContentFlagger.merged_flags search_value tagged_content completed
           = Ok merged
           /\ Forall numbered merged)
  /\ (forall (search_value : PyVal -> str -> outcome (option str))
             tagged_content completed completed' merged,
         Permutation completed completed' ->
         ContentFlagger.merged_flags search_value tagged_content completed
         = Ok merged ->
         Forall numbered merged ->
         List.NoDup (map first_id merged) ->
         ContentFlagger.merged_flags search_value tagged_content completed'
         = Ok merged)
  /\ (forall (search_value : PyVal -> str -> outcome (option str)) completed,
         Permutation three_categories completed ->
         exists merged,
           ContentFlagger.merged_flags search_value three_doc completed = Ok merged
           /\ map ContentFlagger.tag_numbers merged
              = [[PyInt 1]; [PyInt 3]; [PyInt 5]]).
Proof.
  split; [| split; [| split; [| split]]].
  - intros search_value tagged_content completed merged Hm.
    destruct (merged_flags_spec _ _ _ _ Hm) as (g & Hg & Hp & Hne & Hs).
    exists g. repeat split; auto; apply Hs; assumption.
  - intros search_value tagged_content completed grouped Hg Hn.
    destruct (merged_flags_numbered _ _ _ _ Hg Hn) as (m & Hm & _).
    exists m. exact Hm.
  - intros. apply merged_flags_typed. assumption.
  - intros search_value. apply merged_flags_order_free.
  - intros search_value completed Hp.
    destruct (ContentFlagger.merged_flags search_value three_doc three_categories)
      as [m0 | e] eqn:Hm0; [| vm_compute in Hm0; discriminate].
    exists m0. split.
    + eapply merged_flags_order_free; [exact Hp | exact Hm0 | |];
        vm_compute in Hm0; injection Hm0 as <-.
      * repeat constructor; eexists _, _, _; split; reflexivity.
      * vm_compute. repeat constructor; simpl; intuition lia.
    + vm_compute in Hm0. injection Hm0 as <-. reflexivity.
Qed.

(** The merge-ordering example: the merged list of the three categories is
    sorted, and it is the same, 1, 3, 5, when they complete in the order of
    the first ids 3, 5, 1. *)
Lemma merged_flags_ordered_witness :
  (exists merged,
      ContentFlagger.merged_flags no_match three_doc three_categories = Ok merged
      /\ StronglySorted (fun a b => first_id a <= first_id b) merged
      /\ ContentFlagger.merged_flags no_match three_doc
           [ Ok [one_flag "Age" "Medium" (PyList [PyInt 3])];
             Ok [one_flag "Violence" "High" (PyList [PyInt 5])];
             Ok [one_flag "Safety" "Critical" (PyList [PyInt 1])] ] = Ok merged)
  /\ (exists merged,
         ContentFlagger.merged_flags no_match three_doc
           [ Ok [one_flag "Age" "Medium" (PyList [PyInt 3])];
             Ok [one_flag "Violence" "High" (PyList [PyInt 5])];
             Ok [one_flag "Safety" "Critical" (PyList [PyInt 1])] ] = Ok merged
         /\ map ContentFlagger.tag_numbers merged
            = [[PyInt 1]; [PyInt 3]; [PyInt 5]]).
Proof.
  assert (Hperm : Permutation three_categories
            [ Ok [one_flag "Age" "Medium" (PyList [PyInt 3])];
              Ok [one_flag "Violence" "High" (PyList [PyInt 5])];
              Ok [one_flag "Safety" "Critical" (PyList [PyInt 1])] ]).
  { unfold three_categories. apply Permutation_sym.
    apply (Permutation_cons_app [_; _] [] _). apply Permutation_refl. }
  destruct merged_flags_ordered as (Hsorted & Hreturns & Htyped & Hfree & Hexample).
  split.
  - destruct (Htyped no_match three_doc three_categories) as (m & Hm & Hn).
    { unfold three_categories. cbn [flat_map results_of app].
      apply List.Forall_cons; [exists [5]; reflexivity |].
      apply List.Forall_cons; [exists [1]; reflexivity |].
      apply List.Forall_cons; [exists [3]; reflexivity |].
      apply List.Forall_nil. }
    destruct (Hsorted _ _ _ _ Hm) as (g & _ & _ & _ & Hs).
    exists m. split; [exact Hm |]. split; [apply Hs, Hn |].
    apply (Hfree _ _ _ _ _ Hperm Hm Hn).
    vm_compute in Hm. injection Hm as <-.
    vm_compute. repeat constructor; simpl; intuition lia.
  - apply Hexample. exact Hperm.
Defined.

(** The grouping does not look at the kind of the ids: a flag on the string
    [a] and a flag on 1 are both grouped, on a text that has a marker for
    each, and it is the sort that raises, on the comparison of the string
    with the number; two strings in one flag already stop the grouping, at
    [current_group[-1] + 1]. *)
Lemma mixed_first_ids_raise :
  (exists grouped,
      ContentFlagger._group_consecutive_flags example_search
        [ one_flag "A" "Low" (PyList [PyStr (lit "a")]);
          one_flag "B" "Low" (PyList [PyInt 1]) ] letter_doc = Ok grouped
      /\ map ContentFlagger.tag_numbers grouped = [[PyStr (lit "a")]; [PyInt 1]]
      /\ map ContentFlagger.text_evidence grouped = [lit "x"; lit "y"])
  /\ ContentFlagger.merged_flags example_search letter_doc
       [ Ok [ one_flag "A" "Low" (PyList [PyStr (lit "a")]);
              one_flag "B" "Low" (PyList [PyInt 1]) ] ] = Raise TypeError
  /\ ContentFlagger._group_consecutive_flags example_search
       [ one_flag "A" "Low" (PyList [PyStr (lit "a"); PyStr (lit "b")]) ]
       letter_doc = Raise TypeError
  /\ Untyped.group_consecutive_numbers [PyBool true; PyInt 2]
     = Ok [[PyBool true; PyInt 2]].
Proof.
  split; [| split; [| split]].
  - eexists. split; [vm_compute; reflexivity | split; reflexivity].
  - vm_compute. reflexivity.
  - vm_compute. reflexivity.
  - reflexivity.
Qed.

(** ** The renderers *)


Lemma skill_html_loop_spec (format_2f : Q -> str)
    (tag_skills : gmap Z (list HighlightingHelper.SkillInfo))
    (sentence_mapping : list (Z * str)) :
  (forall id l, tag_skills !! id = Some l -> l <> []) ->
  forall html_parts, exists fragments,
    HighlightingHelper.skill_html_loop format_2f sentence_mapping tag_skills html_parts
    = Ok (html_parts ++ fragments)
    /\ Forall2 (skill_fragment format_2f tag_skills) sentence_mapping fragments.
Proof.
  intros Hne.
  induction sentence_mapping as [|[tag_num text] rest IH]; intros acc.
  - exists []. simpl. rewrite app_nil_r. split; [reflexivity | constructor].
  - simpl. destruct (tag_skills !! tag_num) as [skills_list |] eqn:Hl.
    + destruct skills_list as [|s1 [|s2 ss]];
        cbn -[HighlightingHelper.span HighlightingHelper.dict_get lit join map].
      * exfalso. exact (Hne _ _ Hl eq_refl).
      * match goal with
        | |- context [HighlightingHelper.skill_html_loop _ rest tag_skills ?a] =>
            destruct (IH a) as (fr & -> & Hfr)
        end.
        eexists (_ :: fr). rewrite <- app_assoc. split; [reflexivity |].
        constructor; [| exact Hfr]. apply skill_single, Hl.
      * match goal with
        | |- context [HighlightingHelper.skill_html_loop _ rest tag_skills ?a] =>
            destruct (IH a) as (fr & -> & Hfr)
        end.
        eexists (_ :: fr). rewrite <- app_assoc. split; [reflexivity |].
        constructor; [| exact Hfr]. apply skill_multiple, Hl.
    + destruct (IH (acc ++ [text])) as (fr & -> & Hfr).
      exists (text :: fr). rewrite <- app_assoc. split; [reflexivity |].
      constructor; [| exact Hfr]. apply skill_plain, Hl.
Qed.

Section Index.

Context {A : Type}.

Lemma extend_extend (o : option (list A)) (l1 l2 : list A) :
  extend (extend o l1) l2 = extend o (l1 ++ l2).
Proof.
  destruct l1 as [|a l1]; [reflexivity |].
  destruct l2 as [|b l2]; simpl.
  - rewrite app_nil_r. reflexivity.
  - rewrite <- app_assoc. reflexivity.
Qed.

Lemma extend_nonempty (l l' : list A) : extend None l = Some l' -> l' <> [].
Proof. destruct l; simpl; [discriminate | intros [= <-]; discriminate]. Qed.

Lemma file_under_lookup (entry : A) (id : Z) (tag_numbers : list Z) :
  forall d : gmap Z (list A),
    file_under entry tag_numbers d !! id
    = extend (d !! id) (copies entry id tag_numbers).
Proof.
  unfold copies.
  induction tag_numbers as [|tag_num rest IH]; intros d; simpl; [reflexivity |].
  rewrite IH. rewrite lookup_insert.
  destruct (Z.eqb_spec id tag_num) as [-> | Hne]; simpl.
  - rewrite decide_True by reflexivity.
    change (Some (default [] (d !! tag_num) ++ [entry]))
      with (extend (d !! tag_num) [entry]).
    rewrite extend_extend. reflexivity.
  - rewrite decide_False by congruence. reflexivity.
Qed.

End Index.





Lemma tag_skills_loop_lookup (id : Z) (skill_tags : list HighlightingHelper.SkillTag) :
  forall tag_skills,
    HighlightingHelper.tag_skills_loop skill_tags tag_skills !! id
    = extend (tag_skills !! id) (covering_skills id skill_tags).
Proof.
  induction skill_tags as [|skill_tag rest IH]; intros d; simpl; [reflexivity |].
  rewrite IH, file_under_lookup, extend_extend. reflexivity.
Qed.





Lemma dict_get_in (table : list (str * str)) (key default : str) :
  In (HighlightingHelper.dict_get table key default) (default :: map snd table).
Proof.
  unfold HighlightingHelper.dict_get.
  destruct (List.find _ table) as [kv |] eqn:Hf; [| left; reflexivity].
  right. apply find_some in Hf as [Hin _]. apply in_map, Hin.
Qed.





(** ** Decimal notation *)

Lemma decimal_digits_acc (fuel : nat) : forall n acc,
  decimal_digits fuel n acc = decimal_digits fuel n [] ++ acc.
Proof.
  induction fuel as [|fuel IH]; intros n acc; simpl; [reflexivity |].
  destruct (n <? 10); [reflexivity |].
  rewrite IH. rewrite (IH _ [_]). rewrite <- app_assoc. reflexivity.
Qed.

Lemma code_digit_char (d : Z) :
  0 <= d < 10 -> code (digit_char d) = (48 + Z.to_nat d)%nat.
Proof.
  intros Hd. unfold code, digit_char. apply nat_ascii_embedding. lia.
Qed.

Lemma digit_char_is_digit (d : Z) : 0 <= d < 10 -> is_digit (digit_char d) = true.
Proof.
  intros Hd. unfold is_digit. rewrite (code_digit_char d Hd).
  apply andb_true_iff. split; apply Nat.leb_le; lia.
Qed.

Lemma digit_val_char (d : Z) : 0 <= d < 10 -> digit_val (digit_char d) = d.
Proof.
  intros Hd. unfold digit_val. rewrite (code_digit_char d Hd). lia.
Qed.

Lemma decimal_digits_all_digits (fuel : nat) : forall n,
  0 <= n -> Forall (fun c => is_digit c = true) (decimal_digits fuel n []).
Proof.
  induction fuel as [|fuel IH]; intros n Hn; simpl; [constructor |].
  assert (Hd : is_digit (digit_char (n mod 10)) = true).
  { apply digit_char_is_digit. apply Z.mod_pos_bound. lia. }
  destruct (n <? 10).
  - constructor; [exact Hd | constructor].
  - rewrite decimal_digits_acc. apply Forall_app. split.
    + apply IH. apply Z.div_pos; lia.
    + constructor; [exact Hd | constructor].
Qed.

Lemma int_of_digits_snoc (ds : str) (c : ascii) :
  int_of_digits (ds ++ [c]) = 10 * int_of_digits ds + digit_val c.
Proof. unfold int_of_digits. rewrite fold_left_app. reflexivity. Qed.

Lemma log2_tenth (n : Z) : 10 <= n -> Z.log2 (n / 10) < Z.log2 n.
Proof.
  intros Hn.
  assert (Hm : 0 < n / 10) by (apply Z.div_str_pos; lia).
  assert (Hle : 2 * (n / 10) <= n).
  { pose proof (Z.mul_div_le n 10). lia. }
  apply Z.log2_le_mono in Hle. rewrite Z.log2_double in Hle by exact Hm. lia.
Qed.

Lemma int_of_decimal_digits (fuel : nat) : forall n,
  0 <= n -> (Z.to_nat (Z.log2 n) < fuel)%nat ->
  int_of_digits (decimal_digits fuel n []) = n.
Proof.
  induction fuel as [|fuel IH]; intros n Hn Hfuel; [lia |].
  simpl. destruct (Z.ltb_spec n 10) as [Hlt | Hge].
  - unfold int_of_digits. simpl. rewrite Z.mod_small by lia.
    rewrite digit_val_char; lia.
  - rewrite decimal_digits_acc, int_of_digits_snoc.
    rewrite IH.
    + rewrite digit_val_char by (apply Z.mod_pos_bound; lia).
      pose proof (Z.div_mod n 10). lia.
    + apply Z.div_pos; lia.
    + pose proof (log2_tenth n Hge). pose proof (Z.log2_nonneg (n / 10)). lia.
Qed.

Lemma str_of_int_nonneg (n : Z) : 0 <= n -> str_of_int n = str_of_nonneg n.
Proof.
  intros Hn. unfold str_of_int. destruct (Z.ltb_spec n 0); [lia | reflexivity].
Qed.

Lemma str_of_int_digits (n : Z) :
  0 <= n -> Forall (fun c => is_digit c = true) (str_of_int n).
Proof.
  intros Hn. rewrite str_of_int_nonneg by exact Hn.
  apply decimal_digits_all_digits, Hn.
Qed.

Lemma str_of_nonneg_nonempty (n : Z) : str_of_nonneg n <> [].
Proof.
  unfold str_of_nonneg. simpl. destruct (n <? 10); [discriminate |].
  rewrite decimal_digits_acc. destruct (decimal_digits _ _ []); discriminate.
Qed.

Lemma str_of_int_nonempty (n : Z) : str_of_int n <> [].
Proof.
  unfold str_of_int. destruct (n <? 0); [discriminate | apply str_of_nonneg_nonempty].
Qed.

(** [int(str(n)) == n] for the ids that tagging writes. *)
Lemma int_of_str_of_int (n : Z) : 0 <= n -> int_of_digits (str_of_int n) = n.
Proof.
  intros Hn. rewrite str_of_int_nonneg by exact Hn.
  apply int_of_decimal_digits; [exact Hn | lia].
Qed.

Lemma minus_not_digit : is_digit "-"%char = false.
Proof. reflexivity. Qed.

Lemma str_of_int_inj (m n : Z) : str_of_int m = str_of_int n -> m = n.
Proof.
  intros Heq.
  destruct (Z.ltb_spec m 0) as [Hm | Hm], (Z.ltb_spec n 0) as [Hn | Hn].
  - unfold str_of_int in Heq.
    destruct (Z.ltb_spec m 0); [| lia]. destruct (Z.ltb_spec n 0); [| lia].
    injection Heq as Heq.
    apply (f_equal int_of_digits) in Heq.
    rewrite <- !str_of_int_nonneg in Heq by lia.
    rewrite !int_of_str_of_int in Heq by lia. lia.
  - exfalso. pose proof (str_of_int_digits n Hn) as Hd. rewrite <- Heq in Hd.
    unfold str_of_int in Hd. destruct (Z.ltb_spec m 0); [| lia].
    inversion Hd as [|? ? Hc _]. discriminate.
  - exfalso. pose proof (str_of_int_digits m Hm) as Hd. rewrite Heq in Hd.
    unfold str_of_int in Hd. destruct (Z.ltb_spec n 0); [| lia].
    inversion Hd as [|? ? Hc _]. discriminate.
  - apply (f_equal int_of_digits) in Heq.
    rewrite !int_of_str_of_int in Heq by lia. exact Heq.
Qed.

(** ** Prefixes and occurrences *)

Lemma char_eqb_eq (a b : ascii) : char_eqb a b = true <-> a = b.
Proof. apply Ascii.eqb_eq. Qed.

Lemma char_eqb_refl (a : ascii) : char_eqb a a = true.
Proof. apply Ascii.eqb_refl. Qed.

Lemma starts_with_app (p r : str) : starts_with p (p ++ r) = true.
Proof.
  induction p as [|a p IH]; simpl; [reflexivity |].
  rewrite char_eqb_refl, IH. reflexivity.
Qed.

Lemma starts_with_inv (p : str) : forall s,
  starts_with p s = true -> s = p ++ drop (length p) s.
Proof.
  induction p as [|a p IH]; intros s H; simpl in *; [reflexivity |].
  destruct s as [|b s]; [discriminate |].
  apply andb_true_iff in H as [Hab Hps].
  apply char_eqb_eq in Hab. subst b. simpl. f_equal. apply IH, Hps.
Qed.

Lemma starts_with_mono (p : str) : forall b y,
  starts_with p b = true -> starts_with p (b ++ y) = true.
Proof.
  induction p as [|a p IH]; intros b y H; simpl in *; [reflexivity |].
  destruct b as [|c b]; [discriminate |]. simpl.
  apply andb_true_iff in H as [Hac Hpb].
  rewrite Hac, (IH _ _ Hpb). reflexivity.
Qed.

Lemma drop_length_app (p r : str) : drop (length p) (p ++ r) = r.
Proof. induction p as [|a p IH]; simpl; [reflexivity | exact IH]. Qed.

(** A pattern without [<] does not reach over the [<] that follows [b]. *)
Lemma starts_with_angle_free (body : str) : forall b y,
  angle_free body = true -> at_angle y ->
  starts_with body (b ++ y) = true -> starts_with body b = true.
Proof.
  induction body as [|x body IH]; intros b y Hfree Hy H; [reflexivity |].
  simpl in Hfree. apply andb_true_iff in Hfree as [Hx Hfree].
  destruct b as [|c b]; simpl in *.
  - destruct Hy as [-> | [y' ->]]; simpl in H; [discriminate |].
    apply andb_true_iff in H as [Hxa _]. rewrite Hxa in Hx. discriminate.
  - apply andb_true_iff in H as [Hxc H]. rewrite Hxc. simpl.
    eapply IH; eassumption.
Qed.

Lemma starts_with_no_straddle (body b y : str) :
  angle_free body = true -> at_angle y -> b <> [] ->
  starts_with ("<"%char :: body) (b ++ y) = starts_with ("<"%char :: body) b.
Proof.
  intros Hfree Hy Hb. destruct b as [|c b]; [congruence |]. simpl.
  destruct (char_eqb "<" c); simpl; [| reflexivity].
  destruct (starts_with body (b ++ y)) eqn:H.
  - symmetry. eapply starts_with_angle_free; eassumption.
  - destruct (starts_with body b) eqn:H'; [| reflexivity].
    rewrite (starts_with_mono _ _ y H') in H. discriminate.
Qed.

Lemma contains_app_angle (body X Y : str) :
  angle_free body = true -> at_angle Y ->
  contains (X ++ Y) ("<"%char :: body)
  = (contains X ("<"%char :: body) || contains Y ("<"%char :: body))%bool.
Proof.
  intros Hfree HY. induction X as [|c X IH].
  - simpl. destruct Y; reflexivity.
  - change ((c :: X) ++ Y) with (c :: (X ++ Y)).
    cbn [contains]. rewrite IH.
    change (c :: (X ++ Y)) with ((c :: X) ++ Y).
    rewrite (starts_with_no_straddle body (c :: X) Y Hfree HY) by discriminate.
    rewrite orb_assoc. reflexivity.
Qed.

Lemma contains_skip_angle_free (body X R : str) :
  angle_free X = true ->
  contains (X ++ R) ("<"%char :: body) = contains R ("<"%char :: body).
Proof.
  induction X as [|c X IH]; intros Hfree; [reflexivity |].
  simpl in Hfree. apply andb_true_iff in Hfree as [Hc Hfree].
  change ((c :: X) ++ R) with (c :: (X ++ R)). cbn [contains starts_with].
  rewrite IH by exact Hfree.
  replace (char_eqb "<" c) with false; [reflexivity |].
  symmetry. apply negb_true_iff in Hc.
  destruct (char_eqb "<" c) eqn:E; [| reflexivity].
  apply char_eqb_eq in E. subst c. rewrite char_eqb_refl in Hc. discriminate.
Qed.

Lemma contains_false_cons (c : ascii) (s p : str) :
  contains (c :: s) p = false ->
  starts_with p (c :: s) = false /\ contains s p = false.
Proof. cbn [contains]. apply orb_false_iff. Qed.

(** ** Searching for a marker pair *)

Lemma search_absent (opening closing : str) (text : str) :
  contains text opening = false -> Regex.search opening closing text = None.
Proof.
  induction text as [|c text IH]; intros H.
  - simpl in *. unfold Regex.match_here.
    apply orb_false_iff in H as [-> _]. reflexivity.
  - apply contains_false_cons in H as [Hhere Hrest].
    cbn [Regex.search]. unfold Regex.match_here. rewrite Hhere.
    apply IH, Hrest.
Qed.

Lemma extract_absent (text : str) (tag_number : Z) :
  contains text (TextProcessor.open_marker tag_number) = false ->
  TextProcessor.extract_sentence_by_tag text tag_number = [].
Proof.
  intros H. unfold TextProcessor.extract_sentence_by_tag.
  rewrite search_absent by exact H. reflexivity.
Qed.

(** ** The shape of a tagged text *)

Lemma tag_loop_list (sentences : list str) : forall i tagged_sentences,
  TextProcessor.tag_loop (lit "tag") i sentences tagged_sentences
  = tagged_sentences ++ tag_list i sentences.
Proof.
  unfold tag_list.
  induction sentences as [|s rest IH]; intros i acc; simpl.
  - rewrite app_nil_r. reflexivity.
  - rewrite IH, <- app_assoc. reflexivity.
Qed.

Lemma tag_sentences_tagged_from (sent_tokenize : str -> list str) (text : str) :
  TextProcessor.tag_sentences sent_tokenize text
  = tagged_from 1 (TextProcessor.split_into_sentences sent_tokenize text).
Proof.
  unfold TextProcessor.tag_sentences, TextProcessor.tag_sentences_with, tagged_from.
  rewrite tag_loop_list. reflexivity.
Qed.

Lemma wrap_sentence_markers (i : Z) (s : str) :
  TextProcessor.wrap_sentence (lit "tag") i s
  = TextProcessor.open_marker i ++ s ++ TextProcessor.close_marker i.
Proof.
  unfold TextProcessor.wrap_sentence, TextProcessor.open_marker,
    TextProcessor.close_marker.
  cbn [lit list_ascii_of_string app]. rewrite <- !app_assoc. reflexivity.
Qed.

Lemma tagged_from_cons (i : Z) (s : str) (rest : list str) :
  tagged_from i (s :: rest)
  = TextProcessor.open_marker i ++ s ++ TextProcessor.close_marker i
    ++ tagged_tail (i + 1) rest.
Proof.
  unfold tagged_from, tag_list. cbn [enumerate map join fst snd].
  rewrite wrap_sentence_markers.
  destruct rest as [|s' rest]; cbn [enumerate map tagged_tail].
  - rewrite !app_nil_r. reflexivity.
  - rewrite <- !app_assoc. reflexivity.
Qed.

(** ** The characters of a marker *)

Lemma digit_not_angle (c : ascii) :
  is_digit c = true ->
  char_eqb c "<"%char = false /\ char_eqb c ">"%char = false.
Proof.
  intros Hd. split.
  - destruct (char_eqb c "<") eqn:E; [| reflexivity].
    apply char_eqb_eq in E. subst c. discriminate.
  - destruct (char_eqb c ">") eqn:E; [| reflexivity].
    apply char_eqb_eq in E. subst c. discriminate.
Qed.

Lemma digits_angle_free (ds : str) :
  Forall (fun c => is_digit c = true) ds ->
  angle_free ds = true /\ gt_free ds = true.
Proof.
  induction 1 as [|c ds Hc _ [IH1 IH2]]; [split; reflexivity |].
  destruct (digit_not_angle c Hc) as [H1 H2].
  unfold angle_free, gt_free. cbn [forallb].
  rewrite H1, H2. split; [exact IH1 | exact IH2].
Qed.

Lemma str_of_int_angle_free (n : Z) :
  angle_free (str_of_int n) = true /\ gt_free (str_of_int n) = true.
Proof.
  unfold str_of_int. destruct (Z.ltb_spec n 0) as [Hn | Hn].
  - destruct (digits_angle_free (str_of_nonneg (- n))) as [H1 H2].
    { apply decimal_digits_all_digits. lia. }
    unfold angle_free, gt_free in *. cbn [lit list_ascii_of_string app forallb].
    rewrite H1, H2. split; reflexivity.
  - apply digits_angle_free, decimal_digits_all_digits, Hn.
Qed.

Lemma angle_free_app (a b : str) :
  angle_free (a ++ b) = (angle_free a && angle_free b)%bool.
Proof. unfold angle_free. apply forallb_app. Qed.

Lemma open_marker_shape (id : Z) :
  exists body, TextProcessor.open_marker id = "<"%char :: body
               /\ angle_free body = true.
Proof.
  exists (lit "tag" ++ str_of_int id ++ lit ">"). split; [reflexivity |].
  rewrite !angle_free_app. rewrite (proj1 (str_of_int_angle_free id)). reflexivity.
Qed.

Lemma close_marker_shape (id : Z) :
  exists body, TextProcessor.close_marker id = "<"%char :: body
               /\ angle_free body = true.
Proof.
  exists (lit "/tag" ++ str_of_int id ++ lit ">"). split; [reflexivity |].
  rewrite !angle_free_app. rewrite (proj1 (str_of_int_angle_free id)). reflexivity.
Qed.

(** Two runs of characters that end at the first [>] and agree are equal. *)
Lemma starts_with_terminated (D : str) : forall Dj R,
  gt_free D = true -> gt_free Dj = true ->
  starts_with (D ++ lit ">") (Dj ++ lit ">" ++ R) = true -> D = Dj.
Proof.
  induction D as [|x D IH]; intros Dj R HD HDj H.
  - destruct Dj as [|c Dj]; [reflexivity |].
    cbn in H. cbn in HDj. apply andb_true_iff in HDj as [Hc _].
    apply andb_true_iff in H as [Hgc _].
    apply char_eqb_eq in Hgc. subst c. rewrite char_eqb_refl in Hc. discriminate.
  - cbn in HD. apply andb_true_iff in HD as [Hx HD].
    destruct Dj as [|c Dj].
    + cbn in H. apply andb_true_iff in H as [Hxg _].
      rewrite Hxg in Hx. discriminate.
    + cbn in H. cbn in HDj. apply andb_true_iff in HDj as [_ HDj].
      apply andb_true_iff in H as [Hxc H].
      apply char_eqb_eq in Hxc. subst c. f_equal.
      apply (IH Dj R); [exact HD | exact HDj | exact H].
Qed.

Lemma open_marker_mismatch (id j : Z) (R : str) :
  id <> j ->
  starts_with (TextProcessor.open_marker id) (TextProcessor.open_marker j ++ R) = false.
Proof.
  intros Hne. destruct (starts_with _ _) eqn:H; [exfalso | reflexivity].
  unfold TextProcessor.open_marker in H.
  cbn [lit list_ascii_of_string app starts_with] in H.
  rewrite !char_eqb_refl in H. cbn [andb] in H.
  rewrite <- app_assoc in H.
  apply starts_with_terminated in H.
  - apply Hne, str_of_int_inj, H.
  - apply str_of_int_angle_free.
  - apply str_of_int_angle_free.
Qed.

(** ** Markers that tagging did not write *)

Lemma contains_one_wrapped (id j : Z) (s tail : str) :
  id <> j ->
  contains s (TextProcessor.open_marker id) = false ->
  contains (TextProcessor.open_marker j ++ s ++ TextProcessor.close_marker j ++ tail)
    (TextProcessor.open_marker id)
  = contains tail (TextProcessor.open_marker id).
Proof.
  intros Hne Hs.
  pose proof (open_marker_mismatch id j (s ++ TextProcessor.close_marker j ++ tail) Hne)
    as Hhead.
  destruct (open_marker_shape id) as (body & Hid & Hbody).
  destruct (open_marker_shape j) as (bj & Hj & Hbj).
  destruct (close_marker_shape j) as (cj & Hcj & Hcjfree).
  rewrite Hid in *. rewrite Hj in *.
  change (("<"%char :: bj) ++ ?R) with ("<"%char :: (bj ++ R)) in *.
  cbn [contains]. rewrite Hhead. cbn [orb].
  rewrite contains_skip_angle_free by exact Hbj.
  rewrite contains_app_angle;
    [| exact Hbody | right; rewrite Hcj; eexists; reflexivity].
  rewrite Hs. cbn [orb].
  rewrite Hcj. change (("<"%char :: cj) ++ tail) with ("<"%char :: (cj ++ tail)).
  cbn [contains].
  rewrite contains_skip_angle_free by exact Hcjfree.
  replace (starts_with ("<"%char :: body) ("<"%char :: cj ++ tail)) with false;
    [reflexivity |].
  injection Hid as <-. injection Hcj as <-. reflexivity.
Qed.

Lemma tagged_no_foreign_marker (sentences : list str) : forall i id,
  id < i \/ i + Z.of_nat (length sentences) <= id ->
  Forall (fun s => contains s (TextProcessor.open_marker id) = false) sentences ->
  contains (tagged_from i sentences) (TextProcessor.open_marker id) = false.
Proof.
  induction sentences as [|s rest IH]; intros i id Hrange Hall.
  - reflexivity.
  - inversion Hall as [|? ? Hs Hrest]; subst.
    rewrite tagged_from_cons.
    rewrite contains_one_wrapped; [| cbn [length] in Hrange; lia | exact Hs].
    destruct rest as [|s' rest]; [reflexivity |].
    unfold tagged_tail.
    destruct (open_marker_shape id) as (body & Hid & Hbody). rewrite Hid.
    rewrite contains_skip_angle_free by reflexivity.
    rewrite <- Hid. apply IH; [| exact Hrest].
    cbn [length] in *. lia.
Qed.

(** C8, as amended: an id whose opening marker the tagged document does not
    hold is not found: [extract_sentence_by_tag] returns the empty string for
    it (the call is a total function, it cannot raise).  In the text that
    tagging writes for n sentences this is the case of every id below 1 or
    above n, unless a sentence itself holds that marker: the text of a
    sentence is written between its markers as it is.  An id that is not
    found adds nothing to the evidence of a run. *)
Theorem extract_out_of_range :
  (forall (text : str) (id : Z),
      contains text (TextProcessor.open_marker id) = false ->
      TextProcessor.extract_sentence_by_tag text id = [])
  /\ (forall (sent_tokenize : str -> list str) (text : str) (id : Z),
         id < 1
         \/ Z.of_nat (length (TextProcessor.split_into_sentences sent_tokenize text)) < id ->
         Forall (fun s => contains s (TextProcessor.open_marker id) = false)
           (TextProcessor.split_into_sentences sent_tokenize text) ->
         TextProcessor.extract_sentence_by_tag
           (TextProcessor.tag_sentences sent_tokenize text) id = [])
  /\ (forall (text : str) (run1 run2 : list Z) (id : Z),
         TextProcessor.extract_sentence_by_tag text id = [] ->
         TextProcessor.extract_sentences_for_tags text (run1 ++ id :: run2)
         = TextProcessor.extract_sentences_for_tags text (run1 ++ run2)).
Proof.
  split; [| split].
  - apply extract_absent.
  - intros sent_tokenize text id Hrange Hall.
    apply extract_absent. rewrite tag_sentences_tagged_from.
    apply tagged_no_foreign_marker; [lia | exact Hall].
  - intros text run1 run2 id Hid.
    rewrite !extract_sentences_found. unfold found_sentences.
    rewrite !List.filter_app. cbn [List.filter].
    unfold resolves at 2. rewrite Hid. reflexivity.
Qed.

(** C8 fails as stated: the text "A <tag9>x</tag9> b." is one sentence, so
    that id 9 is outside the range of its tagged form, and the lookup of 9
    returns "x", the text between the markers that the sentence holds; the
    evidence of the run 1, 9 ends with it. *)
Lemma extract_marker_of_a_sentence :
  TextProcessor.split_into_sentences period_tokenize (lit "A <tag9>x</tag9> b.")
  = [lit "A <tag9>x</tag9> b."]
  /\ Z.of_nat (length (TextProcessor.split_into_sentences period_tokenize
                         (lit "A <tag9>x</tag9> b."))) < 9
  /\ TextProcessor.tag_sentences period_tokenize (lit "A <tag9>x</tag9> b.")
     = lit "<tag1>A <tag9>x</tag9> b.</tag1>"
  /\ TextProcessor.extract_sentence_by_tag
       (TextProcessor.tag_sentences period_tokenize (lit "A <tag9>x</tag9> b.")) 9
     = lit "x"
  /\ TextProcessor.extract_sentence_by_tag
       (TextProcessor.tag_sentences period_tokenize (lit "A <tag9>x</tag9> b.")) 9
     <> []
  /\ TextProcessor.extract_sentences_for_tags
       (TextProcessor.tag_sentences period_tokenize (lit "A <tag9>x</tag9> b."))
       [1; 9]
     = lit "A <tag9>x</tag9> b. x"
  /\ TextProcessor.extract_sentences_for_tags
       (TextProcessor.tag_sentences period_tokenize (lit "A <tag9>x</tag9> b."))
       [1; 9]
     <> TextProcessor.extract_sentences_for_tags
          (TextProcessor.tag_sentences period_tokenize (lit "A <tag9>x</tag9> b."))
          [1].
Proof.
  repeat split; try (vm_compute; reflexivity); try (vm_compute; discriminate).
Qed.

(** ** The scan of a tagged text *)

Lemma take_while_digits (ds rest : str) :
  Forall (fun c => is_digit c = true) ds ->
  take_while is_digit (ds ++ lit ">" ++ rest) = ds.
Proof.
  induction 1 as [|c ds Hc _ IH]; [reflexivity |].
  cbn [app take_while]. rewrite Hc. f_equal. exact IH.
Qed.

Lemma lazy_until_eq (close s : str) :
  Regex.lazy_until close s
  = if starts_with close s then Some ([], drop (length close) s)
    else
      match s with
      | [] => None
      | c :: s' =>
          if is_dot c then
            match Regex.lazy_until close s' with
            | Some (g, rest) => Some (c :: g, rest)
            | None => None
            end
          else None
      end.
Proof. destruct s; reflexivity. Qed.

Lemma lazy_until_found (body g rest : str) :
  angle_free body = true ->
  forallb is_dot g = true ->
  contains g ("<"%char :: body) = false ->
  Regex.lazy_until ("<"%char :: body) (g ++ "<"%char :: (body ++ rest))
  = Some (g, rest).
Proof.
  intros Hfree. induction g as [|c g IH]; intros Hdot Hg.
  - cbn [app]. change ("<"%char :: body ++ rest) with (("<"%char :: body) ++ rest).
    rewrite lazy_until_eq, starts_with_app, drop_length_app. reflexivity.
  - apply contains_false_cons in Hg as [Hhere Hg].
    cbn [forallb] in Hdot. apply andb_true_iff in Hdot as [Hc Hdot].
    assert (Hs : starts_with ("<"%char :: body)
                   ((c :: g) ++ "<"%char :: (body ++ rest)) = false).
    { rewrite starts_with_no_straddle; [exact Hhere | exact Hfree | | discriminate].
      right. eexists. reflexivity. }
    rewrite lazy_until_eq, Hs. cbn [app].
    rewrite Hc, (IH Hdot Hg). reflexivity.
Qed.

(** ** The fuel of the scan

    Each match of the pair pattern consumes at least its markers, so the scan
    of a text takes at most as many steps as the text has characters: the
    result of [finditer] is the same for every fuel above the length of the
    text, and [scan_mapping] gives it one more than the length. *)

Lemma lazy_until_shorter (close : str) : forall s g rest,
  Regex.lazy_until close s = Some (g, rest) ->
  (length rest + length close <= length s)%nat.
Proof.
  induction s as [|c s IH]; intros g rest; rewrite lazy_until_eq.
  - destruct (starts_with close []) eqn:Hs; [| discriminate].
    intros [= <- <-]. apply starts_with_inv in Hs.
    apply (f_equal (@length ascii)) in Hs. rewrite length_app in Hs. lia.
  - destruct (starts_with close (c :: s)) eqn:Hs.
    + intros [= <- <-]. apply starts_with_inv in Hs.
      apply (f_equal (@length ascii)) in Hs. rewrite length_app in Hs. lia.
    + destruct (is_dot c); [| discriminate].
      destruct (Regex.lazy_until close s) as [[g' rest'] |] eqn:Hl; [| discriminate].
      intros [= <- <-]. specialize (IH _ _ eq_refl). cbn [length]. lia.
Qed.

Lemma pair_here_shorter (s ds g rest : str) :
  Regex.pair_here s = Some (ds, g, rest) -> (length rest < length s)%nat.
Proof.
  unfold Regex.pair_here.
  destruct (starts_with (lit "<tag") s) eqn:Hs; [| discriminate].
  apply starts_with_inv in Hs. apply (f_equal (@length ascii)) in Hs.
  rewrite length_app in Hs. cbn [lit list_ascii_of_string length] in Hs.
  destruct (is_empty _); [discriminate |].
  destruct (starts_with (lit ">") _); [| discriminate].
  destruct (Regex.lazy_until _ _) as [[g' rest'] |] eqn:Hl; [| discriminate].
  intros [= <- <- <-]. apply lazy_until_shorter in Hl.
  rewrite !length_drop in Hl. cbn [lit list_ascii_of_string length] in Hs. lia.
Qed.

Lemma finditer_enough_fuel (fuel1 : nat) : forall s fuel2,
  (length s < fuel1)%nat -> (length s < fuel2)%nat ->
  Regex.finditer fuel1 s = Regex.finditer fuel2 s.
Proof.
  induction fuel1 as [|fuel1 IH]; intros s fuel2 H1 H2; [lia |].
  destruct fuel2 as [|fuel2]; [lia |].
  cbn [Regex.finditer].
  destruct (Regex.pair_here s) as [[[ds g] rest] |] eqn:Hp.
  - apply pair_here_shorter in Hp. f_equal. apply IH; lia.
  - destruct s as [|c s]; [reflexivity |]. cbn [length] in *. apply IH; lia.
Qed.

Lemma scan_mapping_any_fuel (text : str) (fuel : nat) :
  (length text < fuel)%nat ->
  TextProcessor.scan_mapping text
  = map (fun m => (int_of_digits (fst m), snd m)) (Regex.finditer fuel text).
Proof.
  intros H. unfold TextProcessor.scan_mapping.
  rewrite (finditer_enough_fuel (S (length text)) text fuel); [reflexivity | lia | exact H].
Qed.

Lemma pair_here_wrapped (i : Z) (s tail : str) :
  0 <= i -> mappable (i, s) = true ->
  Regex.pair_here
    (TextProcessor.open_marker i ++ s ++ TextProcessor.close_marker i ++ tail)
  = Some (str_of_int i, s, tail).
Proof.
  intros Hi Hm. unfold mappable in Hm. cbn [fst snd] in Hm.
  apply andb_true_iff in Hm as [Hdot Hclose]. apply negb_true_iff in Hclose.
  pose proof (str_of_int_digits i Hi) as Hds.
  destruct (digits_angle_free _ Hds) as [Hfree _].
  unfold Regex.pair_here, TextProcessor.open_marker.
  rewrite <- !app_assoc. rewrite starts_with_app.
  change 4%nat with (length (lit "<tag")). rewrite drop_length_app.
  rewrite take_while_digits by exact Hds.
  destruct (is_empty (str_of_int i)) eqn:He.
  { destruct (str_of_int i) eqn:Hstr; [| discriminate].
    exfalso. exact (str_of_int_nonempty i Hstr). }
  rewrite drop_length_app.
  replace (starts_with (lit ">") (lit ">" ++ s ++ TextProcessor.close_marker i ++ tail))
    with true by reflexivity.
  replace (drop 1 (lit ">" ++ s ++ TextProcessor.close_marker i ++ tail))
    with (s ++ TextProcessor.close_marker i ++ tail) by reflexivity.
  unfold TextProcessor.close_marker in *.
  change (lit "</tag" ++ str_of_int i ++ lit ">")
    with ("<"%char :: (lit "/tag" ++ str_of_int i ++ lit ">")) in *.
  change (("<"%char :: (lit "/tag" ++ str_of_int i ++ lit ">")) ++ tail)
    with ("<"%char :: ((lit "/tag" ++ str_of_int i ++ lit ">") ++ tail)).
  rewrite lazy_until_found; [reflexivity | | exact Hdot | exact Hclose].
  rewrite !angle_free_app, Hfree. reflexivity.
Qed.

Lemma finditer_tagged (sentences : list str) : forall i fuel,
  0 <= i ->
  Forall (fun p => mappable p = true) (enumerate i sentences) ->
  (length (tagged_from i sentences) < fuel)%nat ->
  Regex.finditer fuel (tagged_from i sentences)
  = map (fun p => (str_of_int (fst p), snd p)) (enumerate i sentences).
Proof.
  induction sentences as [|s rest IH]; intros i fuel Hi Hall Hfuel.
  - destruct fuel; reflexivity.
  - cbn [enumerate] in Hall. inversion Hall as [|? ? Hs Hrest]; subst.
    rewrite tagged_from_cons in *.
    destruct fuel as [|fuel]; [lia |].
    cbn [Regex.finditer]. rewrite pair_here_wrapped by assumption.
    cbn [enumerate map fst snd]. f_equal.
    rewrite !length_app in Hfuel.
    assert (Hopen : (1 <= length (TextProcessor.open_marker i))%nat).
    { unfold TextProcessor.open_marker. cbn [lit list_ascii_of_string app length]. lia. }
    destruct rest as [|s' rest].
    + destruct fuel; reflexivity.
    + unfold tagged_tail in *. rewrite length_app in Hfuel.
      cbn [lit list_ascii_of_string length app] in *.
      destruct fuel as [|fuel]; [lia |].
      cbn [Regex.finditer]. unfold Regex.pair_here at 1.
      cbn [starts_with lit list_ascii_of_string].
      replace (char_eqb "<" " ") with false by reflexivity. cbn [andb].
      apply IH; [lia | exact Hrest | lia].
Qed.

Lemma enumerate_from (A : Type) (l : list A) : forall i p,
  In p (enumerate i l) -> i <= fst p.
Proof.
  induction l as [|x l IH]; intros i p Hin; [contradiction |].
  destruct Hin as [<- | Hin]; [simpl; lia |].
  apply IH in Hin. lia.
Qed.

Lemma scan_mapping_tagged (sentences : list str) (i : Z) :
  0 <= i ->
  Forall (fun p => mappable p = true) (enumerate i sentences) ->
  TextProcessor.scan_mapping (tagged_from i sentences) = enumerate i sentences.
Proof.
  intros Hi Hall. unfold TextProcessor.scan_mapping.
  rewrite finditer_tagged by (auto; lia).
  rewrite map_map. cbn [fst snd].
  rewrite <- (map_id (enumerate i sentences)) at 2.
  apply map_ext_in. intros [j s] Hin. cbn [fst snd].
  rewrite int_of_str_of_int; [reflexivity |].
  apply enumerate_from in Hin. simpl in Hin. lia.
Qed.

Lemma search_marker_tagged (sentences : list str) (i : Z) :
  0 <= i -> sentences <> [] ->
  Regex.search_marker (tagged_from i sentences) = true.
Proof.
  intros Hi Hne. destruct sentences as [|s rest]; [congruence |].
  rewrite tagged_from_cons.
  pose proof (str_of_int_digits i Hi) as Hds.
  assert (Hhere : Regex.marker_here
            (TextProcessor.open_marker i ++ s ++ TextProcessor.close_marker i
             ++ tagged_tail (i + 1) rest) = true).
  { unfold Regex.marker_here, TextProcessor.open_marker.
    rewrite <- !app_assoc. rewrite starts_with_app.
    change 4%nat with (length (lit "<tag")). rewrite drop_length_app.
    rewrite take_while_digits by exact Hds.
    destruct (str_of_int i) as [|d ds] eqn:Hstr;
      [exfalso; exact (str_of_int_nonempty i Hstr) |].
    rewrite drop_length_app. cbn [is_empty negb andb].
    apply starts_with_app. }
  destruct (TextProcessor.open_marker i ++ _) eqn:E;
    cbn [Regex.search_marker]; rewrite Hhere; reflexivity.
Qed.

Lemma split_empty_text (sent_tokenize : str -> list str) :
  TextProcessor.split_into_sentences sent_tokenize [] = [].
Proof. reflexivity. Qed.

Lemma mapping_of_tagged (sent_tokenize : str -> list str) (text : str) :
  Regex.search_marker text = true ->
  TextProcessor.get_sentence_mapping sent_tokenize text
  = TextProcessor.scan_mapping text.
Proof.
  intros H. unfold TextProcessor.get_sentence_mapping. rewrite H. reflexivity.
Qed.

Lemma mapping_of_untagged (sent_tokenize : str -> list str) (text : str) :
  Regex.search_marker text = false ->
  TextProcessor.get_sentence_mapping sent_tokenize text
  = TextProcessor.scan_mapping (TextProcessor.tag_sentences sent_tokenize text).
Proof.
  intros H. unfold TextProcessor.get_sentence_mapping. rewrite H. reflexivity.
Qed.

Lemma mapping_of_tag_sentences (sent_tokenize : str -> list str) (text : str) :
  TextProcessor.get_sentence_mapping sent_tokenize
    (TextProcessor.tag_sentences sent_tokenize text)
  = TextProcessor.scan_mapping (TextProcessor.tag_sentences sent_tokenize text).
Proof.
  destruct (TextProcessor.split_into_sentences sent_tokenize text) as [|s rest] eqn:Hs.
  - rewrite !tag_sentences_tagged_from, Hs.
    change (tagged_from 1 []) with (@nil ascii).
    rewrite mapping_of_untagged by reflexivity.
    rewrite tag_sentences_tagged_from, split_empty_text. reflexivity.
  - apply mapping_of_tagged. rewrite tag_sentences_tagged_from, Hs.
    apply search_marker_tagged; [lia | discriminate].
Qed.

(** ** Extraction from a tagged text *)

Lemma search_eq (opening closing s : str) :
  Regex.search opening closing s
  = match Regex.match_here opening closing s with
    | Some (g, _) => Some g
    | None =>
        match s with
        | [] => None
        | _ :: s' => Regex.search opening closing s'
        end
    end.
Proof. destruct s; reflexivity. Qed.

Lemma search_skip (body closing X Y : str) :
  angle_free body = true -> at_angle Y ->
  contains X ("<"%char :: body) = false ->
  Regex.search ("<"%char :: body) closing (X ++ Y)
  = Regex.search ("<"%char :: body) closing Y.
Proof.
  intros Hfree HY. induction X as [|c X IH]; intros HX; [reflexivity |].
  apply contains_false_cons in HX as [Hhere HX].
  rewrite search_eq. unfold Regex.match_here.
  rewrite starts_with_no_straddle by (auto; discriminate).
  rewrite Hhere. cbn [app]. apply IH, HX.
Qed.

Lemma tagged_from_at_angle (i : Z) (sentences : list str) :
  at_angle (tagged_from i sentences).
Proof.
  destruct sentences as [|s rest]; [left; reflexivity |].
  right. rewrite tagged_from_cons. eexists. reflexivity.
Qed.

Lemma extract_wrapped_here (i : Z) (s tail : str) :
  mappable (i, s) = true ->
  TextProcessor.extract_sentence_by_tag
    (TextProcessor.open_marker i ++ s ++ TextProcessor.close_marker i ++ tail) i
  = s.
Proof.
  intros Hm. unfold mappable in Hm. cbn [fst snd] in Hm.
  apply andb_true_iff in Hm as [Hdot Hclose]. apply negb_true_iff in Hclose.
  unfold TextProcessor.extract_sentence_by_tag.
  rewrite search_eq. unfold Regex.match_here.
  rewrite starts_with_app, drop_length_app.
  destruct (close_marker_shape i) as (cj & Hcj & Hcjfree). rewrite Hcj in *.
  change (("<"%char :: cj) ++ tail) with ("<"%char :: (cj ++ tail)).
  rewrite lazy_until_found by assumption. reflexivity.
Qed.

(** The round trip on the sentences without a line feed: the sentence that
    tagging numbered [i] is what extraction returns for [i], when it holds
    neither a line feed nor its closing marker and no sentence before it
    holds its opening marker. *)
Lemma extract_tagged_sentence (pre : list str) : forall i0 s post,
  Forall (fun p => contains p (TextProcessor.open_marker (i0 + Z.of_nat (length pre)))
                   = false) pre ->
  mappable (i0 + Z.of_nat (length pre), s) = true ->
  TextProcessor.extract_sentence_by_tag
    (tagged_from i0 (pre ++ s :: post)) (i0 + Z.of_nat (length pre))
  = s.
Proof.
  induction pre as [|p pre IH]; intros i0 s post Hpre Hs.
  - cbn [length app] in *. rewrite Z.add_0_r in *.
    rewrite tagged_from_cons. apply extract_wrapped_here, Hs.
  - inversion Hpre as [|? ? Hp Hpre']; subst.
    cbn [length] in *.
    replace (i0 + Z.of_nat (S (length pre))) with (i0 + 1 + Z.of_nat (length pre)) in * by lia.
    set (i := i0 + 1 + Z.of_nat (length pre)) in *.
    change ((p :: pre) ++ s :: post) with (p :: (pre ++ s :: post)).
    rewrite tagged_from_cons.
    destruct (pre ++ s :: post) as [|x rest] eqn:Hrest.
    { destruct pre; discriminate. }
    unfold tagged_tail. rewrite <- Hrest.
    unfold TextProcessor.extract_sentence_by_tag.
    destruct (open_marker_shape i) as (body & Hid & Hbody).
    rewrite !app_assoc. rewrite Hid.
    rewrite search_skip; [| exact Hbody | apply tagged_from_at_angle |].
    + rewrite <- Hid. apply IH; assumption.
    + rewrite <- Hid. rewrite <- !app_assoc.
      rewrite contains_one_wrapped; [reflexivity | unfold i; lia | exact Hp].
Qed.

(** C5 fails on the code: the text "Hello\nworld. Foo." has two sentences,
    the first one over two lines, and neither holds a marker; tagging numbers
    them 1 and 2, yet extraction returns the empty string for id 1 (the [.] of
    the pattern does not match the line feed), where the claim has the first
    sentence.  The second sentence is returned for id 2. *)
Theorem extract_sentence_over_two_lines :
  TextProcessor.split_into_sentences period_tokenize two_lines
  = [first_of_two_lines; lit "Foo."]
  /\ TextProcessor.extract_sentence_by_tag
       (TextProcessor.tag_sentences period_tokenize two_lines) 1 = []
  /\ TextProcessor.extract_sentence_by_tag
       (TextProcessor.tag_sentences period_tokenize two_lines) 2 = lit "Foo.".
Proof. repeat split; vm_compute; reflexivity. Qed.

(** C9, as amended: [get_sentence_mapping] detects tagging.  A text without a
    marker is tagged and then mapped, so its mapping is the mapping of its
    tagged form, and it is the pairs (1, s1) ... (n, sn) of its sentences
    when no sentence holds a line feed or its own closing marker; a text
    that holds a marker is mapped as it is, without being tagged again, so
    the pairs recovered from a tagged form are those it was written from. *)
Theorem mapping_auto_detects :
  (forall (sent_tokenize : str -> list str) (text : str),
      Regex.search_marker text = false ->
      TextProcessor.get_sentence_mapping sent_tokenize text
      = TextProcessor.get_sentence_mapping sent_tokenize
          (TextProcessor.tag_sentences sent_tokenize text))
  /\ (forall (sent_tokenize : str -> list str) (text : str),
         Regex.search_marker text = false ->
         Forall (fun p => mappable p = true)
           (enumerate 1 (TextProcessor.split_into_sentences sent_tokenize text)) ->
         TextProcessor.get_sentence_mapping sent_tokenize text
         = enumerate 1 (TextProcessor.split_into_sentences sent_tokenize text))
  /\ (forall (sent_tokenize : str -> list str) (text : str),
         Regex.search_marker text = true ->
         TextProcessor.get_sentence_mapping sent_tokenize text
         = TextProcessor.scan_mapping text)
  /\ (forall (sent_tokenize : str -> list str) (text : str),
         Forall (fun p => mappable p = true)
           (enumerate 1 (TextProcessor.split_into_sentences sent_tokenize text)) ->
         TextProcessor.get_sentence_mapping sent_tokenize
           (TextProcessor.tag_sentences sent_tokenize text)
         = enumerate 1 (TextProcessor.split_into_sentences sent_tokenize text)).
Proof.
  split; [| split; [| split]].
  - intros sent_tokenize text H.
    rewrite mapping_of_untagged by exact H.
    rewrite mapping_of_tag_sentences. reflexivity.
  - intros sent_tokenize text H Hall.
    rewrite mapping_of_untagged by exact H.
    rewrite tag_sentences_tagged_from.
    apply scan_mapping_tagged; [lia | exact Hall].
  - apply mapping_of_tagged.
  - intros sent_tokenize text Hall.
    rewrite mapping_of_tag_sentences, tag_sentences_tagged_from.
    apply scan_mapping_tagged; [lia | exact Hall].
Qed.

(** C9 fails as stated: the text "a</tag1>b." holds no marker that the
    detection looks for and is one sentence, yet its mapping pairs id 1 with
    "a", not with the sentence. *)
Lemma mapping_of_sentence_with_closing_marker :
  Regex.search_marker (lit "a</tag1>b.") = false
  /\ TextProcessor.split_into_sentences period_tokenize (lit "a</tag1>b.")
     = [lit "a</tag1>b."]
  /\ TextProcessor.get_sentence_mapping period_tokenize (lit "a</tag1>b.")
     = [(1, lit "a")].
Proof. repeat split; vm_compute; reflexivity. Qed.

(** C4, as amended: [tag_sentences] does not look for markers; tagging a
    tagged text wraps the sentences of that text, whatever they hold, so
    tag(tag(t)) is tag(t) where the tagged text splits into the sentences of
    t, as for a text without sentences, both sides being empty.  The
    detection of markers is in [get_sentence_mapping]: a tagged text with a
    sentence holds a marker, and is mapped as it is without being tagged
    again. *)
Theorem retagging :
  (forall (sent_tokenize : str -> list str) (text : str),
      TextProcessor.tag_sentences sent_tokenize
        (TextProcessor.tag_sentences sent_tokenize text)
      = tagged_from 1
          (TextProcessor.split_into_sentences sent_tokenize
             (TextProcessor.tag_sentences sent_tokenize text)))
  /\ (forall (sent_tokenize : str -> list str) (text : str),
         TextProcessor.split_into_sentences sent_tokenize
           (TextProcessor.tag_sentences sent_tokenize text)
         = TextProcessor.split_into_sentences sent_tokenize text ->
         TextProcessor.tag_sentences sent_tokenize
           (TextProcessor.tag_sentences sent_tokenize text)
         = TextProcessor.tag_sentences sent_tokenize text)
  /\ (forall (sent_tokenize : str -> list str) (text : str),
         TextProcessor.split_into_sentences sent_tokenize text = [] ->
         TextProcessor.tag_sentences sent_tokenize text = []
         /\ TextProcessor.tag_sentences sent_tokenize
              (TextProcessor.tag_sentences sent_tokenize text) = [])
  /\ (forall (sent_tokenize : str -> list str) (text : str),
         TextProcessor.split_into_sentences sent_tokenize text <> [] ->
         Regex.search_marker (TextProcessor.tag_sentences sent_tokenize text) = true
         /\ TextProcessor.get_sentence_mapping sent_tokenize
              (TextProcessor.tag_sentences sent_tokenize text)
            = TextProcessor.scan_mapping
                (TextProcessor.tag_sentences sent_tokenize text)).
Proof.
  split; [| split; [| split]].
  - intros. apply tag_sentences_tagged_from.
  - intros sent_tokenize text H.
    rewrite (tag_sentences_tagged_from _ (TextProcessor.tag_sentences _ _)), H.
    symmetry. apply tag_sentences_tagged_from.
  - intros sent_tokenize text H.
    assert (Ht : TextProcessor.tag_sentences sent_tokenize text = []).
    { rewrite tag_sentences_tagged_from, H. reflexivity. }
    split; [exact Ht |]. rewrite Ht.
    rewrite tag_sentences_tagged_from, split_empty_text. reflexivity.
  - intros sent_tokenize text H. split.
    + rewrite tag_sentences_tagged_from. apply search_marker_tagged; [lia | exact H].
    + apply mapping_of_tag_sentences.
Qed.

(** C4 fails as stated: the text "Hi." is not empty and is one sentence, and
    so is its tagged form; tagging the tagged form wraps it a second time. *)
Lemma retagging_wraps_again :
  TextProcessor.tag_sentences period_tokenize (lit "Hi.") = lit "<tag1>Hi.</tag1>"
  /\ TextProcessor.tag_sentences period_tokenize
       (TextProcessor.tag_sentences period_tokenize (lit "Hi."))
     = lit "<tag1><tag1>Hi.</tag1></tag1>"
  /\ TextProcessor.tag_sentences period_tokenize
       (TextProcessor.tag_sentences period_tokenize (lit "Hi."))
     <> TextProcessor.tag_sentences period_tokenize (lit "Hi.").
Proof.
  split; [vm_compute; reflexivity |].
  split; [vm_compute; reflexivity |].
  vm_compute. discriminate.
Qed.

(** ** Instances *)


(** A flag on sentences 1, 2, 3, 5, 6, 10 and 42 of a document of ten. *)
Lemma evidence_never_empty_witness :
  exists grouped,
    ContentFlagger._group_consecutive_flags no_match [sparse_flag] ten_doc
    = Ok grouped
    /\ Forall (fun e =>
         Untyped.extract_sentences_for_tags no_match ten_doc
           (ContentFlagger.tag_numbers e)
         = Ok (ContentFlagger.text_evidence e)
         /\ ContentFlagger.text_evidence e <> []
         /\ Exists (fun id =>
              exists text,
                Untyped.extract_sentence_by_tag no_match ten_doc id = Ok text
                /\ text <> [])
              (ContentFlagger.tag_numbers e)) grouped.
Proof.
  destruct evidence_never_empty as (_ & _ & _ & _ & Hreturns & Hentries).
  destruct (Hreturns no_match [sparse_flag] ten_doc) as [grouped Hg].
  - constructor; [| constructor].
    exists [1; 2; 3; 5; 6; 10; 42]. reflexivity.
  - exists grouped. split; [exact Hg |].
    exact (Hentries _ _ _ _ Hg).
Defined.

(** Id 99 in a document of one sentence. *)
Lemma extract_out_of_range_witness :
  TextProcessor.extract_sentence_by_tag
    (TextProcessor.tag_sentences period_tokenize (lit "Only one sentence.")) 99 = []
  /\ TextProcessor.extract_sentence_by_tag (lit "<tag1>Only one sentence.</tag1>") 99 = []
  /\ TextProcessor.extract_sentences_for_tags (lit "<tag1>Only one sentence.</tag1>")
       ([1] ++ 99 :: [])
     = TextProcessor.extract_sentences_for_tags (lit "<tag1>Only one sentence.</tag1>")
         ([1] ++ []).
Proof.
  split; [| split].
  - apply (proj1 (proj2 extract_out_of_range)).
    + right. vm_compute. reflexivity.
    + replace (TextProcessor.split_into_sentences period_tokenize (lit "Only one sentence."))
        with [lit "Only one sentence."] by (vm_compute; reflexivity).
      constructor; [vm_compute; reflexivity | constructor].
  - apply (proj1 extract_out_of_range). vm_compute. reflexivity.
  - apply (proj2 (proj2 extract_out_of_range)). vm_compute. reflexivity.
Defined.

(** The mapping of a text of two sentences, untagged and tagged. *)
Lemma mapping_auto_detects_witness :
  TextProcessor.get_sentence_mapping period_tokenize (lit "Hello world. How are you?")
  = TextProcessor.get_sentence_mapping period_tokenize
      (TextProcessor.tag_sentences period_tokenize (lit "Hello world. How are you?"))
  /\ TextProcessor.get_sentence_mapping period_tokenize (lit "Hello world. How are you?")
     = enumerate 1
         (TextProcessor.split_into_sentences period_tokenize
            (lit "Hello world. How are you?"))
  /\ TextProcessor.get_sentence_mapping period_tokenize
       (lit "<tag1>Hello world.</tag1> <tag2>How are you?</tag2>")
     = TextProcessor.scan_mapping
         (lit "<tag1>Hello world.</tag1> <tag2>How are you?</tag2>")
  /\ TextProcessor.get_sentence_mapping period_tokenize
       (TextProcessor.tag_sentences period_tokenize (lit "Hello world. How are you?"))
     = enumerate 1
         (TextProcessor.split_into_sentences period_tokenize
            (lit "Hello world. How are you?")).
Proof.
  assert (Hs : TextProcessor.split_into_sentences period_tokenize
                 (lit "Hello world. How are you?")
               = [lit "Hello world."; lit "How are you?"])
    by (vm_compute; reflexivity).
  assert (Hm : Forall (fun p => mappable p = true)
                 (enumerate 1
                    (TextProcessor.split_into_sentences period_tokenize
                       (lit "Hello world. How are you?")))).
  { rewrite Hs. repeat constructor. }
  split; [| split; [| split]].
  - apply (proj1 mapping_auto_detects). vm_compute. reflexivity.
  - apply (proj1 (proj2 mapping_auto_detects)); [vm_compute; reflexivity | exact Hm].
  - apply (proj1 (proj2 (proj2 mapping_auto_detects))). vm_compute. reflexivity.
  - apply (proj2 (proj2 (proj2 mapping_auto_detects))). exact Hm.
Defined.

(** Tagging twice a text of white space, and the marker of a tagged
    sentence. *)
Lemma retagging_witness :
  TextProcessor.tag_sentences period_tokenize
    (TextProcessor.tag_sentences period_tokenize (lit "   "))
  = TextProcessor.tag_sentences period_tokenize (lit "   ")
  /\ (TextProcessor.tag_sentences period_tokenize (lit "   ") = []
      /\ TextProcessor.tag_sentences period_tokenize
           (TextProcessor.tag_sentences period_tokenize (lit "   ")) = [])
  /\ (Regex.search_marker (TextProcessor.tag_sentences period_tokenize (lit "Hi."))
      = true
      /\ TextProcessor.get_sentence_mapping period_tokenize
           (TextProcessor.tag_sentences period_tokenize (lit "Hi."))
         = TextProcessor.scan_mapping
             (TextProcessor.tag_sentences period_tokenize (lit "Hi."))).
Proof.
  split; [| split].
  - apply (proj1 (proj2 retagging)). vm_compute. reflexivity.
  - apply (proj1 (proj2 (proj2 retagging))). vm_compute. reflexivity.
  - apply (proj2 (proj2 (proj2 retagging))). vm_compute. discriminate.
Defined.

(** * Further properties *)

(** ** Grouping *)

Lemma consecutive_app_last (cur : list Z) : forall x ext,
  cur <> [] -> consecutive (cur ++ x :: ext) -> x = List.last cur 0 + 1.
Proof.
  induction cur as [|a cur IH]; intros x ext Hne Hc; [congruence |].
  inversion Hc as [b Hb | b run Hrun Hhd Hb]; subst.
  - destruct cur; discriminate.
  - destruct cur as [|a' cur].
    + simpl in *. lia.
    + change (List.last (a :: a' :: cur) 0) with (List.last (a' :: cur) 0).
      apply (IH x ext); [discriminate | exact Hrun].
Qed.

Lemma consecutive_app_l (cur ext : list Z) :
  cur <> [] -> consecutive (cur ++ ext) -> consecutive cur.
Proof.
  induction cur as [|a cur IH]; intros Hne Hc; [congruence |].
  destruct cur as [|a' cur]; [constructor |].
  inversion Hc as [b Hb | b run Hrun Hhd Hb]; subst.
  constructor; [apply IH; [discriminate | exact Hrun] | exact Hhd].
Qed.

Lemma absorb_extension (ext : list Z) : forall cur rest,
  cur <> [] -> consecutive (cur ++ ext) ->
  absorb cur (ext ++ rest) = absorb (cur ++ ext) rest.
Proof.
  induction ext as [|x ext IH]; intros cur rest Hne Hc.
  - rewrite app_nil_r. reflexivity.
  - cbn [app absorb].
    rewrite (consecutive_app_last cur x ext Hne Hc), Z.eqb_refl.
    rewrite <- (consecutive_app_last cur x ext Hne Hc).
    rewrite IH.
    + rewrite <- app_assoc. reflexivity.
    + destruct cur; discriminate.
    + rewrite <- app_assoc. exact Hc.
Qed.

Lemma absorb_runs (rs : list (list Z)) : forall r,
  consecutive r -> Forall consecutive rs -> maximal (r :: rs) ->
  absorb r (concat rs) = r :: rs.
Proof.
  induction rs as [|r2 rs IH]; intros r Hr Hrs Hmax; [reflexivity |].
  inversion Hrs as [|? ? Hr2 Hrs']; subst.
  inversion Hmax as [| | ? ? ? Hgap Hmax']; subst.
  destruct r2 as [|m r2]; [inversion Hr2 |].
  cbn [concat app absorb]. cbn [List.hd] in Hgap.
  destruct (Z.eqb_spec m (List.last r 0 + 1)) as [Heq | _]; [contradiction |].
  f_equal. rewrite (absorb_extension r2 [m]); [| discriminate | exact Hr2].
  apply IH; assumption.
Qed.

(** Grouping is the only way to cut a list into maximal runs of consecutive
    integers. *)
Theorem group_unique (numbers : list Z) (groups : list (list Z)) :
  concat groups = numbers ->
  Forall consecutive groups ->
  maximal groups ->
  groups = TextProcessor.group_consecutive_numbers numbers.
Proof.
  intros <- Hc Hmax. destruct groups as [|r rs]; [reflexivity |].
  inversion Hc as [|? ? Hr Hrs]; subst.
  destruct r as [|n0 r]; [inversion Hr |].
  cbn [concat app TextProcessor.group_consecutive_numbers].
  rewrite group_loop_absorb. cbn [app].
  rewrite (absorb_extension r [n0]); [| discriminate | exact Hr].
  symmetry. apply absorb_runs; assumption.
Qed.

Lemma group_unique_witness :
  [[1; 2]; [4]] = TextProcessor.group_consecutive_numbers [1; 2; 4].
Proof.
  apply group_unique.
  - reflexivity.
  - repeat constructor.
  - constructor; [simpl; lia | constructor].
Defined.

Lemma consecutive_interval (run : list Z) :
  consecutive run -> run = interval (List.hd 0 run) (length run).
Proof.
  induction 1 as [a | a run Hrun IH Hhd]; [unfold interval; simpl; f_equal; lia |].
  cbn [List.hd length]. unfold interval. cbn [seq map].
  f_equal; [lia |].
  rewrite IH at 1. unfold interval. rewrite Hhd.
  rewrite <- seq_shift, map_map. apply map_ext. intros k. lia.
Qed.

Lemma strongly_sorted_app (R : Z -> Z -> Prop) (a b : list Z) :
  StronglySorted R (a ++ b) ->
  forall x y, In x a -> In y b -> R x y.
Proof.
  induction a as [|c a IH]; intros Hs x y Hx Hy; [contradiction |].
  cbn [app] in Hs. inversion Hs as [|? ? Hs' Hall]; subst.
  destruct Hx as [-> | Hx].
  - rewrite List.Forall_forall in Hall. apply Hall, in_or_app. right. exact Hy.
  - apply IH; assumption.
Qed.

Lemma strongly_sorted_app_r (R : Z -> Z -> Prop) (a b : list Z) :
  StronglySorted R (a ++ b) -> StronglySorted R b.
Proof.
  induction a as [|c a IH]; intros Hs; [exact Hs |].
  cbn [app] in Hs. inversion Hs; subst. apply IH. assumption.
Qed.

Lemma last_in (l : list Z) : l <> [] -> In (List.last l 0) l.
Proof.
  induction l as [|a l IH]; intros Hne; [congruence |].
  destruct l as [|b l]; [left; reflexivity |].
  right. apply IH. discriminate.
Qed.

Lemma hd_in (l : list Z) : l <> [] -> In (List.hd 0 l) l.
Proof. destruct l; [congruence | left; reflexivity]. Qed.

Lemma adjacent_runs_sorted (R : Z -> Z -> Prop) (groups : list (list Z)) :
  Forall (fun g => g <> []) groups ->
  StronglySorted R (concat groups) ->
  adjacent_runs R groups.
Proof.
  induction groups as [|r1 groups IH]; intros Hne Hs; [constructor |].
  inversion Hne as [|? ? Hr1 Hne']; subst.
  destruct groups as [|r2 groups]; [constructor |].
  inversion Hne' as [|? ? Hr2 _]; subst.
  constructor.
  - cbn [concat] in Hs.
    apply (strongly_sorted_app R r1 (r2 ++ concat groups) Hs).
    + apply last_in, Hr1.
    + apply in_or_app. left. apply hd_in, Hr2.
  - apply IH; [exact Hne' |].
    cbn [concat] in Hs. apply strongly_sorted_app_r in Hs. exact Hs.
Qed.

Lemma adjacent_runs_and (R S : Z -> Z -> Prop) (groups : list (list Z)) :
  adjacent_runs R groups -> maximal groups ->
  (forall a b, R a b -> b <> a + 1 -> S a b) ->
  adjacent_runs S groups.
Proof.
  intros HR Hmax HRS. induction HR as [| r | r1 r2 rs Hr _ IH]; try constructor.
  - inversion Hmax; subst. apply HRS; assumption.
  - inversion Hmax; subst. apply IH. assumption.
Qed.

(** Every group is an interval of integers: its first id and the ids that
    follow it one by one.  When the input is strictly increasing there is a
    gap between a group and the next (the next begins at least two above the
    end of the one); when it is merely sorted, a group that is not followed by
    a gap is followed by a repetition of its last id. *)
Theorem group_intervals_and_gaps (numbers : list Z) :
  Forall (fun g => g = interval (List.hd 0 g) (length g))
    (TextProcessor.group_consecutive_numbers numbers)
  /\ (StronglySorted Z.lt numbers ->
      adjacent_runs (fun a b => a + 2 <= b)
        (TextProcessor.group_consecutive_numbers numbers))
  /\ (StronglySorted Z.le numbers ->
      adjacent_runs (fun a b => b = a \/ a + 2 <= b)
        (TextProcessor.group_consecutive_numbers numbers)).
Proof.
  assert (Hc : Forall consecutive (TextProcessor.group_consecutive_numbers numbers))
    by apply group_consecutive_numbers_consecutive.
  assert (Hne : Forall (fun g => g <> []) (TextProcessor.group_consecutive_numbers numbers)).
  { eapply Forall_impl; [exact Hc | apply consecutive_nonempty]. }
  assert (Hcat : concat (TextProcessor.group_consecutive_numbers numbers) = numbers).
  { destruct numbers as [|n0 rest]; [reflexivity |]. simpl.
    rewrite group_loop_absorb. apply absorb_concat. }
  assert (Hmax : maximal (TextProcessor.group_consecutive_numbers numbers)).
  { destruct numbers as [|n0 rest]; [constructor |]. simpl.
    rewrite group_loop_absorb. apply absorb_maximal. }
  split; [| split].
  - eapply Forall_impl; [exact Hc | apply consecutive_interval].
  - intros Hs. rewrite <- Hcat in Hs.
    eapply adjacent_runs_and; [apply (adjacent_runs_sorted Z.lt) | exact Hmax |];
      [exact Hne | exact Hs | intros a b; cbv beta; lia].
  - intros Hs. rewrite <- Hcat in Hs.
    eapply adjacent_runs_and; [apply (adjacent_runs_sorted Z.le) | exact Hmax |];
      [exact Hne | exact Hs | intros a b; cbv beta; lia].
Qed.

Lemma group_intervals_and_gaps_witness :
  adjacent_runs (fun a b => a + 2 <= b)
    (TextProcessor.group_consecutive_numbers [1; 2; 3; 5; 6; 10])
  /\ adjacent_runs (fun a b => b = a \/ a + 2 <= b)
       (TextProcessor.group_consecutive_numbers [1; 2; 2; 3; 7]).
Proof.
  split.
  - apply (proj1 (proj2 (group_intervals_and_gaps _))).
    repeat (constructor; [| repeat (constructor; try lia)]). constructor.
  - apply (proj2 (proj2 (group_intervals_and_gaps _))).
    repeat (constructor; [| repeat (constructor; try lia)]). constructor.
Defined.

(** ** Sentences *)

Lemma drop_while_head {A : Type} (p : A -> bool) (l : list A) (c : A) (r : list A) :
  drop_while p l = c :: r -> p c = false.
Proof.
  induction l as [|x l IH]; simpl; [discriminate |].
  destruct (p x) eqn:Hx; [exact IH |].
  intros [= <- <-]. exact Hx.
Qed.

Lemma drop_while_all {A : Type} (p : A -> bool) (l : list A) :
  forallb p l = true -> drop_while p l = [].
Proof.
  induction l as [|x l IH]; simpl; [reflexivity |].
  intros H. apply andb_true_iff in H as [-> H]. apply IH, H.
Qed.

Lemma drop_while_suffix {A : Type} (p : A -> bool) (l : list A) :
  exists w, l = w ++ drop_while p l.
Proof.
  induction l as [|x l [w IH]]; simpl; [exists []; reflexivity |].
  destruct (p x); [| exists []; reflexivity].
  exists (x :: w). simpl. f_equal. exact IH.
Qed.

Lemma rstrip_prefix (t : str) : exists w, t = rstrip t ++ w.
Proof.
  unfold rstrip. destruct (drop_while_suffix is_space (rev t)) as [w Hw].
  exists (rev w). rewrite <- rev_app_distr, <- Hw, rev_involutive. reflexivity.
Qed.

Lemma strip_clean (s : str) :
  strip s <> [] -> starts_clean (strip s) = true /\ ends_clean (strip s) = true.
Proof.
  intros Hne. split.
  - unfold strip in *. destruct (rstrip_prefix (lstrip s)) as [w Hw].
    destruct (rstrip (lstrip s)) as [|c r] eqn:Hr; [congruence |].
    simpl. unfold lstrip in Hw. cbn [app] in Hw.
    apply drop_while_head in Hw. rewrite Hw. reflexivity.
  - unfold ends_clean, strip, rstrip in *. rewrite rev_involutive.
    destruct (drop_while is_space (rev (lstrip s))) as [|c r] eqn:Hr;
      [simpl in Hne; congruence |].
    simpl. apply drop_while_head in Hr. rewrite Hr. reflexivity.
Qed.

Lemma strip_blank (s : str) : forallb is_space s = true -> strip s = [].
Proof.
  intros H. unfold strip, lstrip. rewrite drop_while_all by exact H. reflexivity.
Qed.

(** Whatever the tokenizer returns, a sentence of [split_into_sentences] is
    not empty and neither begins nor ends with white space; there are at most
    as many sentences as the tokenizer returned; and a text of white space
    only has no sentence. *)
Theorem split_sentences_clean (sent_tokenize : str -> list str) (text : str) :
  Forall (fun s => s <> [] /\ starts_clean s = true /\ ends_clean s = true)
    (TextProcessor.split_into_sentences sent_tokenize text)
  /\ (length (TextProcessor.split_into_sentences sent_tokenize text)
      <= length (sent_tokenize text))%nat
  /\ (forallb is_space text = true ->
      TextProcessor.split_into_sentences sent_tokenize text = []).
Proof.
  unfold TextProcessor.split_into_sentences. split; [| split].
  - destruct (is_empty text || is_empty (strip text))%bool; [constructor |].
    apply List.Forall_forall. intros s Hin.
    apply filter_In in Hin as [Hin Hne].
    apply in_map_iff in Hin as (x & <- & _).
    assert (Hs : strip x <> []) by (destruct (strip x); [discriminate | discriminate]).
    split; [exact Hs | apply strip_clean, Hs].
  - destruct (is_empty text || is_empty (strip text))%bool; [simpl; lia |].
    etransitivity; [apply List.filter_length_le |]. rewrite length_map. lia.
  - intros H. rewrite (strip_blank text H). rewrite orb_true_r. reflexivity.
Qed.

Lemma split_sentences_clean_witness :
  TextProcessor.split_into_sentences period_tokenize (lit "   ") = [].
Proof.
  apply (proj2 (proj2 (split_sentences_clean period_tokenize (lit "   ")))).
  reflexivity.
Defined.

(** ** What a match holds *)

Lemma lazy_until_sound (close : str) : forall s g rest,
  Regex.lazy_until close s = Some (g, rest) ->
  s = g ++ close ++ rest
  /\ forallb is_dot g = true
  /\ (forall a b, g = a ++ b -> b <> [] ->
        starts_with close (b ++ close ++ rest) = false).
Proof.
  induction s as [|c s IH]; intros g rest; rewrite lazy_until_eq.
  - destruct (starts_with close []) eqn:Hs; [| discriminate].
    intros [= <- <-]. apply starts_with_inv in Hs.
    split; [exact Hs | split; [reflexivity |]].
    intros a b Hab Hb. destruct a, b; try discriminate. congruence.
  - destruct (starts_with close (c :: s)) eqn:Hs.
    + intros [= <- <-]. apply starts_with_inv in Hs.
      split; [exact Hs | split; [reflexivity |]].
      intros a b Hab Hb. destruct a, b; try discriminate. congruence.
    + destruct (is_dot c) eqn:Hc; [| discriminate].
      destruct (Regex.lazy_until close s) as [[g' rest'] |] eqn:Hl; [| discriminate].
      intros [= <- <-]. destruct (IH _ _ eq_refl) as (Heq & Hdot & Hearly).
      split; [cbn [app]; f_equal; exact Heq |].
      split; [cbn [forallb]; rewrite Hc; exact Hdot |].
      intros a b Hab Hb. destruct a as [|x a].
      * cbn [app] in Hab. subst b. cbn [app]. rewrite <- Heq. exact Hs.
      * injection Hab as _ Hab. apply (Hearly a b Hab Hb).
Qed.

Lemma no_early_close (body g rest : str) :
  angle_free body = true ->
  (forall a b, g = a ++ b -> b <> [] ->
     starts_with ("<"%char :: body) (b ++ ("<"%char :: body) ++ rest) = false) ->
  contains g ("<"%char :: body) = false.
Proof.
  intros Hfree. induction g as [|c g IH]; intros Hearly; [reflexivity |].
  cbn [contains]. apply orb_false_iff. split.
  - rewrite <- (starts_with_no_straddle body (c :: g) (("<"%char :: body) ++ rest));
      [| exact Hfree | right; eexists; reflexivity | discriminate].
    apply (Hearly [] (c :: g)); [reflexivity | discriminate].
  - apply IH. intros a b Hab Hb. apply (Hearly (c :: a) b); [| exact Hb].
    rewrite Hab. reflexivity.
Qed.

Lemma search_sound (opening closing : str) : forall s g,
  Regex.search opening closing s = Some g ->
  exists pre post,
    s = pre ++ opening ++ g ++ closing ++ post
    /\ forallb is_dot g = true
    /\ (forall a b, g = a ++ b -> b <> [] ->
          starts_with closing (b ++ closing ++ post) = false).
Proof.
  induction s as [|c s IH]; intros g; rewrite search_eq; unfold Regex.match_here.
  - destruct (starts_with opening []) eqn:Ho; [| discriminate].
    destruct (Regex.lazy_until closing _) as [[g' rest] |] eqn:Hl; [| discriminate].
    intros [= <-]. apply lazy_until_sound in Hl as (Heq & Hdot & Hearly).
    apply starts_with_inv in Ho.
    exists [], rest. cbn [app]. rewrite Ho at 1. rewrite Heq. auto.
  - destruct (starts_with opening (c :: s)) eqn:Ho.
    + destruct (Regex.lazy_until closing _) as [[g' rest] |] eqn:Hl.
      * intros [= <-]. apply lazy_until_sound in Hl as (Heq & Hdot & Hearly).
        apply starts_with_inv in Ho.
        exists [], rest. cbn [app]. rewrite Ho at 1. rewrite Heq. auto.
      * intros Hs. destruct (IH g Hs) as (pre & post & -> & Hdot & Hearly).
        exists (c :: pre), post. auto.
    + intros Hs. destruct (IH g Hs) as (pre & post & -> & Hdot & Hearly).
      exists (c :: pre), post. auto.
Qed.

(** A sentence that [extract_sentence_by_tag] returns stands in the text
    between the opening and the closing marker of the id; it holds no line
    feed and does not hold the closing marker. *)
Theorem extract_enclosed (text : str) (id : Z) :
  TextProcessor.extract_sentence_by_tag text id <> [] ->
  exists pre post,
    text = pre ++ TextProcessor.open_marker id
           ++ TextProcessor.extract_sentence_by_tag text id
           ++ TextProcessor.close_marker id ++ post
    /\ forallb is_dot (TextProcessor.extract_sentence_by_tag text id) = true
    /\ contains (TextProcessor.extract_sentence_by_tag text id)
         (TextProcessor.close_marker id) = false.
Proof.
  unfold TextProcessor.extract_sentence_by_tag.
  destruct (Regex.search _ _ text) as [g |] eqn:Hs; [| congruence].
  intros _. apply search_sound in Hs as (pre & post & Heq & Hdot & Hearly).
  exists pre, post. split; [exact Heq | split; [exact Hdot |]].
  destruct (close_marker_shape id) as (body & Hc & Hfree). rewrite Hc in *.
  eapply no_early_close; eassumption.
Qed.

Lemma extract_enclosed_witness :
  exists pre post,
    lit "<tag1>A.</tag1> <tag2>B.</tag2>"
    = pre ++ TextProcessor.open_marker 2
      ++ TextProcessor.extract_sentence_by_tag (lit "<tag1>A.</tag1> <tag2>B.</tag2>") 2
      ++ TextProcessor.close_marker 2 ++ post
    /\ forallb is_dot
         (TextProcessor.extract_sentence_by_tag (lit "<tag1>A.</tag1> <tag2>B.</tag2>") 2)
       = true
    /\ contains
         (TextProcessor.extract_sentence_by_tag (lit "<tag1>A.</tag1> <tag2>B.</tag2>") 2)
         (TextProcessor.close_marker 2) = false.
Proof. apply extract_enclosed. vm_compute. discriminate. Defined.

(** ** What the scan reports *)

Lemma take_while_split {A : Type} (p : A -> bool) (l : list A) :
  l = take_while p l ++ drop (length (take_while p l)) l
  /\ forallb p (take_while p l) = true.
Proof.
  induction l as [|x l [IH1 IH2]]; simpl; [split; reflexivity |].
  destruct (p x) eqn:Hx; simpl; [| split; reflexivity].
  rewrite Hx. split; [f_equal; exact IH1 | exact IH2].
Qed.

Lemma digits_forall (ds : str) :
  forallb is_digit ds = true -> Forall (fun c => is_digit c = true) ds.
Proof.
  intros H. apply List.Forall_forall. intros c Hc.
  rewrite forallb_forall in H. apply H, Hc.
Qed.

Lemma pair_here_sound (s ds g rest : str) :
  Regex.pair_here s = Some (ds, g, rest) ->
  s = lit "<tag" ++ ds ++ lit ">" ++ g ++ lit "</tag" ++ ds ++ lit ">" ++ rest
  /\ ds <> []
  /\ forallb is_digit ds = true
  /\ forallb is_dot g = true
  /\ contains g (lit "</tag" ++ ds ++ lit ">") = false.
Proof.
  unfold Regex.pair_here.
  destruct (starts_with (lit "<tag") s) eqn:Hs; [| discriminate].
  apply starts_with_inv in Hs. change (length (lit "<tag")) with 4%nat in Hs.
  destruct (take_while_split is_digit (drop 4 s)) as [Hsplit Hdig].
  set (digits := take_while is_digit (drop 4 s)) in *.
  destruct (is_empty digits) eqn:He; [discriminate |].
  destruct (starts_with (lit ">") (drop (length digits) (drop 4 s))) eqn:Hgt;
    [| discriminate].
  apply starts_with_inv in Hgt. change (length (lit ">")) with 1%nat in Hgt.
  destruct (Regex.lazy_until _ _) as [[g' rest'] |] eqn:Hl; [| discriminate].
  intros [= <- <- <-].
  apply lazy_until_sound in Hl as (Heq & Hdot & Hearly).
  split; [| split; [| split; [| split]]].
  - rewrite Hs at 1. f_equal. rewrite Hsplit at 1. f_equal.
    rewrite Hgt at 1. f_equal. rewrite Heq. rewrite <- !app_assoc. reflexivity.
  - destruct digits; [discriminate | discriminate].
  - exact Hdig.
  - exact Hdot.
  - change (lit "</tag" ++ digits ++ lit ">")
      with ("<"%char :: (lit "/tag" ++ digits ++ lit ">")) in *.
    eapply no_early_close; [| exact Hearly].
    rewrite !angle_free_app.
    rewrite (proj1 (digits_angle_free digits (digits_forall _ Hdig))). reflexivity.
Qed.

Lemma finditer_sound (fuel : nat) : forall s ds g,
  In (ds, g) (Regex.finditer fuel s) ->
  exists pre post,
    s = pre ++ lit "<tag" ++ ds ++ lit ">" ++ g ++ lit "</tag" ++ ds ++ lit ">" ++ post
    /\ ds <> []
    /\ forallb is_digit ds = true
    /\ forallb is_dot g = true
    /\ contains g (lit "</tag" ++ ds ++ lit ">") = false.
Proof.
  induction fuel as [|fuel IH]; intros s ds g Hin; [contradiction |].
  cbn [Regex.finditer] in Hin.
  destruct (Regex.pair_here s) as [[[ds' g'] rest] |] eqn:Hp.
  - pose proof (pair_here_sound _ _ _ _ Hp) as (Heq & Hrest).
    destruct Hin as [[= <- <-] | Hin].
    + exists [], rest. split; [exact Heq | exact Hrest].
    + destruct (IH _ _ _ Hin) as (pre & post & Heq' & Hrest').
      exists (lit "<tag" ++ ds' ++ lit ">" ++ g' ++ lit "</tag" ++ ds' ++ lit ">" ++ pre), post.
      split; [| exact Hrest'].
      rewrite Heq, Heq'. rewrite <- !app_assoc. reflexivity.
  - destruct s as [|c s]; [contradiction |].
    destruct (IH _ _ _ Hin) as (pre & post & -> & Hrest).
    exists (c :: pre), post. split; [reflexivity | exact Hrest].
Qed.

Lemma int_of_digits_nonneg (ds : str) :
  forallb is_digit ds = true -> 0 <= int_of_digits ds.
Proof.
  unfold int_of_digits.
  enough (H : forall acc, 0 <= acc -> forallb is_digit ds = true ->
                0 <= fold_left (fun acc c => 10 * acc + digit_val c) ds acc)
    by (apply H; lia).
  induction ds as [|c ds IH]; intros acc Hacc Hd; [exact Hacc |].
  cbn [forallb] in Hd. apply andb_true_iff in Hd as [Hc Hd].
  cbn [fold_left]. apply IH; [| exact Hd].
  unfold is_digit in Hc. apply andb_true_iff in Hc as [Hlo _].
  apply Nat.leb_le in Hlo. unfold digit_val. lia.
Qed.

(** A pair of the sentence mapping is in the text that was scanned, the
    given text when it holds a marker and its tagged form otherwise: the
    sentence stands between an opening and a closing marker with the same
    digits, the id is the number the digits write (never negative), and the
    sentence holds no line feed and not that closing marker. *)
Theorem mapping_pairs_in_text (sent_tokenize : str -> list str) (text : str)
    (id : Z) (s : str) :
  In (id, s) (TextProcessor.get_sentence_mapping sent_tokenize text) ->
  exists scanned ds pre post,
    scanned = (if Regex.search_marker text then text
               else TextProcessor.tag_sentences sent_tokenize text)
    /\ scanned = pre ++ lit "<tag" ++ ds ++ lit ">" ++ s
                 ++ lit "</tag" ++ ds ++ lit ">" ++ post
    /\ ds <> []
    /\ forallb is_digit ds = true
    /\ id = int_of_digits ds
    /\ 0 <= id
    /\ forallb is_dot s = true
    /\ contains s (lit "</tag" ++ ds ++ lit ">") = false.
Proof.
  unfold TextProcessor.get_sentence_mapping, TextProcessor.scan_mapping.
  destruct (Regex.search_marker text); cbn [negb]; intros Hin;
    apply in_map_iff in Hin as ([ds g] & [= <- <-] & Hin);
    apply finditer_sound in Hin as (pre & post & Heq & Hne & Hdig & Hdot & Hclose);
    eexists _, ds, pre, post; cbn [fst snd];
    (split; [reflexivity |]); repeat split; auto using int_of_digits_nonneg.
Qed.

Lemma mapping_pairs_in_text_witness :
  exists scanned ds pre post,
    scanned = (if Regex.search_marker (lit "<tag07>Hi.</tag07>")
               then lit "<tag07>Hi.</tag07>"
               else TextProcessor.tag_sentences period_tokenize (lit "<tag07>Hi.</tag07>"))
    /\ scanned = pre ++ lit "<tag" ++ ds ++ lit ">" ++ lit "Hi."
                 ++ lit "</tag" ++ ds ++ lit ">" ++ post
    /\ ds <> []
    /\ forallb is_digit ds = true
    /\ 7 = int_of_digits ds
    /\ 0 <= 7
    /\ forallb is_dot (lit "Hi.") = true
    /\ contains (lit "Hi.") (lit "</tag" ++ ds ++ lit ">") = false.
Proof.
  apply (mapping_pairs_in_text period_tokenize (lit "<tag07>Hi.</tag07>") 7 (lit "Hi.")).
  vm_compute. left. reflexivity.
Defined.

(** ** Evidence *)

Lemma join_cons (sep x : str) (l : list str) :
  l <> [] -> join sep (x :: l) = x ++ sep ++ join sep l.
Proof. destruct l; [congruence | reflexivity]. Qed.

Lemma join_space_app (l1 l2 : list str) :
  Forall (fun p => p <> []) l1 -> Forall (fun p => p <> []) l2 ->
  join (lit " ") (l1 ++ l2) = glue (join (lit " ") l1) (join (lit " ") l2).
Proof.
  intros H1 H2. induction H1 as [|x l1 Hx H1 IH].
  - cbn [app join glue]. destruct (join (lit " ") l2); reflexivity.
  - destruct x as [|c x]; [congruence |].
    destruct l1 as [|y l1].
    + cbn [app] in *. destruct l2 as [|z l2]; [reflexivity |].
      rewrite join_cons by discriminate.
      assert (Hj2 : join (lit " ") (z :: l2) <> [])
        by (apply join_nonempty; [discriminate | exact H2]).
      destruct (join (lit " ") (z :: l2)); [congruence | reflexivity].
    + cbn [app] in *. rewrite join_cons by discriminate. rewrite IH.
      rewrite (join_cons _ (c :: x) (y :: l1)) by discriminate.
      assert (Hj1 : join (lit " ") (y :: l1) <> [])
        by (apply join_nonempty; [discriminate | exact H1]).
      destruct (join (lit " ") (y :: l1)) as [|d j1]; [congruence |].
      destruct (join (lit " ") l2) as [|e j2]; [reflexivity |].
      cbn [glue app]. rewrite <- !app_assoc. reflexivity.
Qed.

(** The evidence of two runs one after the other is their evidences joined
    by a space; an empty evidence adds nothing, not even the space. *)
Theorem evidence_of_concatenated_runs (tagged_content : str) (run1 run2 : list Z) :
  TextProcessor.extract_sentences_for_tags tagged_content (run1 ++ run2)
  = glue (TextProcessor.extract_sentences_for_tags tagged_content run1)
         (TextProcessor.extract_sentences_for_tags tagged_content run2).
Proof.
  rewrite !extract_sentences_found. unfold found_sentences.
  rewrite List.filter_app, map_app.
  apply join_space_app; apply found_sentences_nonempty.
Qed.

(** ** The round trip on plain sentences *)

Lemma split_nonempty (sent_tokenize : str -> list str) (text : str) :
  Forall (fun s => s <> []) (TextProcessor.split_into_sentences sent_tokenize text).
Proof.
  unfold TextProcessor.split_into_sentences.
  destruct (is_empty text || is_empty (strip text))%bool; [constructor |].
  apply List.Forall_forall. intros s Hin. apply filter_In in Hin as [_ Hne].
  destruct s; [discriminate | discriminate].
Qed.

Lemma starts_with_prefix (p q : str) : forall s,
  starts_with (p ++ q) s = true -> starts_with p s = true.
Proof.
  induction p as [|a p IH]; intros s H; [reflexivity |].
  destruct s as [|b s]; [discriminate |].
  cbn [app starts_with] in *. apply andb_true_iff in H as [-> H].
  apply IH, H.
Qed.

Lemma contains_longer (s p q : str) :
  contains s p = false -> contains s (p ++ q) = false.
Proof.
  induction s as [|c s IH]; cbn [contains]; intros H;
    apply orb_false_iff in H as [Hhere Hrest]; apply orb_false_iff; split.
  - destruct (starts_with (p ++ q) []) eqn:E; [| reflexivity].
    apply starts_with_prefix in E. congruence.
  - reflexivity.
  - destruct (starts_with (p ++ q) (c :: s)) eqn:E; [| reflexivity].
    apply starts_with_prefix in E. congruence.
  - apply IH, Hrest.
Qed.

Lemma plain_mappable (i : Z) (s : str) :
  plain_sentence s = true -> mappable (i, s) = true.
Proof.
  unfold plain_sentence, mappable. cbn [fst snd]. intros H.
  apply andb_true_iff in H as [H Hclose]. apply andb_true_iff in H as [Hdot _].
  rewrite Hdot. cbn [andb]. apply negb_true_iff in Hclose.
  unfold TextProcessor.close_marker.
  rewrite (contains_longer s (lit "</tag") _ Hclose). reflexivity.
Qed.

Lemma plain_no_open_marker (k : Z) (s : str) :
  plain_sentence s = true -> contains s (TextProcessor.open_marker k) = false.
Proof.
  unfold plain_sentence. intros H.
  apply andb_true_iff in H as [H _]. apply andb_true_iff in H as [_ Hopen].
  apply negb_true_iff in Hopen. unfold TextProcessor.open_marker.
  apply contains_longer, Hopen.
Qed.

Lemma extract_plain_at (pre : list str) (s : str) (post : list str) :
  Forall (fun x => plain_sentence x = true) (pre ++ s :: post) ->
  TextProcessor.extract_sentence_by_tag (tagged_from 1 (pre ++ s :: post))
    (1 + Z.of_nat (length pre)) = s.
Proof.
  intros Hall. apply Forall_app in Hall as [Hpre Hrest].
  inversion Hrest as [|? ? Hs _]; subst.
  apply extract_tagged_sentence.
  - eapply Forall_impl; [exact Hpre |]. intros x Hx. apply plain_no_open_marker, Hx.
  - apply plain_mappable, Hs.
Qed.

Lemma found_all_plain (rest : list str) : forall pre,
  Forall (fun x => plain_sentence x = true) (pre ++ rest) ->
  Forall (fun x => x <> []) rest ->
  found_sentences (tagged_from 1 (pre ++ rest))
    (map fst (enumerate (1 + Z.of_nat (length pre)) rest)) = rest.
Proof.
  induction rest as [|s rest IH]; intros pre Hall Hne; [reflexivity |].
  inversion Hne as [|? ? Hs Hne']; subst.
  unfold found_sentences in *. cbn [enumerate map fst List.filter].
  unfold resolves at 1. rewrite extract_plain_at by exact Hall.
  destruct s as [|c s]; [congruence |]. cbn [is_empty negb map].
  rewrite extract_plain_at by exact Hall. f_equal.
  specialize (IH (pre ++ [c :: s])).
  rewrite <- app_assoc in IH. cbn [app] in IH.
  rewrite length_app in IH. cbn [length] in IH.
  replace (1 + Z.of_nat (length pre + 1)) with (1 + Z.of_nat (length pre) + 1) in IH by lia.
  apply IH; assumption.
Qed.

(** The round trip of tagging and extraction, on plain sentences: when no
    sentence of the text holds a line feed or the beginning of a marker,
    extraction of id i + 1 from the tagged text returns the sentence at
    index i. *)
Theorem extract_round_trip_plain (sent_tokenize : str -> list str) (text : str)
    (i : nat) (s : str) :
  Forall (fun x => plain_sentence x = true)
    (TextProcessor.split_into_sentences sent_tokenize text) ->
  nth_error (TextProcessor.split_into_sentences sent_tokenize text) i = Some s ->
  TextProcessor.extract_sentence_by_tag
    (TextProcessor.tag_sentences sent_tokenize text) (Z.of_nat i + 1) = s.
Proof.
  intros Hall Hnth. rewrite tag_sentences_tagged_from.
  apply nth_error_split in Hnth as (pre & post & Heq & Hlen).
  rewrite Heq in *. subst i.
  replace (Z.of_nat (length pre) + 1) with (1 + Z.of_nat (length pre)) by lia.
  apply extract_plain_at, Hall.
Qed.

Lemma extract_round_trip_plain_witness :
  TextProcessor.extract_sentence_by_tag
    (TextProcessor.tag_sentences period_tokenize (lit "First. Second. Third."))
    (Z.of_nat 1 + 1) = lit "Second.".
Proof.
  apply extract_round_trip_plain.
  - replace (TextProcessor.split_into_sentences period_tokenize (lit "First. Second. Third."))
      with [lit "First."; lit "Second."; lit "Third."] by (vm_compute; reflexivity).
    repeat constructor.
  - vm_compute. reflexivity.
Defined.

(** The evidence of the run of all the ids of a tagged text is the text
    without its markers: the sentences joined by single spaces, when they
    are plain. *)
Theorem evidence_of_all_sentences (sent_tokenize : str -> list str) (text : str) :
  Forall (fun x => plain_sentence x = true)
    (TextProcessor.split_into_sentences sent_tokenize text) ->
  TextProcessor.extract_sentences_for_tags
    (TextProcessor.tag_sentences sent_tokenize text)
    (map fst (enumerate 1 (TextProcessor.split_into_sentences sent_tokenize text)))
  = join (lit " ") (TextProcessor.split_into_sentences sent_tokenize text).
Proof.
  intros Hall. rewrite extract_sentences_found, tag_sentences_tagged_from.
  f_equal. apply (found_all_plain _ []); [exact Hall | apply split_nonempty].
Qed.

Lemma evidence_of_all_sentences_witness :
  TextProcessor.extract_sentences_for_tags
    (TextProcessor.tag_sentences period_tokenize (lit "First. Second. Third."))
    (map fst (enumerate 1
       (TextProcessor.split_into_sentences period_tokenize (lit "First. Second. Third."))))
  = join (lit " ")
      (TextProcessor.split_into_sentences period_tokenize (lit "First. Second. Third.")).
Proof.
  apply evidence_of_all_sentences.
  replace (TextProcessor.split_into_sentences period_tokenize (lit "First. Second. Third."))
    with [lit "First."; lit "Second."; lit "Third."] by (vm_compute; reflexivity).
  repeat constructor.
Defined.

(** ** Where the grouped flags come from *)

Lemma flags_loop_blocks search_value tagged_content flags_raw : forall grouped,
  ContentFlagger.flags_loop search_value flags_raw tagged_content [] = Ok grouped ->
  exists blocks,
    Forall2 (fun flag es => flag_entries search_value tagged_content flag = Ok es)
      flags_raw blocks
    /\ grouped = concat blocks.
Proof.
  induction flags_raw as [|flag rest IH]; intros grouped.
  - intros [= <-]. exists []. split; [constructor | reflexivity].
  - rewrite flags_loop_cons.
    destruct (flag_entries search_value tagged_content flag) as [es | e] eqn:Hes;
      cbn [bind]; [| discriminate].
    destruct (ContentFlagger.flags_loop search_value rest tagged_content [])
      as [r | e]; cbn [bind]; [| discriminate].
    intros [= <-]. destruct (IH r eq_refl) as (blocks & Hb & ->).
    exists (es :: blocks). split; [constructor; assumption | reflexivity].
Qed.

(** The grouped flags are, flag after flag in the order of the raw flags,
    the entries of each flag; every entry of a flag carries the issue type,
    severity, confidence and rationale of the flag as they are (or "Unknown",
    "Low", 0.5 and the empty string for a missing field), the ids of its run
    are ids of the flag, and its evidence is the evidence of its run and is
    not empty. *)
Theorem grouped_flags_provenance
    (search_value : PyVal -> str -> outcome (option str))
    (flags_raw : list ContentFlagger.RawFlag)
    (tagged_content : str) (grouped : list ContentFlagger.GroupedFlag) :
  ContentFlagger._group_consecutive_flags search_value flags_raw tagged_content
  = Ok grouped ->
  exists blocks,
    grouped = concat blocks
    /\ Forall2 (fun flag es =>
                  Forall (entry_of_flag search_value tagged_content flag) es)
         flags_raw blocks.
Proof.
  intros Hg. apply flags_loop_blocks in Hg as (blocks & Hb & ->).
  exists blocks. split; [reflexivity |].
  induction Hb as [|flag es rest blocks Hes _ IH]; constructor; [| exact IH].
  eapply Forall_impl; [eapply flag_entries_spec, Hes |].
  intros e [_ H]. exact H.
Qed.

Lemma grouped_flags_provenance_witness :
  exists blocks,
    [ {| ContentFlagger.issue_type := lit "Unknown";
         ContentFlagger.severity_level := lit "Low";
         ContentFlagger.confidence := (1 # 2)%Q;
         ContentFlagger.text_evidence := lit "S2. S3.";
         ContentFlagger.rationale := [];
         ContentFlagger.tag_numbers := [PyInt 2; PyInt 3] |} ] = concat blocks
    /\ Forall2 (fun flag es => Forall (entry_of_flag no_match ten_doc flag) es)
         [ {| ContentFlagger.raw_issue_type := None;
              ContentFlagger.raw_severity_level := None;
              ContentFlagger.raw_confidence := None;
              ContentFlagger.raw_rationale := None;
              ContentFlagger.raw_tag_numbers := Some (PyList [PyInt 3; PyInt 2]) |} ]
         blocks.
Proof.
  apply (grouped_flags_provenance no_match _ ten_doc). vm_compute. reflexivity.
Defined.

(** ** The result of [flag_story] *)

Lemma str_eqb_eq (a : str) : forall b, str_eqb a b = true <-> a = b.
Proof.
  induction a as [|x a IH]; intros [|y b]; simpl; split; try discriminate; auto.
  - intros H. apply andb_true_iff in H as [Hxy Hab].
    apply char_eqb_eq in Hxy. apply IH in Hab. congruence.
  - intros [= -> ->]. rewrite char_eqb_refl. apply IH. reflexivity.
Qed.




(** A category check that raised leaves the result of [flag_story] as it is
    without that category, and so does a check that returned no flag: the
    failure of one category neither fails the story nor changes what the
    others contribute. *)
Theorem failed_category_ignored
    (search_value : PyVal -> str -> outcome (option str))
    (sent_tokenize : str -> list str)
    (tagged_content : str)
    (before after : list (outcome (list ContentFlagger.RawFlag))) (e : exn) :
  ContentFlagger.flag_story search_value sent_tokenize tagged_content
    (before ++ Raise e :: after)
  = ContentFlagger.flag_story search_value sent_tokenize tagged_content
      (before ++ after)
  /\ ContentFlagger.flag_story search_value sent_tokenize tagged_content
       (before ++ Ok [] :: after)
     = ContentFlagger.flag_story search_value sent_tokenize tagged_content
         (before ++ after).
Proof.
  unfold ContentFlagger.flag_story, ContentFlagger.merged_flags.
  rewrite !collect_loop_flat, !flat_map_app. cbn [flat_map results_of app].
  split; reflexivity.
Qed.

Lemma flag_html_loop_no_flags (sentence_mapping : list (Z * str)) :
  forall html_parts,
    HighlightingHelper.flag_html_loop sentence_mapping ∅ html_parts
    = Ok (html_parts ++ map snd sentence_mapping).
Proof.
  induction sentence_mapping as [|[id text] rest IH]; intros acc; simpl.
  - rewrite app_nil_r. reflexivity.
  - rewrite lookup_empty, IH, <- app_assoc. reflexivity.
Qed.

Lemma map_snd_enumerate {A : Type} (l : list A) : forall i,
  map snd (enumerate i l) = l.
Proof. induction l as [|x l IH]; intros i; simpl; [| rewrite IH]; reflexivity. Qed.

(** A story without a flag: when every category check raised or returned
    nothing, [flag_story] on the tagged form of a text with plain sentences
    reports no flag and no critical flag, and its highlighted text is the
    sentences of the text joined by single spaces. *)
Theorem unflagged_story (search_value : PyVal -> str -> outcome (option str))
    (sent_tokenize : str -> list str) (text : str)
    (completed : list (outcome (list ContentFlagger.RawFlag))) :
  Forall (fun x => plain_sentence x = true)
    (TextProcessor.split_into_sentences sent_tokenize text) ->
  Forall (fun r => results_of r = []) completed ->
  ContentFlagger.flag_story search_value sent_tokenize
    (TextProcessor.tag_sentences sent_tokenize text) completed
  = Ok {| ContentFlagger.flag_count := 0;
          ContentFlagger.has_critical := false;
          ContentFlagger.highlighted_text :=
            join (lit " ") (TextProcessor.split_into_sentences sent_tokenize text);
          ContentFlagger.flags := [] |}.
Proof.
  intros Hplain Hnone.
  unfold ContentFlagger.flag_story, ContentFlagger.merged_flags.
  rewrite collect_loop_flat.
  replace (flat_map results_of completed) with (@nil ContentFlagger.RawFlag).
  2:{ symmetry. induction Hnone as [|r rest Hr _ IH]; [reflexivity |].
      simpl. rewrite Hr, IH. reflexivity. }
  cbn [app ContentFlagger._group_consecutive_flags ContentFlagger.flags_loop bind
       ContentFlagger.sort_by_first_tag ContentFlagger.decorate py_sort map
       ContentFlagger.index_loop length existsb].
  unfold HighlightingHelper.generate_flag_html_simple.
  rewrite flag_html_loop_no_flags. cbn [bind app].
  rewrite mapping_of_tag_sentences, tag_sentences_tagged_from.
  rewrite scan_mapping_tagged.
  - rewrite map_snd_enumerate. reflexivity.
  - lia.
  - apply List.Forall_forall. intros [i s] Hin. apply plain_mappable.
    rewrite List.Forall_forall in Hplain. apply Hplain.
    apply (in_map snd) in Hin. rewrite map_snd_enumerate in Hin. exact Hin.
Qed.

Lemma unflagged_story_witness :
  ContentFlagger.flag_story no_match period_tokenize
    (TextProcessor.tag_sentences period_tokenize (lit "First. Second. Third."))
    [Ok []; Raise TypeError]
  = Ok {| ContentFlagger.flag_count := 0;
          ContentFlagger.has_critical := false;
          ContentFlagger.highlighted_text :=
            join (lit " ")
              (TextProcessor.split_into_sentences period_tokenize
                 (lit "First. Second. Third."));
          ContentFlagger.flags := [] |}.
Proof.
  apply unflagged_story.
  - replace (TextProcessor.split_into_sentences period_tokenize (lit "First. Second. Third."))
      with [lit "First."; lit "Second."; lit "Third."] by (vm_compute; reflexivity).
    repeat constructor.
  - repeat constructor.
Defined.

(** ** Styles and severities *)

Lemma dict_get_miss (table : list (str * str)) (key default : str) :
  Forall (fun kv => fst kv <> key) table ->
  HighlightingHelper.dict_get table key default = default.
Proof.
  unfold HighlightingHelper.dict_get. intros H.
  destruct (List.find _ table) as [kv |] eqn:Hf; [| reflexivity].
  apply find_some in Hf as [Hin Heq]. apply str_eqb_eq in Heq.
  rewrite List.Forall_forall in H. exfalso. exact (H kv Hin Heq).
Qed.

(** The style of an entry is read off its severity: dark red, light red,
    orange and light yellow for "Critical", "High", "Medium" and "Low", and
    the style of "Low" for every other severity, such as a label in lower
    case. *)
Theorem severity_style (flag : ContentFlagger.GroupedFlag) :
  (ContentFlagger.severity_level flag = lit "Critical" ->
   HighlightingHelper.css_class (ContentFlagger.flag_entry flag) = lit "flag-critical"
   /\ HighlightingHelper.color (ContentFlagger.flag_entry flag) = lit "#d32f2f")
  /\ (ContentFlagger.severity_level flag = lit "High" ->
      HighlightingHelper.css_class (ContentFlagger.flag_entry flag) = lit "flag-high"
      /\ HighlightingHelper.color (ContentFlagger.flag_entry flag) = lit "#ff6b6b")
  /\ (ContentFlagger.severity_level flag = lit "Medium" ->
      HighlightingHelper.css_class (ContentFlagger.flag_entry flag) = lit "flag-medium"
      /\ HighlightingHelper.color (ContentFlagger.flag_entry flag) = lit "#ffa726")
  /\ (ContentFlagger.severity_level flag <> lit "Critical" ->
      ContentFlagger.severity_level flag <> lit "High" ->
      ContentFlagger.severity_level flag <> lit "Medium" ->
      HighlightingHelper.css_class (ContentFlagger.flag_entry flag) = lit "flag-low"
      /\ HighlightingHelper.color (ContentFlagger.flag_entry flag) = lit "#fff59d").
Proof.
  unfold ContentFlagger.flag_entry. cbn [HighlightingHelper.css_class HighlightingHelper.color].
  split; [| split; [| split]]; try (intros ->; split; reflexivity).
  intros H1 H2 H3.
  destruct (List.list_eq_dec Ascii.ascii_dec (ContentFlagger.severity_level flag) (lit "Low"))
    as [-> | H4]; [split; reflexivity |].
  split; apply dict_get_miss; repeat constructor; cbn [fst]; congruence.
Qed.

Lemma severity_style_witness :
  HighlightingHelper.css_class
    (ContentFlagger.flag_entry
       {| ContentFlagger.issue_type := lit "Safety";
          ContentFlagger.severity_level := lit "critical";
          ContentFlagger.confidence := (1 # 2)%Q;
          ContentFlagger.text_evidence := lit "S1.";
          ContentFlagger.rationale := [];
          ContentFlagger.tag_numbers := [PyInt 1] |}) = lit "flag-low"
  /\ HighlightingHelper.color
       (ContentFlagger.flag_entry
          {| ContentFlagger.issue_type := lit "Safety";
             ContentFlagger.severity_level := lit "critical";
             ContentFlagger.confidence := (1 # 2)%Q;
             ContentFlagger.text_evidence := lit "S1.";
             ContentFlagger.rationale := [];
             ContentFlagger.tag_numbers := [PyInt 1] |}) = lit "#fff59d".
Proof.
  apply (proj2 (proj2 (proj2 (severity_style _)))); cbn; discriminate.
Defined.

Lemma rank_get_known (s : str) :
  known_severity s \/ HighlightingHelper.rank_get HighlightingHelper.severity_order s 0 = 0.
Proof.
  unfold HighlightingHelper.rank_get.
  destruct (List.find _ HighlightingHelper.severity_order) as [kv |] eqn:Hf;
    [left | right; reflexivity].
  apply find_some in Hf as [Hin Heq]. apply str_eqb_eq in Heq. subst s.
  unfold known_severity.
  cbn in Hin. destruct Hin as [<- | [<- | [<- | [<- | []]]]]; cbn; auto.
Qed.

(** [compare_severity] is a strict order with "Critical" above "High" above
    "Medium" above "Low" above every other label: no label is higher than
    itself, the relation is transitive, every known severity is higher than
    every unknown label, and an unknown label is higher than nothing. *)
Theorem compare_severity_order :
  (forall s, HighlightingHelper.compare_severity s s = false)
  /\ (forall a b c,
         HighlightingHelper.compare_severity a b = true ->
         HighlightingHelper.compare_severity b c = true ->
         HighlightingHelper.compare_severity a c = true)
  /\ (forall a b,
         HighlightingHelper.compare_severity a b = true ->
         HighlightingHelper.compare_severity b a = false)
  /\ (forall s t, ~ known_severity s -> HighlightingHelper.compare_severity s t = false)
  /\ (forall s t, known_severity s -> ~ known_severity t ->
         HighlightingHelper.compare_severity s t = true)
  /\ HighlightingHelper.compare_severity (lit "Critical") (lit "High") = true
  /\ HighlightingHelper.compare_severity (lit "High") (lit "Medium") = true
  /\ HighlightingHelper.compare_severity (lit "Medium") (lit "Low") = true.
Proof.
  unfold HighlightingHelper.compare_severity.
  split; [| split; [| split; [| split; [| split; [| repeat split]]]]].
  - intros s. rewrite Z.gtb_ltb. apply Z.ltb_irrefl.
  - intros a b c. rewrite !Z.gtb_ltb, !Z.ltb_lt. lia.
  - intros a b. rewrite !Z.gtb_ltb, Z.ltb_lt, Z.ltb_ge. lia.
  - intros s t Hs. destruct (rank_get_known s) as [H | ->]; [contradiction |].
    rewrite Z.gtb_ltb, Z.ltb_ge.
    destruct (rank_get_known t) as [[-> | [-> | [-> | ->]]] | ->];
      try lia; vm_compute; intros H; discriminate H.
  - intros s t Hs Ht. destruct (rank_get_known t) as [H | ->]; [contradiction |].
    destruct Hs as [-> | [-> | [-> | ->]]]; reflexivity.
Qed.

Lemma compare_severity_order_witness :
  HighlightingHelper.compare_severity (lit "Critical") (lit "Low") = true
  /\ HighlightingHelper.compare_severity (lit "Low") (lit "Critical") = false
  /\ HighlightingHelper.compare_severity (lit "critical") (lit "Low") = false
  /\ HighlightingHelper.compare_severity (lit "Low") (lit "unknown") = true.
Proof.
  split; [| split; [| split]].
  - apply (proj1 (proj2 compare_severity_order) _ (lit "High")); reflexivity.
  - apply (proj1 (proj2 (proj2 compare_severity_order))). reflexivity.
  - apply (proj1 (proj2 (proj2 (proj2 compare_severity_order)))).
    unfold known_severity. cbn. intros [H | [H | [H | H]]]; discriminate.
  - apply (proj1 (proj2 (proj2 (proj2 (proj2 compare_severity_order))))).
    + unfold known_severity. auto.
    + unfold known_severity. cbn. intros [H | [H | [H | H]]]; discriminate.
Defined.

(** ** Categories of skills *)

Lemma split_on_dash_free (a : str) :
  dash_free a = true -> HighlightingHelper.split_on "-"%char a = [a].
Proof.
  induction a as [|c a IH]; intros H; [reflexivity |].
  cbn [dash_free forallb] in H. apply andb_true_iff in H as [Hc H].
  apply negb_true_iff in Hc. cbn [HighlightingHelper.split_on].
  rewrite Hc, (IH H). reflexivity.
Qed.

Lemma split_on_field (a r : str) :
  dash_free a = true ->
  HighlightingHelper.split_on "-"%char (a ++ "-"%char :: r)
  = a :: HighlightingHelper.split_on "-"%char r.
Proof.
  induction a as [|c a IH]; intros H.
  - cbn [app HighlightingHelper.split_on]. rewrite char_eqb_refl. reflexivity.
  - cbn [dash_free forallb] in H. apply andb_true_iff in H as [Hc H].
    apply negb_true_iff in Hc. cbn [app HighlightingHelper.split_on].
    rewrite Hc, (IH H). reflexivity.
Qed.

(** The category of a skill id is read off its second field, the fields
    being separated by [-]: it is the category that [CATEGORY_MAP] gives for
    that field, and "Unknown" when the map has none or the id has no second
    field.  Whatever the id, the category has a color and a CSS class of its
    own in the tables of the skill renderer. *)
Theorem skill_category :
  (forall a c rest : str,
      dash_free a = true -> dash_free c = true ->
      HighlightingHelper.extract_category_from_skill_id
        (a ++ lit "-" ++ c ++ lit "-" ++ rest)
      = HighlightingHelper.dict_get HighlightingHelper.CATEGORY_MAP c (lit "Unknown")
      /\ HighlightingHelper.extract_category_from_skill_id (a ++ lit "-" ++ c)
         = HighlightingHelper.dict_get HighlightingHelper.CATEGORY_MAP c (lit "Unknown"))
  /\ (forall s : str,
         dash_free s = true ->
         HighlightingHelper.extract_category_from_skill_id s = lit "Unknown")
  /\ (forall s : str,
         In (HighlightingHelper.extract_category_from_skill_id s)
            (map fst HighlightingHelper.CATEGORY_HIGHLIGHT_COLORS)
         /\ In (HighlightingHelper.extract_category_from_skill_id s)
               (map fst HighlightingHelper.CATEGORY_CSS_CLASSES)).
Proof.
  split; [| split].
  - intros a c rest Ha Hc. unfold HighlightingHelper.extract_category_from_skill_id.
    cbn [lit list_ascii_of_string app]. split.
    + rewrite split_on_field by exact Ha. rewrite split_on_field by exact Hc.
      reflexivity.
    + rewrite split_on_field by exact Ha. rewrite split_on_dash_free by exact Hc.
      reflexivity.
  - intros s Hs. unfold HighlightingHelper.extract_category_from_skill_id.
    rewrite split_on_dash_free by exact Hs. reflexivity.
  - intros s.
    assert (H : In (HighlightingHelper.extract_category_from_skill_id s)
                  (lit "Unknown" :: map snd HighlightingHelper.CATEGORY_MAP)).
    { unfold HighlightingHelper.extract_category_from_skill_id.
      destruct (HighlightingHelper.split_on "-" s) as [|f1 [|f2 fs]];
        try (left; reflexivity).
      apply dict_get_in. }
    unfold HighlightingHelper.CATEGORY_MAP, map, In in H.
    repeat (destruct H as [<- | H]; [split; vm_compute; tauto |]).
    contradiction.
Qed.

Lemma skill_category_witness :
  (HighlightingHelper.extract_category_from_skill_id
     (lit "SKILL" ++ lit "-" ++ lit "COMP" ++ lit "-" ++ lit "003")
   = HighlightingHelper.dict_get HighlightingHelper.CATEGORY_MAP (lit "COMP") (lit "Unknown")
   /\ HighlightingHelper.extract_category_from_skill_id (lit "SKILL" ++ lit "-" ++ lit "COMP")
      = HighlightingHelper.dict_get HighlightingHelper.CATEGORY_MAP (lit "COMP") (lit "Unknown"))
  /\ HighlightingHelper.extract_category_from_skill_id (lit "INVALID") = lit "Unknown".
Proof.
  split.
  - apply (proj1 skill_category); reflexivity.
  - apply (proj1 (proj2 skill_category)). reflexivity.
Defined.

(** ** The text of a sentence in the renderings *)

Lemma span_holds_text (css_class color title : str) (p : Z * str) :
  holds_text p (HighlightingHelper.span css_class color title (snd p)).
Proof.
  right. unfold HighlightingHelper.span.
  eexists (lit "<span class=" ++ HighlightingHelper.dquote ++ css_class
           ++ HighlightingHelper.dquote ++ lit " " ++ lit "style="
           ++ HighlightingHelper.dquote ++ lit "background-color: " ++ color
           ++ lit "; padding: 2px 4px; border-radius: 3px;"
           ++ HighlightingHelper.dquote ++ lit " " ++ lit "title="
           ++ HighlightingHelper.dquote ++ title ++ HighlightingHelper.dquote ++ lit ">").
  rewrite <- !app_assoc. reflexivity.
Qed.

Lemma flag_html_loop_texts (sentence_flags : gmap Z (list HighlightingHelper.FlagInfo))
    (sentence_mapping : list (Z * str)) :
  forall html_parts parts,
    HighlightingHelper.flag_html_loop sentence_mapping sentence_flags html_parts
    = Ok parts ->
    exists fragments,
      parts = html_parts ++ fragments
      /\ Forall2 holds_text sentence_mapping fragments.
Proof.
  induction sentence_mapping as [|[tag_num text] rest IH]; intros acc parts.
  - intros [= <-]. exists []. rewrite app_nil_r. split; [reflexivity | constructor].
  - cbn [HighlightingHelper.flag_html_loop].
    destruct (sentence_flags !! tag_num) as [flags_list |].
    + destruct (if Nat.ltb 1 (length flags_list) then _ else _)
        as [[[color css_class] title] | e]; cbn [bind]; [| discriminate].
      intros H. apply IH in H as (fr & -> & Hfr).
      eexists (_ :: fr). rewrite <- app_assoc. split; [reflexivity |].
      constructor; [| exact Hfr].
      apply (span_holds_text css_class color title (tag_num, text)).
    + intros H. apply IH in H as (fr & -> & Hfr).
      exists (text :: fr). rewrite <- app_assoc. split; [reflexivity |].
      constructor; [left; reflexivity | exact Hfr].
Qed.

Lemma skill_html_loop_texts (format_2f : Q -> str)
    (tag_skills : gmap Z (list HighlightingHelper.SkillInfo))
    (sentence_mapping : list (Z * str)) :
  forall html_parts parts,
    HighlightingHelper.skill_html_loop format_2f sentence_mapping tag_skills html_parts
    = Ok parts ->
    exists fragments,
      parts = html_parts ++ fragments
      /\ Forall2 holds_text sentence_mapping fragments.
Proof.
  induction sentence_mapping as [|[tag_num text] rest IH]; intros acc parts.
  - intros [= <-]. exists []. rewrite app_nil_r. split; [reflexivity | constructor].
  - cbn [HighlightingHelper.skill_html_loop].
    destruct (tag_skills !! tag_num) as [skills_list |].
    + destruct (if Nat.ltb 1 (length skills_list) then _ else _)
        as [[[color css_class] title] | e]; cbn [bind]; [| discriminate].
      intros H. apply IH in H as (fr & -> & Hfr).
      eexists (_ :: fr). rewrite <- app_assoc. split; [reflexivity |].
      constructor; [| exact Hfr].
      apply (span_holds_text css_class color title (tag_num, text)).
    + intros H. apply IH in H as (fr & -> & Hfr).
      exists (text :: fr). rewrite <- app_assoc. split; [reflexivity |].
      constructor; [left; reflexivity | exact Hfr].
Qed.

(** Both renderers keep every sentence and write its text as it is: the
    output is one fragment for each pair of the mapping, in order and joined
    by single spaces, and the fragment is the text of the sentence, alone or
    as the content of a [span]; nothing in the text is escaped or removed. *)
Theorem rendering_keeps_text :
  (forall (sentence_mapping : list (Z * str))
          (sentence_flags : gmap Z (list HighlightingHelper.FlagInfo)) (html : str),
      HighlightingHelper.generate_flag_html_simple sentence_mapping sentence_flags
      = Ok html ->
      exists fragments,
        html = join (lit " ") fragments
        /\ Forall2 holds_text sentence_mapping fragments)
  /\ (forall (format_2f : Q -> str) (sentence_mapping : list (Z * str))
             (skill_tags : list HighlightingHelper.SkillTag) (html : str),
         HighlightingHelper.generate_skill_html_simple format_2f sentence_mapping
           skill_tags = Ok html ->
         exists fragments,
           html = join (lit " ") fragments
           /\ Forall2 holds_text sentence_mapping fragments).
Proof.
  split.
  - intros sentence_mapping sentence_flags html.
    unfold HighlightingHelper.generate_flag_html_simple.
    destruct (HighlightingHelper.flag_html_loop _ _ _) as [parts | e] eqn:Hl;
      cbn [bind]; [| discriminate].
    intros [= <-]. apply flag_html_loop_texts in Hl as (fr & -> & Hfr).
    exists fr. split; [reflexivity | exact Hfr].
  - intros format_2f sentence_mapping skill_tags html.
    unfold HighlightingHelper.generate_skill_html_simple.
    destruct (HighlightingHelper.skill_html_loop _ _ _ _) as [parts | e] eqn:Hl;
      cbn [bind]; [| discriminate].
    intros [= <-]. apply skill_html_loop_texts in Hl as (fr & -> & Hfr).
    exists fr. split; [reflexivity | exact Hfr].
Qed.

Lemma rendering_keeps_text_witness :
  exists fragments,
    lit "<b>Hi</b>" = join (lit " ") fragments
    /\ Forall2 holds_text [(1, lit "<b>Hi</b>")] fragments.
Proof.
  apply (proj1 rendering_keeps_text [(1, lit "<b>Hi</b>")] ∅).
  reflexivity.
Defined.

(** ** The skill tagger *)

Lemma skill_groups_loop_as_flags search_value t tagged_content groups : forall acc,
  SkillTagger.groups_loop search_value t tagged_content groups
    (map tag_of_grouped acc)
  = outcome_map (map tag_of_grouped)
      (ContentFlagger.groups_loop search_value (flag_of_tag t) tagged_content
         groups acc).
Proof.
  induction groups as [|group groups IH]; intros acc;
    cbn [SkillTagger.groups_loop ContentFlagger.groups_loop]; [reflexivity |].
  destruct (Untyped.extract_sentences_for_tags search_value tagged_content group)
    as [paragraph | e]; cbn [bind]; [| reflexivity].
  destruct (negb (is_empty paragraph)); [| apply IH].
  rewrite <- IH. rewrite map_app. reflexivity.
Qed.

Lemma skill_tags_loop_as_flags search_value tagged_content skill_tags_raw :
  forall acc,
    SkillTagger.tags_loop search_value skill_tags_raw tagged_content
      (map tag_of_grouped acc)
    = outcome_map (map tag_of_grouped)
        (ContentFlagger.flags_loop search_value (map flag_of_tag skill_tags_raw)
           tagged_content acc).
Proof.
  induction skill_tags_raw as [|t rest IH]; intros acc;
    cbn [map SkillTagger.tags_loop ContentFlagger.flags_loop]; [reflexivity |].
  cbn [flag_of_tag ContentFlagger.raw_tag_numbers].
  destruct (normalize_tag_numbers _) as [tag_numbers | e]; cbn [bind]; [| reflexivity].
  destruct (is_empty tag_numbers); [apply IH |].
  destruct (Untyped.group_consecutive_numbers tag_numbers) as [groups | e];
    cbn [bind]; [| reflexivity].
  rewrite skill_groups_loop_as_flags.
  destruct (ContentFlagger.groups_loop search_value (flag_of_tag t) tagged_content
              groups acc) as [es | e]; cbn [outcome_map bind]; [| reflexivity].
  apply IH.
Qed.

Lemma skill_decorate_as_flags (l : list ContentFlagger.GroupedFlag) :
  SkillTagger.decorate (map tag_of_grouped l)
  = outcome_map (map (fun p => (fst p, tag_of_grouped (snd p))))
      (ContentFlagger.decorate l).
Proof.
  induction l as [|g l IH]; simpl; [reflexivity |].
  unfold SkillTagger.first_tag, ContentFlagger.first_tag. simpl.
  destruct (ContentFlagger.tag_numbers g); simpl; [reflexivity |].
  rewrite IH. destruct (ContentFlagger.decorate l); reflexivity.
Qed.

Section SortMap.

Context {A B : Type} (ltA : A -> A -> outcome bool) (ltB : B -> B -> outcome bool)
  (f : A -> B).
Hypothesis lt_map : forall a b, ltB (f a) (f b) = ltA a b.

Lemma sort_insert_map (x : A) (l : list A) :
  sort_insert ltB (f x) (map f l) = outcome_map (map f) (sort_insert ltA x l).
Proof using lt_map.
  induction l as [|y l IH]; simpl; [reflexivity |].
  rewrite lt_map. destruct (ltA y x) as [[|] | e]; simpl; try reflexivity.
  rewrite IH. destruct (sort_insert ltA x l); reflexivity.
Qed.

Lemma py_sort_map (l : list A) :
  py_sort ltB (map f l) = outcome_map (map f) (py_sort ltA l).
Proof using lt_map.
  induction l as [|x l IH]; simpl; [reflexivity |].
  rewrite IH. destruct (py_sort ltA l) as [s | e]; simpl; [| reflexivity].
  apply sort_insert_map.
Qed.

End SortMap.

Lemma skill_sort_as_flags (l : list ContentFlagger.GroupedFlag) :
  SkillTagger.sort_by_first_tag (map tag_of_grouped l)
  = outcome_map (map tag_of_grouped) (ContentFlagger.sort_by_first_tag l).
Proof.
  unfold SkillTagger.sort_by_first_tag, ContentFlagger.sort_by_first_tag.
  rewrite skill_decorate_as_flags.
  destruct (ContentFlagger.decorate l) as [keyed | e]; simpl; [| reflexivity].
  rewrite (py_sort_map ContentFlagger.key_lt SkillTagger.key_lt
             (fun p => (fst p, tag_of_grouped (snd p)))) by reflexivity.
  destruct (py_sort ContentFlagger.key_lt keyed) as [s | e]; simpl; [| reflexivity].
  rewrite !map_map. reflexivity.
Qed.

(** The grouping of skill tags is the grouping of flags under another
    name: reading each skill tag as a flag (the skill id for the issue type,
    the skill name for the severity), [_group_consecutive_tags] returns the
    entries of [_group_consecutive_flags] with the fields renamed back, and
    the two sorts by first id agree in the same way. *)
Theorem skill_grouping_as_flag_grouping :
  (forall (search_value : PyVal -> str -> outcome (option str))
          (skill_tags_raw : list SkillTagger.RawSkillTag) (tagged_content : str),
      SkillTagger._group_consecutive_tags search_value skill_tags_raw tagged_content
      = outcome_map (map tag_of_grouped)
          (ContentFlagger._group_consecutive_flags search_value
             (map flag_of_tag skill_tags_raw) tagged_content))
  /\ (forall l : list ContentFlagger.GroupedFlag,
         SkillTagger.sort_by_first_tag (map tag_of_grouped l)
         = outcome_map (map tag_of_grouped) (ContentFlagger.sort_by_first_tag l)).
Proof.
  split.
  - intros. apply (skill_tags_loop_as_flags search_value tagged_content
                     skill_tags_raw []).
  - apply skill_sort_as_flags.
Qed.

Lemma sorted_tags_of_grouped (l : list ContentFlagger.GroupedFlag) :
  StronglySorted (key_le first_id) l ->
  StronglySorted (key_le first_tag_id) (map tag_of_grouped l).
Proof.
  induction 1 as [|g l _ IH Hall]; simpl; constructor; [exact IH |].
  rewrite Forall_map. exact Hall.
Qed.

Lemma filter_tags_of_grouped (k : Z) (l : list ContentFlagger.GroupedFlag) :
  List.filter (has_key first_tag_id k) (map tag_of_grouped l)
  = map tag_of_grouped (List.filter (has_key first_id k) l).
Proof.
  induction l as [|g l IH]; simpl; [reflexivity |].
  rewrite IH. unfold has_key, first_tag_id, first_id, first_value. simpl.
  destruct (int_key (List.hd PyNone (ContentFlagger.tag_numbers g)) =? k);
    reflexivity.
Qed.

Lemma skill_index_no_empty_list (skill_tags : list HighlightingHelper.SkillTag) :
  forall id l,
    HighlightingHelper.tag_skills_loop skill_tags ∅ !! id = Some l -> l <> [].
Proof.
  intros id l. rewrite tag_skills_loop_lookup, lookup_empty. apply extend_nonempty.
Qed.

Lemma hashable_ints (run : list Z) : forallb hashable (map PyInt run) = true.
Proof. induction run as [|n run IH]; [reflexivity | exact IH]. Qed.

(** Tags on [int]s are handed to the renderer. *)
Lemma highlight_inputs_ints (l : list ContentFlagger.GroupedFlag) :
  Forall int_run l ->
  exists skill_tags,
    SkillTagger.highlight_inputs (map tag_of_grouped l) = Ok skill_tags.
Proof.
  induction 1 as [|g l [run Hrun] _ (sts & IH)]; cbn [map SkillTagger.highlight_inputs].
  - exists []. reflexivity.
  - unfold SkillTagger.highlight_input at 1.
    cbn [tag_of_grouped SkillTagger.tag_numbers]. rewrite Hrun, hashable_ints.
    cbn [bind]. rewrite IH. cbn [bind]. eexists. reflexivity.
Qed.

(** [tag_story] on skill tags whose ids are integers or lists of integers:
    it returns; its tags are the grouped tags in the order of the first id
    of their runs, ascending, the tags that share a first id keeping the
    order of the grouping; every tag has the evidence of its run, a run of
    integers, and the evidence is not empty; and the highlighted text is one
    fragment for each sentence of the mapping. *)
Theorem tag_story_result (format_2f : Q -> str)
    (search_value : PyVal -> str -> outcome (option str))
    (sent_tokenize : str -> list str)
    (tagged_content : str) (skill_tags_raw : list SkillTagger.RawSkillTag) :
  Forall typed_skill_tag skill_tags_raw ->
  exists grouped merged result fragments,
    SkillTagger._group_consecutive_tags search_value skill_tags_raw tagged_content
    = Ok grouped
    /\ SkillTagger.tag_story search_value format_2f sent_tokenize tagged_content
         skill_tags_raw
       = Ok result
    /\ SkillTagger.tags result = map SkillTagger.final_tag merged
    /\ Permutation grouped merged
    /\ StronglySorted (fun a b => first_tag_id a <= first_tag_id b) merged
    /\ (forall k : Z,
          List.filter (fun t => first_tag_id t =? k) merged
          = List.filter (fun t => first_tag_id t =? k) grouped)
    /\ Forall (fun t =>
         exists run : list Z,
           SkillTagger.tag_numbers t = map PyInt run
           /\ SkillTagger.sentence_evidence t
              = TextProcessor.extract_sentences_for_tags tagged_content run
           /\ SkillTagger.sentence_evidence t <> []) merged
    /\ SkillTagger.highlighted_text result = join (lit " ") fragments
    /\ length fragments
       = length (TextProcessor.get_sentence_mapping sent_tokenize tagged_content).
Proof.
  intros Htyped.
  destruct (flags_loop_typed search_value tagged_content
              (map flag_of_tag skill_tags_raw)) as (g & Hg & Hints).
  { rewrite Forall_map. eapply Forall_impl; [exact Htyped |]. intros t Ht. exact Ht. }
  pose proof (flags_loop_ok _ _ _ _ Hg) as Hok.
  assert (Hn : Forall numbered g).
  { pose proof (entry_ok_tags _ _ _ Hok) as Hne.
    rewrite List.Forall_forall in *. intros e He. apply int_run_numbered; auto. }
  destruct (sort_by_first_tag_spec g Hn) as (m & Hm & Hperm & Hsorted & Hstable).
  assert (Hgroup : SkillTagger._group_consecutive_tags search_value skill_tags_raw
                     tagged_content = Ok (map tag_of_grouped g)).
  { unfold SkillTagger._group_consecutive_tags.
    change (@nil SkillTagger.GroupedTag) with (map tag_of_grouped []).
    rewrite skill_tags_loop_as_flags, Hg. reflexivity. }
  assert (Hsort : SkillTagger.sort_by_first_tag (map tag_of_grouped g)
                  = Ok (map tag_of_grouped m)).
  { rewrite skill_sort_as_flags, Hm. reflexivity. }
  destruct (highlight_inputs_ints m) as (sts & Hsts).
  { eapply Permutation_Forall; eassumption. }
  destruct (skill_html_loop_spec format_2f
              (HighlightingHelper.tag_skills_loop sts ∅)
              (TextProcessor.get_sentence_mapping sent_tokenize tagged_content)
              (skill_index_no_empty_list _) [])
    as (fr & Hloop & Hfr).
  exists (map tag_of_grouped g), (map tag_of_grouped m).
  eexists. exists fr.
  split; [exact Hgroup |].
  split.
  { unfold SkillTagger.tag_story. rewrite Hgroup. cbn [bind]. rewrite Hsort. cbn [bind].
    rewrite Hsts. cbn [bind].
    unfold HighlightingHelper.generate_skill_html_simple. rewrite Hloop. reflexivity. }
  cbn [SkillTagger.tags SkillTagger.highlighted_text app].
  split; [reflexivity |].
  split; [apply Permutation_map, Hperm |].
  split; [apply sorted_tags_of_grouped, Hsorted |].
  split.
  { intros k. rewrite !(filter_tags_of_grouped k). f_equal. apply Hstable. }
  split.
  { rewrite Forall_map. eapply Permutation_Forall; [exact Hperm |].
    rewrite List.Forall_forall in *. intros e He.
    destruct (Hints e He) as [run Hrun]. destruct (Hok e He) as (_ & H1 & H2 & _).
    exists run. cbn [tag_of_grouped SkillTagger.tag_numbers
                     SkillTagger.sentence_evidence].
    split; [exact Hrun |]. split; [| exact H2].
    rewrite Hrun, untyped_extract_ints in H1. congruence. }
  split; [reflexivity |].
  symmetry. eapply Forall2_length, Hfr.
Qed.

Lemma tag_story_result_witness :
  exists grouped merged result fragments,
    SkillTagger._group_consecutive_tags no_match
      [ {| SkillTagger.raw_skill_id := Some (lit "SKILL-COMP-003");
           SkillTagger.raw_skill_name := Some (lit "C");
           SkillTagger.raw_confidence := Some (8 # 10)%Q;
           SkillTagger.raw_rationale := Some (lit "Test");
           SkillTagger.raw_tag_numbers := Some (PyList [PyInt 5; PyInt 1]) |} ]
      three_doc = Ok grouped
    /\ SkillTagger.tag_story no_match (fun _ => lit "0.80") period_tokenize three_doc
         [ {| SkillTagger.raw_skill_id := Some (lit "SKILL-COMP-003");
              SkillTagger.raw_skill_name := Some (lit "C");
              SkillTagger.raw_confidence := Some (8 # 10)%Q;
              SkillTagger.raw_rationale := Some (lit "Test");
              SkillTagger.raw_tag_numbers := Some (PyList [PyInt 5; PyInt 1]) |} ]
       = Ok result
    /\ SkillTagger.tags result = map SkillTagger.final_tag merged
    /\ Permutation grouped merged
    /\ StronglySorted (fun a b => first_tag_id a <= first_tag_id b) merged
    /\ (forall k : Z,
          List.filter (fun t => first_tag_id t =? k) merged
          = List.filter (fun t => first_tag_id t =? k) grouped)
    /\ Forall (fun t =>
         exists run : list Z,
           SkillTagger.tag_numbers t = map PyInt run
           /\ SkillTagger.sentence_evidence t
              = TextProcessor.extract_sentences_for_tags three_doc run
           /\ SkillTagger.sentence_evidence t <> []) merged
    /\ SkillTagger.highlighted_text result = join (lit " ") fragments
    /\ length fragments
       = length (TextProcessor.get_sentence_mapping period_tokenize three_doc).
Proof.
  apply tag_story_result.
  constructor; [| constructor].
  exists [5; 1]. reflexivity.
Defined.

(** ** The validation of skill tags *)

Section ValidationFacts.

Variable float_of_int : Z -> option Float.
Variable float_of_str : str -> option Float.
Variable valid_skill_ids : list str.

Lemma validate_loop_app (tags : list SkillTagger.ResponseTag) : forall acc,
  SkillTagger.validate_loop float_of_int float_of_str valid_skill_ids tags acc
  = option_map (app acc)
      (SkillTagger.validate_loop float_of_int float_of_str valid_skill_ids tags []).
Proof.
  induction tags as [|t tags IH]; intros acc; cbn [SkillTagger.validate_loop].
  - cbn. now rewrite app_nil_r.
  - destruct (SkillTagger.resp_skill_id t) as [[| b | n | s | l] |]; try apply IH;
      [| reflexivity].
    destruct (existsb (str_eqb s) valid_skill_ids); [| apply IH].
    destruct (SkillTagger.py_float _ _ _) as [x |]; [| reflexivity].
    rewrite (IH (acc ++ _)), (IH ([] ++ _)).
    destruct (SkillTagger.validate_loop _ _ _ tags []); cbn; [| reflexivity].
    rewrite <- app_assoc. reflexivity.
Qed.

Lemma option_map_app_nil {A : Type} (o : option (list A)) :
  option_map (app []) o = o.
Proof. destruct o; reflexivity. Qed.

Lemma validate_loop_cons (t : SkillTagger.ResponseTag)
    (tags : list SkillTagger.ResponseTag) :
  SkillTagger.validate_loop float_of_int float_of_str valid_skill_ids (t :: tags) []
  = match validate_one float_of_int float_of_str valid_skill_ids t with
    | Some es =>
        option_map (app es)
          (SkillTagger.validate_loop float_of_int float_of_str valid_skill_ids
             tags [])
    | None => None
    end.
Proof.
  unfold validate_one. cbn [SkillTagger.validate_loop].
  destruct (SkillTagger.resp_skill_id t) as [[| b | n | s | l] |];
    try (symmetry; apply option_map_app_nil); [| reflexivity].
  destruct (existsb (str_eqb s) valid_skill_ids);
    [| symmetry; apply option_map_app_nil].
  destruct (SkillTagger.py_float _ _ _) as [x |]; [| reflexivity].
  apply validate_loop_app.
Qed.

(** The bounds bring every float to a finite one between them. *)
Lemma clamp_value (x : Float) :
  exists q,
    py_max (Finite 0) (py_min (Finite 1) x) = Finite q
    /\ (0 <= q <= 1)%Q
    /\ clamped x q
    /\ py_max (Finite 0) (py_min (Finite 1) (Finite q)) = Finite q.
Proof.
  destruct x as [c | [|] |].
  - unfold py_min, py_max. cbn [float_lt].
    destruct (Qle_bool 1 c) eqn:H1; cbn [negb].
    + apply Qle_bool_iff in H1. exists 1%Q. cbn.
      split; [reflexivity |]. split; [split; discriminate |].
      split; [| reflexivity].
      split; [| split].
      * intros [_ Hc]. now apply Qle_antisym.
      * intros Hc. exfalso. apply (Qlt_irrefl 1).
        eapply Qle_lt_trans; [exact H1 |].
        eapply Qlt_trans; [exact Hc | reflexivity].
      * reflexivity.
    + assert (Hc1 : (c < 1)%Q).
      { apply Qnot_le_lt. intros H. apply Qle_bool_iff in H. congruence. }
      cbn [float_lt]. destruct (Qle_bool c 0) eqn:H0; cbn [negb].
      * apply Qle_bool_iff in H0. exists 0%Q. cbn.
        split; [reflexivity |]. split; [split; discriminate |].
        split; [| reflexivity].
        split; [| split].
        -- intros [Hc _]. now apply Qle_antisym.
        -- reflexivity.
        -- intros Hc. exfalso. apply (Qlt_irrefl 1). now apply Qlt_trans with c.
      * assert (Hc0 : (0 < c)%Q).
        { apply Qnot_le_lt. intros H. apply Qle_bool_iff in H. congruence. }
        exists c. split; [reflexivity |].
        split; [split; apply Qlt_le_weak; assumption |].
        split.
        -- split; [| split].
           ++ intros _. apply Qeq_refl.
           ++ intros Hc. exfalso. apply (Qlt_irrefl 0). now apply Qlt_trans with c.
           ++ intros Hc. exfalso. apply (Qlt_irrefl 1). now apply Qlt_trans with c.
        -- cbn [float_lt]. rewrite H1. cbn [negb float_lt]. rewrite H0. reflexivity.
  - exists 0%Q. cbn. repeat split; discriminate.
  - exists 1%Q. cbn. repeat split; discriminate.
  - exists 1%Q. cbn. repeat split; discriminate.
Qed.

(** What the loop does with one tag: it raises on it, keeps it or leaves it
    out. *)
Lemma validate_one_cases (t : SkillTagger.ResponseTag) :
  (raising_tag float_of_int float_of_str valid_skill_ids t = true
   /\ validate_one float_of_int float_of_str valid_skill_ids t = None)
  \/ (raising_tag float_of_int float_of_str valid_skill_ids t = false
      /\ in_taxonomy valid_skill_ids t = false
      /\ validate_one float_of_int float_of_str valid_skill_ids t = Some [])
  \/ (raising_tag float_of_int float_of_str valid_skill_ids t = false
      /\ in_taxonomy valid_skill_ids t = true
      /\ exists v skill_id x q,
           validate_one float_of_int float_of_str valid_skill_ids t = Some [v]
           /\ SkillTagger.raw_skill_id v = Some skill_id
           /\ In skill_id valid_skill_ids
           /\ response_fields (as_response v) = response_fields t
           /\ SkillTagger.py_float float_of_int float_of_str
                (default (SkillTagger.IsFloat (Finite 0))
                   (SkillTagger.resp_confidence t)) = Some x
           /\ SkillTagger.raw_confidence v = Some q
           /\ (0 <= q <= 1)%Q
           /\ clamped x q
           /\ validate_one float_of_int float_of_str valid_skill_ids (as_response v)
              = Some [v]).
Proof.
  unfold validate_one, raising_tag, in_taxonomy. cbn [SkillTagger.validate_loop].
  destruct t as [id name conf rat nums]. cbn [SkillTagger.resp_skill_id
    SkillTagger.resp_confidence SkillTagger.resp_skill_name
    SkillTagger.resp_rationale SkillTagger.resp_tag_numbers].
  destruct id as [[| b | n | s | l] |];
    try (right; left; repeat split; reflexivity);
    [| left; split; reflexivity].
  destruct (existsb (str_eqb s) valid_skill_ids) eqn:Hin; cbn [andb];
    [| right; left; repeat split; reflexivity].
  destruct (SkillTagger.py_float float_of_int float_of_str
              (default (SkillTagger.IsFloat (Finite 0)) conf)) as [x |] eqn:Hx;
    [| left; split; reflexivity].
  right; right. split; [reflexivity |]. split; [reflexivity |].
  destruct (clamp_value x) as (q & Hq & Hrange & Hclamped & Hagain).
  eexists _, s, x, q. cbn [app].
  split; [reflexivity |]. rewrite Hq. cbn [finite_value].
  cbn [SkillTagger.raw_skill_id SkillTagger.raw_confidence].
  split; [reflexivity |].
  split.
  { apply existsb_exists in Hin as (s' & Hs' & Heq).
    apply str_eqb_eq in Heq. subst s'. exact Hs'. }
  split; [reflexivity |].
  split; [reflexivity |].
  split; [reflexivity |].
  split; [exact Hrange |].
  split; [exact Hclamped |].
  unfold as_response. cbn [SkillTagger.raw_skill_id SkillTagger.raw_skill_name
    SkillTagger.raw_confidence SkillTagger.raw_rationale SkillTagger.raw_tag_numbers
    option_map SkillTagger.resp_skill_id SkillTagger.resp_confidence
    SkillTagger.resp_skill_name SkillTagger.resp_rationale
    SkillTagger.resp_tag_numbers SkillTagger.validate_loop].
  rewrite Hin. cbn [default id SkillTagger.py_float]. unfold id.
  rewrite Hagain. reflexivity.
Qed.

End ValidationFacts.

(** The validation of [_identify_skills].  Every tag it returns has an id
    of the taxonomy and a confidence in [0.0, 1.0].  When the loop raises (on
    a tag whose id is a list, or on a tag of the taxonomy whose confidence
    has no float) it returns no tag at all.  Otherwise the tags it returns are
    the tags of the response whose id is in the taxonomy, in their order,
    their other fields untouched and their confidence (0.0 when missing)
    brought to the nearer bound when outside; and validating its result
    again changes nothing. *)
Theorem validated_skill_tags (float_of_int : Z -> option Float)
    (float_of_str : str -> option Float) (valid_skill_ids : list str)
    (skill_tags : list SkillTagger.ResponseTag) :
  let validated :=
    SkillTagger.validated_tags float_of_int float_of_str valid_skill_ids
      skill_tags in
  Forall (fun v =>
            exists skill_id c,
              SkillTagger.raw_skill_id v = Some skill_id
              /\ In skill_id valid_skill_ids
              /\ SkillTagger.raw_confidence v = Some c
              /\ (0 <= c <= 1)%Q) validated
  /\ (existsb (raising_tag float_of_int float_of_str valid_skill_ids) skill_tags
      = true ->
      validated = [])
  /\ (existsb (raising_tag float_of_int float_of_str valid_skill_ids) skill_tags
      = false ->
      Forall2 (fun t v =>
                 response_fields (as_response v) = response_fields t
                 /\ exists x q,
                      SkillTagger.py_float float_of_int float_of_str
                        (default (SkillTagger.IsFloat (Finite 0))
                           (SkillTagger.resp_confidence t)) = Some x
                      /\ SkillTagger.raw_confidence v = Some q
                      /\ clamped x q)
        (List.filter (in_taxonomy valid_skill_ids) skill_tags) validated)
  /\ SkillTagger.validated_tags float_of_int float_of_str valid_skill_ids
       (map as_response validated)
     = validated.
Proof.
  cbv zeta. unfold SkillTagger.validated_tags.
  assert (H : match SkillTagger.validate_loop float_of_int float_of_str
                      valid_skill_ids skill_tags [] with
              | None =>
                  existsb (raising_tag float_of_int float_of_str valid_skill_ids)
                    skill_tags = true
              | Some validated =>
                  existsb (raising_tag float_of_int float_of_str valid_skill_ids)
                    skill_tags = false
                  /\ Forall (fun v =>
                       exists skill_id c,
                         SkillTagger.raw_skill_id v = Some skill_id
                         /\ In skill_id valid_skill_ids
                         /\ SkillTagger.raw_confidence v = Some c
                         /\ (0 <= c <= 1)%Q) validated
                  /\ Forall2 (fun t v =>
                       response_fields (as_response v) = response_fields t
                       /\ exists x q,
                            SkillTagger.py_float float_of_int float_of_str
                              (default (SkillTagger.IsFloat (Finite 0))
                                 (SkillTagger.resp_confidence t)) = Some x
                            /\ SkillTagger.raw_confidence v = Some q
                            /\ clamped x q)
                       (List.filter (in_taxonomy valid_skill_ids) skill_tags)
                       validated
                  /\ SkillTagger.validate_loop float_of_int float_of_str
                       valid_skill_ids (map as_response validated) []
                     = Some validated
              end).
  { induction skill_tags as [|t tags IH].
    - cbn. repeat split; constructor.
    - rewrite validate_loop_cons. cbn [existsb List.filter].
      destruct (validate_one_cases float_of_int float_of_str valid_skill_ids t)
        as [[Hr Hone] | [(Hr & Hin & Hone) | (Hr & Hin & Hone)]].
      + rewrite Hone, Hr. reflexivity.
      + rewrite Hone, Hr, Hin. cbn [orb]. rewrite option_map_app_nil. exact IH.
      + destruct Hone as (v & s & x & q & Hone & Hid & Hs & Hf & Hx & Hq & Hrange
                          & Hcl & Hagain).
        rewrite Hone, Hr, Hin. cbn [orb].
        destruct (SkillTagger.validate_loop float_of_int float_of_str
                    valid_skill_ids tags []) as [r |]; cbn [option_map];
          [| exact IH].
        destruct IH as (IH0 & IH1 & IH2 & IH3). cbn [app].
        split; [exact IH0 |]. split; [| split].
        * constructor; [| exact IH1]. exists s, q. auto.
        * constructor; [| exact IH2]. split; [exact Hf |]. exists x, q. auto.
        * cbn [map]. rewrite validate_loop_cons, Hagain, IH3. reflexivity. }
  destruct (SkillTagger.validate_loop float_of_int float_of_str valid_skill_ids
              skill_tags []) as [validated |]; cbn [default id].
  - destruct H as (H0 & H1 & H2 & H3). rewrite H3.
    split; [exact H1 |]. split; [congruence |]. split; [intros _; exact H2 |].
    reflexivity.
  - split; [constructor |]. split; [reflexivity |].
    split; [congruence | reflexivity].
Qed.

(** A confidence above the range, and one that has no float. *)
Lemma validated_skill_tags_witness :
  SkillTagger.validated_tags small_int_float no_str_float [lit "SKILL-COMP-003"]
    [ {| SkillTagger.resp_skill_id := Some (PyStr (lit "SKILL-COMP-003"));
         SkillTagger.resp_skill_name := Some (lit "C");
         SkillTagger.resp_confidence := Some (SkillTagger.NotFloat (PyInt (10 ^ 400)));
         SkillTagger.resp_rationale := None;
         SkillTagger.resp_tag_numbers := Some (PyInt 1) |} ] = []
  /\ Forall2 (fun t v =>
                response_fields (as_response v) = response_fields t
                /\ exists x q,
                     SkillTagger.py_float small_int_float no_str_float
                       (default (SkillTagger.IsFloat (Finite 0))
                          (SkillTagger.resp_confidence t)) = Some x
                     /\ SkillTagger.raw_confidence v = Some q
                     /\ clamped x q)
       (List.filter (in_taxonomy [lit "SKILL-COMP-003"])
          [ {| SkillTagger.resp_skill_id := Some (PyStr (lit "SKILL-COMP-003"));
               SkillTagger.resp_skill_name := Some (lit "C");
               SkillTagger.resp_confidence :=
                 Some (SkillTagger.IsFloat (Finite (3 # 2)));
               SkillTagger.resp_rationale := None;
               SkillTagger.resp_tag_numbers := Some (PyInt 1) |} ])
       (SkillTagger.validated_tags small_int_float no_str_float
          [lit "SKILL-COMP-003"]
          [ {| SkillTagger.resp_skill_id := Some (PyStr (lit "SKILL-COMP-003"));
               SkillTagger.resp_skill_name := Some (lit "C");
               SkillTagger.resp_confidence :=
                 Some (SkillTagger.IsFloat (Finite (3 # 2)));
               SkillTagger.resp_rationale := None;
               SkillTagger.resp_tag_numbers := Some (PyInt 1) |} ]).
Proof.
  split.
  - apply (proj1 (proj2 (validated_skill_tags small_int_float no_str_float
                           [lit "SKILL-COMP-003"] _))).
    vm_compute. reflexivity.
  - apply (proj1 (proj2 (proj2 (validated_skill_tags small_int_float no_str_float
                                  [lit "SKILL-COMP-003"] _)))).
    vm_compute. reflexivity.
Defined.

(** ** The results of all stories *)

Lemma str_eqb_refl (a : str) : str_eqb a a = true.
Proof. now apply str_eqb_eq. Qed.

Lemma str_eqb_neq (a b : str) : a <> b -> str_eqb a b = false.
Proof.
  intros H. destruct (str_eqb a b) eqn:E; [| reflexivity].
  apply str_eqb_eq in E. contradiction.
Qed.

Lemma str_eq_dec (a b : str) : {a = b} + {a <> b}.
Proof.
  destruct (str_eqb a b) eqn:E.
  - left. now apply str_eqb_eq.
  - right. intros H. apply str_eqb_eq in H. congruence.
Qed.

Section ResultsFacts.

Context {R X : Type} (report : str -> outcome X -> R).

Lemma dict_lookup_set (k k' : str) (r : R) (d : PyDict.dict R) :
  PyDict.dict_lookup k' (PyDict.dict_set k r d)
  = if str_eqb k k' then Some r else PyDict.dict_lookup k' d.
Proof.
  unfold PyDict.dict_lookup.
  induction d as [|[k0 v0] d IH]; cbn [PyDict.dict_set List.find fst].
  - destruct (str_eqb k k'); reflexivity.
  - destruct (str_eq_dec k0 k) as [-> | Hne].
    + rewrite str_eqb_refl. cbn [List.find fst].
      destruct (str_eqb k k'); reflexivity.
    + rewrite (str_eqb_neq _ _ Hne). cbn [List.find fst].
      destruct (str_eq_dec k0 k') as [-> | Hne'].
      * rewrite str_eqb_refl.
        rewrite (str_eqb_neq k k') by congruence. reflexivity.
      * rewrite (str_eqb_neq _ _ Hne'). exact IH.
Qed.

Lemma completion_loop_other (k : str) (completed : list (str * outcome X)) :
  forall d,
    ~ In k (map fst completed) ->
    PyDict.dict_lookup k (AllStories.completion_loop report completed d)
    = PyDict.dict_lookup k d.
Proof.
  induction completed as [|[k0 f0] completed IH]; intros d Hk; [reflexivity |].
  cbn [AllStories.completion_loop]. rewrite IH.
  - rewrite dict_lookup_set, str_eqb_neq; [reflexivity |].
    intros ->. apply Hk. now left.
  - intros H. apply Hk. now right.
Qed.

(** After the loop, a story id that some future carries has the report of
    one of its futures. *)
Lemma completion_loop_some (k : str) (completed : list (str * outcome X)) :
  forall d,
    In k (map fst completed) ->
    exists f, In (k, f) completed
              /\ PyDict.dict_lookup k (AllStories.completion_loop report completed d)
                 = Some (report k f).
Proof.
  induction completed as [|[k0 f0] completed IH]; intros d Hk; [destruct Hk |].
  cbn [AllStories.completion_loop].
  destruct (in_dec str_eq_dec k (map fst completed)) as [Hin | Hout].
  - destruct (IH (PyDict.dict_set k0 (report k0 f0) d) Hin) as (f & Hf & Hl).
    exists f. split; [now right | exact Hl].
  - destruct Hk as [Hk | Hk]; [| contradiction]. cbn [fst] in Hk. subst k0.
    exists f0. split; [now left |].
    rewrite completion_loop_other by exact Hout.
    rewrite dict_lookup_set, str_eqb_refl. reflexivity.
Qed.

(** With one future for each story id, it is the report of that future. *)
Lemma completion_loop_unique (k : str) (f : outcome X)
    (completed : list (str * outcome X)) (d : PyDict.dict R) :
  List.NoDup (map fst completed) ->
  In (k, f) completed ->
  PyDict.dict_lookup k (AllStories.completion_loop report completed d)
  = Some (report k f).
Proof.
  intros Hnd Hin.
  destruct (completion_loop_some k completed d) as (f' & Hin' & Hl).
  { apply in_map_iff. now exists (k, f). }
  rewrite Hl. repeat f_equal.
  clear Hl d. induction completed as [|[k0 f0] completed IH]; [destruct Hin |].
  cbn [map fst] in Hnd. inversion Hnd as [| ? ? Hout Hnd']; subst.
  destruct Hin as [Hin | Hin], Hin' as [Hin' | Hin'].
  - congruence.
  - inversion Hin; subst. exfalso. apply Hout. apply in_map_iff. now exists (k, f').
  - inversion Hin'; subst. exfalso. apply Hout. apply in_map_iff. now exists (k, f).
  - now apply IH.
Qed.

Lemma read_back_some (completed : list (str * outcome X))
    (d : PyDict.dict R) (story_ids : list str) :
  (forall k, In k story_ids -> In k (map fst completed)) ->
  exists out,
    AllStories.read_back story_ids (AllStories.completion_loop report completed d)
    = Some out
    /\ Forall2 (fun k r => exists f, In (k, f) completed /\ r = report k f)
         story_ids out.
Proof.
  induction story_ids as [|k ids IH]; intros Hall.
  - exists []. split; [reflexivity | constructor].
  - destruct IH as (out & Hout & Hall2); [intros; apply Hall; now right |].
    destruct (completion_loop_some k completed d (Hall k (or_introl eq_refl)))
      as (f & Hf & Hl).
    exists (report k f :: out). split.
    + cbn [AllStories.read_back]. rewrite Hl, Hout. reflexivity.
    + constructor; [now exists f | exact Hall2].
Qed.

Lemma read_back_exact (completed : list (str * outcome X))
    (d : PyDict.dict R) :
  List.NoDup (map fst completed) ->
  forall (story_ids : list str) (futures : list (outcome X)),
    length futures = length story_ids ->
    (forall p, In p (combine story_ids futures) -> In p completed) ->
    AllStories.read_back story_ids (AllStories.completion_loop report completed d)
    = Some (map (fun p => report (fst p) (snd p)) (combine story_ids futures)).
Proof.
  intros Hnd. induction story_ids as [|k ids IH]; intros futures Hlen Hall.
  - reflexivity.
  - destruct futures as [|f futures]; [discriminate |].
    cbn [AllStories.read_back combine map fst snd].
    rewrite (completion_loop_unique k f) by (try assumption; apply Hall; now left).
    rewrite (IH futures); [reflexivity | now injection Hlen |].
    intros p Hp. apply Hall. now right.
Qed.

Lemma all_stories_in_order (story_ids : list str) (futures : list (outcome X))
    (completed : list (str * outcome X)) :
  length futures = length story_ids ->
  Permutation completed (combine story_ids futures) ->
  (exists out,
      AllStories.all_stories report story_ids completed = Some out
      /\ Forall2 (fun k r => exists f, In (k, f) completed /\ r = report k f)
           story_ids out)
  /\ (List.NoDup story_ids ->
      AllStories.all_stories report story_ids completed
      = Some (map (fun p => report (fst p) (snd p)) (combine story_ids futures))).
Proof.
  intros Hlen Hperm.
  assert (Hkeys : Permutation (map fst completed) story_ids).
  { rewrite Hperm. clear Hperm. revert futures Hlen.
    induction story_ids as [|k ids IH]; intros [|f futures] Hlen;
      try discriminate; [reflexivity |].
    cbn [combine map fst]. constructor. apply IH. now injection Hlen. }
  split.
  - apply read_back_some. intros k Hk.
    eapply Permutation_in; [symmetry; exact Hkeys | exact Hk].
  - intros Hnd. apply read_back_exact.
    + eapply Permutation_NoDup; [symmetry; exact Hkeys | exact Hnd].
    + exact Hlen.
    + intros p Hp. eapply Permutation_in; [symmetry; exact Hperm | exact Hp].
Qed.

End ResultsFacts.

(** [flag_all_stories], with one future for each story id, in whatever
    order the futures complete: the list it returns has one report for each
    story id, in the order of the story ids (there is no [KeyError]), each
    the report of a future of that story; when no story id is repeated it is
    the list of the reports of the futures in the order of submission, a
    future that raised giving an error record of no flag. *)
Theorem flag_all_stories_in_order (str_of_exn : exn -> str)
    (story_ids : list str) (futures : list (outcome ContentFlagger.StoryResult))
    (completed : list (str * outcome ContentFlagger.StoryResult)) :
  length futures = length story_ids ->
  Permutation completed (combine story_ids futures) ->
  (exists out,
      AllStories.flag_all_stories str_of_exn story_ids completed = Some out
      /\ Forall2 (fun k r =>
                    exists f, In (k, f) completed
                              /\ r = AllStories.flag_report str_of_exn k f)
           story_ids out)
  /\ (List.NoDup story_ids ->
      AllStories.flag_all_stories str_of_exn story_ids completed
      = Some (map (fun p =>
                     match snd p with
                     | Ok result => AllStories.Flagged (fst p) result
                     | Raise e =>
                         AllStories.FlagError (fst p) (str_of_exn e) 0 false
                     end)
                (combine story_ids futures))).
Proof.
  intros Hlen Hperm.
  exact (all_stories_in_order (AllStories.flag_report str_of_exn)
           story_ids futures completed Hlen Hperm).
Qed.

(** [tag_all_stories] in the same way: one report for each story id in the
    order of the story ids, whatever the order of completion, a future that
    raised giving an error record of no skill tag. *)
Theorem tag_all_stories_in_order (str_of_exn : exn -> str)
    (story_ids : list str) (futures : list (outcome SkillTagger.TagResult))
    (completed : list (str * outcome SkillTagger.TagResult)) :
  length futures = length story_ids ->
  Permutation completed (combine story_ids futures) ->
  (exists out,
      AllStories.tag_all_stories str_of_exn story_ids completed = Some out
      /\ Forall2 (fun k r =>
                    exists f, In (k, f) completed
                              /\ r = AllStories.tag_report str_of_exn k f)
           story_ids out)
  /\ (List.NoDup story_ids ->
      AllStories.tag_all_stories str_of_exn story_ids completed
      = Some (map (fun p =>
                     match snd p with
                     | Ok result => AllStories.Tagged (fst p) result
                     | Raise e => AllStories.TagError (fst p) (str_of_exn e) []
                     end)
                (combine story_ids futures))).
Proof.
  intros Hlen Hperm.
  exact (all_stories_in_order (AllStories.tag_report str_of_exn)
           story_ids futures completed Hlen Hperm).
Qed.

Lemma flag_all_stories_in_order_witness :
  AllStories.flag_all_stories (fun _ => lit "TypeError")
    [lit "s1"; lit "s2"]
    [ (lit "s2", Ok {| ContentFlagger.flag_count := 0;
                       ContentFlagger.has_critical := false;
                       ContentFlagger.highlighted_text := lit "A.";
                       ContentFlagger.flags := [] |});
      (lit "s1", Raise TypeError) ]
  = Some [ AllStories.FlagError (lit "s1") (lit "TypeError") 0 false;
           AllStories.Flagged (lit "s2")
             {| ContentFlagger.flag_count := 0;
                ContentFlagger.has_critical := false;
                ContentFlagger.highlighted_text := lit "A.";
                ContentFlagger.flags := [] |} ].
Proof.
  refine (proj2 (flag_all_stories_in_order (fun _ => lit "TypeError")
                   [lit "s1"; lit "s2"]
                   [ Raise TypeError;
                     Ok {| ContentFlagger.flag_count := 0;
                           ContentFlagger.has_critical := false;
                           ContentFlagger.highlighted_text := lit "A.";
                           ContentFlagger.flags := [] |} ]
                   _ eq_refl _) _).
  - apply perm_swap.
  - constructor; [| constructor; [| constructor]].
    + intros [H | []]. vm_compute in H. discriminate H.
    + intros [].
Defined.

Lemma tag_all_stories_in_order_witness :
  AllStories.tag_all_stories (fun _ => lit "IndexError")
    [lit "s1"; lit "s2"]
    [ (lit "s2", Raise IndexError);
      (lit "s1", Ok {| SkillTagger.tags := [];
                       SkillTagger.highlighted_text := lit "A." |}) ]
  = Some [ AllStories.Tagged (lit "s1")
             {| SkillTagger.tags := []; SkillTagger.highlighted_text := lit "A." |};
           AllStories.TagError (lit "s2") (lit "IndexError") [] ].
Proof.
  refine (proj2 (tag_all_stories_in_order (fun _ => lit "IndexError")
                   [lit "s1"; lit "s2"]
                   [ Ok {| SkillTagger.tags := [];
                           SkillTagger.highlighted_text := lit "A." |};
                     Raise IndexError ]
                   _ eq_refl _) _).
  - apply perm_swap.
  - constructor; [| constructor; [| constructor]].
    + intros [H | []]. vm_compute in H. discriminate H.
    + intros [].
Defined.

(** ** Dictionaries *)

Section DictFacts.

Context {V : Type}.

Implicit Types (d : PyDict.dict V) (k : str) (v : V).

Lemma dict_lookup_cons k k0 v0 d :
  PyDict.dict_lookup k ((k0, v0) :: d)
  = if str_eqb k0 k then Some v0 else PyDict.dict_lookup k d.
Proof.
  unfold PyDict.dict_lookup. cbn [List.find fst].
  destruct (str_eqb k0 k); reflexivity.
Qed.

Lemma dict_lookup_none k d :
  PyDict.dict_lookup k d = None <-> ~ In k (PyDict.keys d).
Proof.
  unfold PyDict.dict_lookup, PyDict.keys.
  induction d as [|[k0 v0] d IH]; cbn [List.find map fst In].
  - split; [intros _ [] | reflexivity].
  - destruct (str_eq_dec k0 k) as [-> | Hne].
    + rewrite str_eqb_refl. split; [discriminate | intros H; exfalso; apply H; now left].
    + rewrite (str_eqb_neq _ _ Hne). rewrite IH. tauto.
Qed.

Lemma dict_keys_set k v d :
  PyDict.keys (PyDict.dict_set k v d)
  = if in_dec str_eq_dec k (PyDict.keys d) then PyDict.keys d
    else PyDict.keys d ++ [k].
Proof.
  unfold PyDict.keys.
  induction d as [|[k0 v0] d IH]; cbn [PyDict.dict_set map fst].
  - destruct (in_dec _ _ _) as [[] |]; reflexivity.
  - destruct (str_eq_dec k0 k) as [-> | Hne].
    + rewrite str_eqb_refl. cbn [map fst]. clear IH.
      destruct (in_dec str_eq_dec k (k :: map fst d)) as [_ | Hout]; [reflexivity |].
      exfalso. apply Hout. now left.
    + rewrite (str_eqb_neq _ _ Hne). cbn [map fst]. rewrite IH.
      destruct (in_dec str_eq_dec k (map fst d)) as [Hin | Hout],
               (in_dec str_eq_dec k (k0 :: map fst d)) as [Hin' | Hout'];
        try reflexivity.
      * exfalso. apply Hout'. now right.
      * exfalso. destruct Hin' as [-> | Hin']; [now apply Hne | now apply Hout].
Qed.

Lemma dict_keys_set_in k k' v d :
  In k' (PyDict.keys (PyDict.dict_set k v d)) <-> k' = k \/ In k' (PyDict.keys d).
Proof.
  rewrite dict_keys_set. destruct (in_dec _ _ _) as [Hin | Hout].
  - split; [tauto | intros [-> | H]; assumption].
  - rewrite in_app_iff. cbn [In]. split; [intros [H | [H | []]] | intros [H | H]]; auto.
Qed.

Lemma dict_keys_set_nodup k v d :
  List.NoDup (PyDict.keys d) -> List.NoDup (PyDict.keys (PyDict.dict_set k v d)).
Proof.
  intros H. rewrite dict_keys_set. destruct (in_dec _ _ _) as [Hin | Hout]; [exact H |].
  apply List.NoDup_app; [exact H | repeat constructor; intros [] |].
  intros x Hx [<- | []]. contradiction.
Qed.

Lemma dict_update_lookup k (other : PyDict.dict V) :
  List.NoDup (PyDict.keys other) ->
  forall d,
    PyDict.dict_lookup k (PyDict.dict_update d other)
    = match PyDict.dict_lookup k other with
      | Some v => Some v
      | None => PyDict.dict_lookup k d
      end.
Proof.
  unfold PyDict.dict_update.
  induction other as [|[k0 v0] other IH]; intros Hnd d; [reflexivity |].
  cbn [PyDict.keys map fst] in Hnd. inversion Hnd as [| ? ? Hout Hnd']; subst.
  cbn [fold_left fst snd]. rewrite (IH Hnd'), dict_lookup_set, dict_lookup_cons.
  destruct (str_eq_dec k0 k) as [-> | Hne].
  - rewrite str_eqb_refl.
    apply dict_lookup_none in Hout. now rewrite Hout.
  - rewrite (str_eqb_neq _ _ Hne). reflexivity.
Qed.

Lemma dict_update_keys (other : PyDict.dict V) :
  List.NoDup (PyDict.keys other) ->
  forall d,
    PyDict.keys (PyDict.dict_update d other)
    = PyDict.keys d
      ++ List.filter (fun k => negb (existsb (str_eqb k) (PyDict.keys d)))
           (PyDict.keys other).
Proof.
  unfold PyDict.dict_update.
  induction other as [|[k0 v0] other IH]; intros Hnd d.
  - cbn. now rewrite app_nil_r.
  - cbn [PyDict.keys map fst] in Hnd. inversion Hnd as [| ? ? Hout Hnd']; subst.
    cbn [fold_left fst snd]. rewrite (IH Hnd'), dict_keys_set.
    cbn [PyDict.keys map fst List.filter].
    destruct (in_dec str_eq_dec k0 (PyDict.keys d)) as [Hin | Hnin].
    + assert (Hb : existsb (str_eqb k0) (PyDict.keys d) = true).
      { apply existsb_exists. exists k0. split; [exact Hin | apply str_eqb_refl]. }
      rewrite Hb. reflexivity.
    + assert (Hb : existsb (str_eqb k0) (PyDict.keys d) = false).
      { apply not_true_is_false. intros H.
        apply existsb_exists in H as (x & Hx & Heq).
        apply str_eqb_eq in Heq. subst x. contradiction. }
      rewrite Hb. cbn [negb]. rewrite <- app_assoc. cbn [app]. do 2 f_equal.
      apply List.filter_ext_in. intros k Hk. f_equal.
      rewrite existsb_app. cbn [existsb].
      rewrite (str_eqb_neq k k0); [now rewrite !orb_false_r |].
      intros ->. contradiction.
Qed.

End DictFacts.

(** A dictionary of counts is given by its keys and the count of each. *)
Lemma dict_by_keys (d : PyDict.dict nat) :
  List.NoDup (PyDict.keys d) ->
  d = map (fun k => (k, default 0%nat (PyDict.dict_lookup k d))) (PyDict.keys d).
Proof.
  unfold PyDict.keys.
  induction d as [|[k0 v0] d IH]; intros Hnd; [reflexivity |].
  cbn [map fst] in *. inversion Hnd as [| ? ? Hout Hnd']; subst.
  rewrite dict_lookup_cons, str_eqb_refl. f_equal.
  rewrite (IH Hnd') at 1. apply map_ext_in. intros k Hk. f_equal.
  rewrite dict_lookup_cons.
  rewrite (str_eqb_neq k0 k); [reflexivity |]. intros ->. contradiction.
Qed.

(** ** [Counter] *)

Lemma counter_loop_nodup (elements : list str) :
  forall counts : PyDict.dict nat,
    List.NoDup (PyDict.keys counts) ->
    List.NoDup
      (PyDict.keys
         (fold_left
            (fun counts elem =>
               PyDict.dict_set elem
                 (S (default 0%nat (PyDict.dict_lookup elem counts))) counts)
            elements counts)).
Proof.
  induction elements as [|x l IH]; intros counts H; [exact H |].
  cbn [fold_left]. apply IH. now apply dict_keys_set_nodup.
Qed.

Lemma counter_loop_keys (k : str) (elements : list str) :
  forall counts : PyDict.dict nat,
    In k (PyDict.keys
            (fold_left
               (fun counts elem =>
                  PyDict.dict_set elem
                    (S (default 0%nat (PyDict.dict_lookup elem counts))) counts)
               elements counts))
    <-> In k elements \/ In k (PyDict.keys counts).
Proof.
  induction elements as [|x l IH]; intros counts; cbn [fold_left In].
  - tauto.
  - rewrite IH, dict_keys_set_in. intuition congruence.
Qed.

Lemma counter_loop_count (k : str) (elements : list str) :
  forall counts : PyDict.dict nat,
    default 0%nat
      (PyDict.dict_lookup k
         (fold_left
            (fun counts elem =>
               PyDict.dict_set elem
                 (S (default 0%nat (PyDict.dict_lookup elem counts))) counts)
            elements counts))
    = (occurrences k elements + default 0%nat (PyDict.dict_lookup k counts))%nat.
Proof.
  unfold occurrences.
  induction elements as [|x l IH]; intros counts; cbn [fold_left List.filter].
  - reflexivity.
  - rewrite IH, dict_lookup_set.
    destruct (str_eq_dec x k) as [-> | Hne].
    + rewrite str_eqb_refl. cbn [length default]. unfold id. lia.
    + rewrite (str_eqb_neq _ _ Hne), (str_eqb_neq k x) by congruence. reflexivity.
Qed.

Lemma occurrences_none (k : str) (l : list str) :
  ~ In k l -> occurrences k l = 0%nat.
Proof.
  unfold occurrences. induction l as [|x l IH]; intros H; [reflexivity |].
  cbn [List.filter]. rewrite (str_eqb_neq k x).
  - apply IH. intros Hin. apply H. now right.
  - intros ->. apply H. now left.
Qed.

Lemma list_sum_cons (a : nat) (l : list nat) :
  list_sum (a :: l) = (a + list_sum l)%nat.
Proof. reflexivity. Qed.

Lemma sum_indicator (x : str) (ks : list str) :
  List.NoDup ks -> In x ks ->
  list_sum (map (fun k => if str_eqb k x then 1%nat else 0%nat) ks) = 1%nat.
Proof.
  induction ks as [|k ks IH]; intros Hnd Hin; [destruct Hin |].
  inversion Hnd as [| ? ? Hout Hnd']; subst. cbn [map]. rewrite list_sum_cons.
  destruct (str_eq_dec k x) as [-> | Hne].
  - rewrite str_eqb_refl.
    assert (H0 : list_sum (map (fun k => if str_eqb k x then 1%nat else 0%nat) ks)
                 = 0%nat).
    { clear IH Hin Hnd Hnd'. induction ks as [|k ks IH]; [reflexivity |].
      cbn [map]. rewrite list_sum_cons, (str_eqb_neq k x).
      - apply IH. intros H. apply Hout. now right.
      - intros ->. apply Hout. now left. }
    rewrite H0. reflexivity.
  - rewrite (str_eqb_neq _ _ Hne). destruct Hin as [-> | Hin]; [contradiction |].
    now rewrite IH.
Qed.

Lemma sum_occurrences (ks l : list str) :
  List.NoDup ks -> (forall x, In x l -> In x ks) ->
  list_sum (map (fun k => occurrences k l) ks) = length l.
Proof.
  intros Hnd. induction l as [|x l IH]; intros Hall.
  - clear. induction ks as [|k ks IH]; [reflexivity | exact IH].
  - change (length (x :: l)) with (1 + length l)%nat.
    rewrite <- IH by (intros; apply Hall; now right).
    rewrite <- (sum_indicator x ks Hnd) by (apply Hall; now left).
    clear. induction ks as [|k ks IH]; [reflexivity |].
    cbn [map]. rewrite !list_sum_cons, IH. unfold occurrences. cbn [List.filter].
    destruct (str_eqb k x); cbn [length]; lia.
Qed.

Lemma report_category_values (tags : list (option str)) :
  forall c, In c (report_categories tags) ->
            In c (map snd HTMLReportGenerator.CATEGORY_MAP) \/ c = lit "Unknown".
Proof.
  intros c Hc. unfold report_categories in Hc. apply in_map_iff in Hc as (t & <- & _).
  unfold HTMLReportGenerator._extract_category_from_skill_id.
  destruct (HighlightingHelper.split_on "-" (default [] t)) as [|f1 [|f2 fs]];
    try (right; reflexivity).
  destruct (dict_get_in HTMLReportGenerator.CATEGORY_MAP f2 (lit "Unknown")) as [H | H].
  - right. now symmetry.
  - now left.
Qed.

Lemma nodup_all_equal (u : str) (l : list str) :
  List.NoDup l -> (forall x, In x l -> x = u) ->
  l = if existsb (str_eqb u) l then [u] else [].
Proof.
  intros Hnd Hall. destruct l as [|x [|y l]].
  - reflexivity.
  - rewrite (Hall x (or_introl eq_refl)). cbn [existsb]. now rewrite str_eqb_refl.
  - exfalso. inversion Hnd as [| ? ? Hout _]; subst. apply Hout. left.
    rewrite (Hall x), (Hall y); [reflexivity | right; now left | now left].
Qed.

(** [_calculate_category_counts]: the dictionary it returns has the five
    categories of [CATEGORY_MAP] in the order of the map, each with the
    number of the tags of that category (0 when there is none), and after
    them "Unknown" with its number when, and only when, a tag has no known
    category; the counts add up to the number of tags. *)
Theorem category_counts (tags : list (option str)) :
  HTMLReportGenerator._calculate_category_counts tags
  = map (fun cat => (cat, occurrences cat (report_categories tags)))
      ([lit "Decoding"; lit "Comprehension"; lit "Vocabulary"; lit "Knowledge";
        lit "Fluency"]
       ++ (if existsb (str_eqb (lit "Unknown")) (report_categories tags)
           then [lit "Unknown"] else []))
  /\ list_sum (map snd (HTMLReportGenerator._calculate_category_counts tags))
     = length tags.
Proof.
  set (cats := report_categories tags).
  set (counts := HTMLReportGenerator.Counter cats).
  set (five := [lit "Decoding"; lit "Comprehension"; lit "Vocabulary";
                lit "Knowledge"; lit "Fluency"]).
  assert (Hzero : HTMLReportGenerator.zero_counts = map (fun k => (k, 0%nat)) five)
    by (vm_compute; reflexivity).
  assert (Hfive : map snd HTMLReportGenerator.CATEGORY_MAP = five) by reflexivity.
  assert (Hnd5 : List.NoDup five).
  { unfold five. repeat (constructor; [cbn [In]; intros H;
      repeat (destruct H as [H | H]; [vm_compute in H; discriminate H |]);
      exact H |]). constructor. }
  assert (Hu5 : ~ In (lit "Unknown") five).
  { unfold five. cbn [In]. intros H.
    repeat (destruct H as [H | H]; [vm_compute in H; discriminate H |]). exact H. }
  assert (Hndc : List.NoDup (PyDict.keys counts))
    by (apply counter_loop_nodup; constructor).
  assert (Hkc : forall k, In k (PyDict.keys counts) <-> In k cats).
  { intros k. unfold counts, HTMLReportGenerator.Counter.
    rewrite counter_loop_keys. cbn. tauto. }
  assert (Hcount : forall k, default 0%nat (PyDict.dict_lookup k counts)
                             = occurrences k cats).
  { intros k. unfold counts, HTMLReportGenerator.Counter.
    rewrite counter_loop_count. cbn. unfold id. lia. }
  assert (Hkeys : PyDict.keys (HTMLReportGenerator._calculate_category_counts tags)
                  = five ++ (if existsb (str_eqb (lit "Unknown")) cats
                             then [lit "Unknown"] else [])).
  { unfold HTMLReportGenerator._calculate_category_counts.
    fold (report_categories tags). fold cats. fold counts. cbv zeta.
    rewrite (dict_update_keys _ Hndc). rewrite Hzero.
    unfold PyDict.keys at 1 2. rewrite map_map. cbn [fst]. rewrite map_id. f_equal.
    set (extra := List.filter _ (PyDict.keys counts)).
    assert (Hextra : forall x, In x extra <-> In x cats /\ ~ In x five).
    { intros x. unfold extra. rewrite filter_In, Hkc, negb_true_iff.
      split; intros [H1 H2]; (split; [exact H1 |]).
      - intros Hin. enough (existsb (str_eqb x) five = true) by congruence.
        apply existsb_exists. exists x. split; [exact Hin | apply str_eqb_refl].
      - apply not_true_is_false. intros H. apply existsb_exists in H as (y & Hy & Heq).
        apply str_eqb_eq in Heq. subst y. contradiction. }
    rewrite (nodup_all_equal (lit "Unknown") extra).
    - replace (existsb (str_eqb (lit "Unknown")) extra)
        with (existsb (str_eqb (lit "Unknown")) cats); [reflexivity |].
      apply eq_true_iff_eq. rewrite !existsb_exists. split.
      + intros (x & Hx & Heq). apply str_eqb_eq in Heq. subst x.
        exists (lit "Unknown"). split; [| apply str_eqb_refl].
        apply Hextra. split; assumption.
      + intros (x & Hx & Heq). exists x. split; [| exact Heq]. now apply Hextra.
    - apply List.NoDup_filter, Hndc.
    - intros x Hx. apply Hextra in Hx as [Hx Hx5].
      destruct (report_category_values tags x Hx) as [H | H]; [| exact H].
      rewrite Hfive in H. contradiction. }
  assert (Hndr : List.NoDup
                   (PyDict.keys (HTMLReportGenerator._calculate_category_counts tags))).
  { rewrite Hkeys. apply List.NoDup_app; [exact Hnd5 | |].
    - destruct (existsb _ cats); repeat constructor. intros [].
    - intros x Hx Hx'. destruct (existsb _ cats); [| destruct Hx'].
      destruct Hx' as [<- | []]. contradiction. }
  assert (Hval : forall k,
             default 0%nat
               (PyDict.dict_lookup k (HTMLReportGenerator._calculate_category_counts tags))
             = occurrences k cats).
  { intros k. unfold HTMLReportGenerator._calculate_category_counts.
    fold (report_categories tags). fold cats. fold counts. cbv zeta.
    rewrite (dict_update_lookup k _ Hndc). rewrite <- Hcount.
    destruct (PyDict.dict_lookup k counts) as [v |] eqn:Hl; [reflexivity |].
    rewrite Hzero. unfold PyDict.dict_lookup.
    destruct (List.find _ _) as [[k' v'] |] eqn:Hf; [| reflexivity].
    apply find_some in Hf as [Hin _]. apply in_map_iff in Hin as (x & Hx & _).
    now inversion Hx. }
  assert (Hresult : HTMLReportGenerator._calculate_category_counts tags
                    = map (fun cat => (cat, occurrences cat cats))
                        (five ++ (if existsb (str_eqb (lit "Unknown")) cats
                                  then [lit "Unknown"] else []))).
  { rewrite (dict_by_keys _ Hndr) at 1. rewrite Hkeys.
    apply map_ext. intros k. now rewrite Hval. }
  split; [exact Hresult |].
  rewrite Hresult, map_map. cbn [snd].
  rewrite sum_occurrences.
  - unfold cats, report_categories. apply length_map.
  - rewrite <- Hkeys. exact Hndr.
  - intros x Hx. apply in_app_iff.
    destruct (report_category_values tags x Hx) as [H | ->].
    + left. now rewrite <- Hfive.
    + right. replace (existsb (str_eqb (lit "Unknown")) cats) with true; [now left |].
      symmetry. apply existsb_exists. exists (lit "Unknown").
      split; [exact Hx | apply str_eqb_refl].
Qed.
